(** * WaveSpeed dynamic real node: a shallow embedding

    The development follows [web/wavespeed_dynamic_real_node.js]:
    the schema cache, the schema parser, the placeholder pool, the
    control/port synchroniser, the initialisation entry point and the
    execution-time rewriter.  JavaScript objects that the code mutates in
    place (controls, ports) carry an identity and live in the node, so that
    a write through a reference ([node.categoryWidget.value = ...]) is a
    write to the element of [node.widgets] with that identity.

    Conventions of the embedding:
    - an [await]ed remote answer is an argument of the function that awaits it;
    - [setSize], [setDirtyCanvas], timers that only lay out or log, and
      console output have no effect on the modelled state and are left out;
      [node.computeSize()] is modelled where a [try] observes whether it
      throws (in [updateModelParameters]) and is taken to return elsewhere;
    - host functions ([node.addWidget], [node.addInput],
      [ComfyWidgets.STRING]) are modelled by what they append to the node and
      return; they are assumed not to throw;
    - a plain object finds the keys that it does not own on
      [Object.prototype]: the lookups of the schema properties and of the
      parameter mapping model it ([lookup_prop], [lookup_mapping]).  Declared
      types, category values, model ids and the names under which the values
      of controls are stored are taken not to be keys of [Object.prototype]:
      there the lookup answers with a function, which the values of this
      development do not hold;
    - a JSON text is represented by the value it encodes. *)

From stdpp Require Import gmap strings list pretty.
From Stdlib Require Import QArith.
From Stdlib Require Import Sorting.Sorted.

Local Open Scope string_scope.
Local Open Scope Z_scope.
Local Open Scope nat_scope.

(** ** JavaScript values and the string functions the code uses *)

(** The JSON-like values that flow through controls and schemas.  A finite
    number is a rational; [NaN] never reaches a stored value in the modelled
    code ([parseFloat] results are tested with [isNaN] first). *)
#[warnings="-register-all"]
Inductive JsValue : Type :=
  | JUndefined
  | JNull
  | JBool (b : bool)
  | JNum (q : Q)
  | JStr (s : string)
  | JArr (items : list JsValue).

(** JavaScript truthiness. *)
Definition truthy (v : JsValue) : bool :=
  match v with
  | JUndefined | JNull => false
  | JBool b => b
  | JNum q => negb (Qeq_bool q 0)
  | JStr s => negb (String.eqb s "")
  | JArr _ => true
  end.

(** [a || b] on values. *)
Definition js_or (a b : JsValue) : JsValue := if truthy a then a else b.

(** [a ?? b]. *)
Definition nullish (a b : JsValue) : JsValue :=
  match a with
  | JUndefined | JNull => b
  | _ => a
  end.

(** [v === ''] *)
Definition is_empty_string (v : JsValue) : bool :=
  match v with
  | JStr s => String.eqb s ""
  | _ => false
  end.

Definition is_nullish (v : JsValue) : bool :=
  match v with
  | JUndefined | JNull => true
  | _ => false
  end.

(** [String.prototype.toLowerCase] on the ASCII letters. *)
Definition lower_ascii (c : Ascii.ascii) : Ascii.ascii :=
  let n := Ascii.nat_of_ascii c in
  if (65 <=? n) && (n <=? 90) then Ascii.ascii_of_nat (n + 32) else c.

Fixpoint toLowerCase (s : string) : string :=
  match s with
  | EmptyString => EmptyString
  | String c s' => String (lower_ascii c) (toLowerCase s')
  end.

(** [s.startsWith(p)] *)
Definition startsWith (s p : string) : bool := String.prefix p s.

(** [s.includes(sub)] *)
Fixpoint includes (s sub : string) : bool :=
  String.prefix sub s ||
  match s with
  | EmptyString => false
  | String _ s' => includes s' sub
  end.

(** [s.substring(n)] *)
Fixpoint substring_from (n : nat) (s : string) : string :=
  match n, s with
  | O, _ => s
  | S n', String _ s' => substring_from n' s'
  | S _, EmptyString => EmptyString
  end.

(** White space removed by [trim], on the ASCII range. *)
Definition is_space (c : Ascii.ascii) : bool :=
  let n := Ascii.nat_of_ascii c in
  (n =? 32) || ((9 <=? n) && (n <=? 13)).

Fixpoint trimStart (s : string) : string :=
  match s with
  | EmptyString => EmptyString
  | String c s' => if is_space c then trimStart s' else s
  end.

Fixpoint trimEnd (s : string) : string :=
  match s with
  | EmptyString => EmptyString
  | String c s' =>
      let t := trimEnd s' in
      if is_space c && String.eqb t "" then EmptyString else String c t
  end.

Definition trim (s : string) : string := trimEnd (trimStart s).

(** [s.split(sep)] for a one-character separator. *)
Fixpoint js_split (sep : Ascii.ascii) (s : string) : list string :=
  match s with
  | EmptyString => [EmptyString]
  | String c s' =>
      if Ascii.eqb c sep then EmptyString :: js_split sep s'
      else match js_split sep s' with
           | h :: t => String c h :: t
           | [] => [String c EmptyString]
           end
  end.

Definition is_digit (c : Ascii.ascii) : bool :=
  let n := Ascii.nat_of_ascii c in (48 <=? n) && (n <=? 57).

Fixpoint all_digits (s : string) : bool :=
  match s with
  | EmptyString => true
  | String c s' => is_digit c && all_digits s'
  end.

(** The test [name.match(/^param_\d+$/)]. *)
Definition is_placeholder_name (s : string) : bool :=
  startsWith s "param_" &&
  (let rest := substring_from 6 s in
   negb (String.eqb rest "") && all_digits rest).

(** The template string [`param_${i}`]. *)
Definition candidateName (i : nat) : string := "param_" +:+ pretty i.

(** [name.startsWith('* ') ? name.substring(2) : name] *)
Definition cleanName (s : string) : string :=
  if startsWith s "* " then substring_from 2 s else s.

(** ** Plain objects and [Object.prototype] *)

(** A plain object (an object literal, or one that [JSON.parse] built) reads
    a key that it does not own from [Object.prototype].  These are the keys
    found there: the members of the ECMAScript standard and the legacy
    accessors of its annex B, which every browser defines. *)
Definition objectPrototypeKeys : list string :=
  ["constructor"; "hasOwnProperty"; "isPrototypeOf"; "propertyIsEnumerable";
   "toLocaleString"; "toString"; "valueOf"; "__proto__";
   "__defineGetter__"; "__defineSetter__"; "__lookupGetter__"; "__lookupSetter__"].

(** [k in Object.prototype] *)
Definition inheritedKey (k : string) : bool := bool_decide (k ∈ objectPrototypeKeys).

(** ** Schemas and parameter descriptors *)

(** [prop.items] of an array property. *)
Record SchemaItems : Type := { items_type : option string }.

(** One entry of [inputSchema.properties]. *)
Record SchemaProp : Type := {
  prop_type : option string;
  prop_enum : option (list JsValue);
  prop_default : JsValue;
  prop_description : option string;
  prop_disabled : JsValue;
  prop_hidden : JsValue;
  prop_minimum : JsValue;
  prop_maximum : JsValue;
  prop_items : option SchemaItems
}.

(** [properties] lists the own keys of the object in the order
    [Object.keys] enumerates them. *)
Record InputSchema : Type := {
  properties : option (list (string * SchemaProp));
  required : option (list string);
  x_order_properties : option (list string)
}.

(** [result.data] of the model endpoint. *)
Record ModelDetail : Type := { input_schema : option InputSchema }.

(** A normalised parameter, as [parseModelParameters] builds it. *)
Record Param : Type := {
  p_name : string;
  p_displayName : string;
  p_type : string;
  p_required : bool;
  p_default : JsValue;
  p_description : string;
  p_isArray : bool;
  p_arrayItems : option SchemaItems;
  p_options : option (list JsValue);
  p_min : JsValue;
  p_max : JsValue;
  p_step : JsValue
}.

(** [{name, value}] entries of the category and model lists. *)
Record NamedValue : Type := { nv_name : string; nv_value : string }.

(** ** Schema cache *)

Record GlobalCache : Type := {
  categories : option (list NamedValue);
  modelsByCategory : gmap string (list NamedValue);
  modelDetails : gmap string ModelDetail;
  lastCategoryUpdate : Z;
  lastModelUpdate : gmap string Z
}.

Definition GLOBAL_CACHE : GlobalCache :=
  {| categories := None;
     modelsByCategory := ∅;
     modelDetails := ∅;
     lastCategoryUpdate := 0%Z;
     lastModelUpdate := ∅ |}.

(** [cacheExpiry: 5 * 60 * 1000] *)
Definition cacheExpiry : Z := (5 * 60 * 1000)%Z.

(** What the three remote reads answer ([result.success ? result.data : ...]). *)
Record Remote : Type := {
  getModelCategories : list NamedValue;
  getModelsByCategory : string → list NamedValue;
  getModelDetail : string → option ModelDetail
}.

Inductive Endpoint : Type :=
  | EpCategories
  | EpModels (category : string)
  | EpModel (modelId : string).

(** The process-wide cache together with the requests sent so far. *)
Record Session : Type := {
  cache : GlobalCache;
  requests : list Endpoint
}.

(** [Date.now() - timestamp > GLOBAL_CACHE.cacheExpiry], [now] being the
    reading of the clock. *)
Definition isCacheExpired (now timestamp : Z) : bool :=
  (now - timestamp >? cacheExpiry)%Z.

(** [now] is the clock at the expiry test, [later] the clock when the
    awaited answer is stored. *)
Definition getCachedCategories (remote : Remote) (now later : Z) (s : Session)
  : list NamedValue * Session :=
  let c := cache s in
  match categories c with
  | Some cached =>
      if isCacheExpired now (lastCategoryUpdate c) then
        let fresh := getModelCategories remote in
        (fresh,
         {| cache := {| categories := Some fresh;
                        modelsByCategory := modelsByCategory c;
                        modelDetails := modelDetails c;
                        lastCategoryUpdate := later;
                        lastModelUpdate := lastModelUpdate c |};
            requests := requests s ++ [EpCategories] |})
      else (cached, s)
  | None =>
      let fresh := getModelCategories remote in
      (fresh,
       {| cache := {| categories := Some fresh;
                      modelsByCategory := modelsByCategory c;
                      modelDetails := modelDetails c;
                      lastCategoryUpdate := later;
                      lastModelUpdate := lastModelUpdate c |};
          requests := requests s ++ [EpCategories] |})
  end.

Definition getCachedModelsByCategory (remote : Remote) (now later : Z)
    (category : string) (s : Session) : list NamedValue * Session :=
  let c := cache s in
  let refetch :=
    let models := getModelsByCategory remote category in
    (models,
     {| cache := {| categories := categories c;
                    modelsByCategory := <[category := models]> (modelsByCategory c);
                    modelDetails := modelDetails c;
                    lastCategoryUpdate := lastCategoryUpdate c;
                    lastModelUpdate := <[category := later]> (lastModelUpdate c) |};
        requests := requests s ++ [EpModels category] |}) in
  match modelsByCategory c !! category with
  | Some cached =>
      if isCacheExpired now (default 0%Z (lastModelUpdate c !! category))
      then refetch else (cached, s)
  | None => refetch
  end.

(** No clock is read here: an entry of [modelDetails] carries no time. *)
Definition getCachedModelDetail (remote : Remote) (modelId : string) (s : Session)
  : option ModelDetail * Session :=
  let c := cache s in
  match modelDetails c !! modelId with
  | Some cached => (Some cached, s)
  | None =>
      let s' := {| cache := c; requests := requests s ++ [EpModel modelId] |} in
      match getModelDetail remote modelId with
      | Some detail =>
          (Some detail,
           {| cache := {| categories := categories c;
                          modelsByCategory := modelsByCategory c;
                          modelDetails := <[modelId := detail]> (modelDetails c);
                          lastCategoryUpdate := lastCategoryUpdate c;
                          lastModelUpdate := lastModelUpdate c |};
              requests := requests s' |})
      | None => (None, s')
      end
  end.

(** The three cached reads behind one entry point, to speak about "a read at
    a given time" uniformly. *)
Inductive CachedRead : Type :=
  | ReadCategories
  | ReadModels (category : string)
  | ReadModelDetail (modelId : string).

Inductive Answer : Type :=
  | AList (l : list NamedValue)
  | ADetail (d : option ModelDetail).

Definition endpoint_of (r : CachedRead) : Endpoint :=
  match r with
  | ReadCategories => EpCategories
  | ReadModels c => EpModels c
  | ReadModelDetail m => EpModel m
  end.

Definition cachedRead (remote : Remote) (now later : Z) (r : CachedRead) (s : Session)
  : Answer * Session :=
  match r with
  | ReadCategories =>
      let '(l, s') := getCachedCategories remote now later s in (AList l, s')
  | ReadModels c =>
      let '(l, s') := getCachedModelsByCategory remote now later c s in (AList l, s')
  | ReadModelDetail m =>
      let '(d, s') := getCachedModelDetail remote m s in (ADetail d, s')
  end.

(** ** Schema parser *)

(** [cleanDefaultValue(defaultValue, propName)] *)
Definition cleanDefaultValue (defaultValue : JsValue) (propName : string) : JsValue :=
  if is_nullish defaultValue then defaultValue
  else
    let paramName := toLowerCase propName in
    if includes paramName "image" || includes paramName "video" ||
       includes paramName "audio" || includes paramName "url"
    then JStr ""
    else if includes paramName "prompt" || includes paramName "text" ||
            includes paramName "description"
    then JStr ""
    else defaultValue.

Definition formatDisplayName (propName : string) : string := propName.

(** A declared type that the table [typeMap] of [mapJsonSchemaType] does not
    find on [Object.prototype].  The table is a plain object: for a type
    named like a member of the prototype ([constructor], [toString], ...)
    [typeMap[prop.type]] is that member, a value that is no type name and
    that the descriptors of this development, whose type is a text, cannot
    hold.  [mapJsonSchemaType] below gives the answer of the code for the
    properties with a plain type, and the statements that depend on a
    descriptor type assume it. *)
Definition plainType (prop : SchemaProp) : bool :=
  match prop_type prop with
  | Some t => negb (inheritedKey t)
  | None => true
  end.

(** [typeMap[prop.type] || 'STRING'], after the [enum] test, for a property
    with a plain type. *)
Definition mapJsonSchemaType (prop : SchemaProp) : string :=
  match prop_enum prop with
  | Some _ => "COMBO"
  | None =>
      match prop_type prop with
      | Some "string" => "STRING"
      | Some "number" => "FLOAT"
      | Some "integer" => "INT"
      | Some "boolean" => "BOOLEAN"
      | Some "array" => "STRING"
      | Some "object" => "DICT"
      | _ => "STRING"
      end
  end.

(** [properties[propName]] among the own keys. *)
Fixpoint own_prop (props : list (string * SchemaProp)) (propName : string)
  : option SchemaProp :=
  match props with
  | [] => None
  | (k, v) :: rest => if String.eqb k propName then Some v else own_prop rest propName
  end.

(** What the parser reads of a member of [Object.prototype]: a function (or,
    under [__proto__], the prototype itself) has none of the fields [type],
    [enum], [default], [description], [disabled], [hidden], [minimum],
    [maximum] and [items], so that every one of them reads [undefined]. *)
Definition inheritedMember : SchemaProp :=
  {| prop_type := None; prop_enum := None; prop_default := JUndefined;
     prop_description := None; prop_disabled := JUndefined; prop_hidden := JUndefined;
     prop_minimum := JUndefined; prop_maximum := JUndefined; prop_items := None |}.

(** [properties[propName]]: the own key, else the member of
    [Object.prototype] of that name, else [undefined]. *)
Definition lookup_prop (props : list (string * SchemaProp)) (propName : string)
  : option SchemaProp :=
  match own_prop props propName with
  | Some prop => Some prop
  | None => if inheritedKey propName then Some inheritedMember else None
  end.

(** The test [prop.disabled || prop.hidden] that drops a property. *)
Definition prop_dropped (prop : SchemaProp) : bool :=
  truthy (prop_disabled prop) || truthy (prop_hidden prop).

Definition type_is (prop : SchemaProp) (t : string) : bool :=
  match prop_type prop with
  | Some t' => String.eqb t' t
  | None => false
  end.

(** The body of the loop of [parseModelParameters] for a kept property. *)
Definition makeParam (requiredNames : list string) (propName : string) (prop : SchemaProp)
  : Param :=
  let enum_options :=
    match prop_enum prop with
    | Some (e :: es) => Some (e :: es)
    | _ => None
    end in
  let numeric := type_is prop "number" || type_is prop "integer" in
  {| p_name := propName;
     p_displayName := formatDisplayName propName;
     p_type := match enum_options with
               | Some _ => "COMBO"
               | None => mapJsonSchemaType prop
               end;
     p_required := bool_decide (propName ∈ requiredNames);
     p_default := cleanDefaultValue (prop_default prop) propName;
     p_description := default "" (prop_description prop);
     p_isArray := type_is prop "array";
     p_arrayItems := prop_items prop;
     p_options := enum_options;
     p_min := if numeric then prop_minimum prop else JUndefined;
     p_max := if numeric then prop_maximum prop else JUndefined;
     p_step := if numeric
               then (if type_is prop "integer" then JNum 1 else JNum 0.01)
               else JUndefined |}.

(** [for (const propName of order)]: skip a name that is no property, skip a
    disabled or hidden property, push a descriptor otherwise. *)
Fixpoint parseLoop (props : list (string * SchemaProp)) (requiredNames : list string)
    (order : list string) : list Param :=
  match order with
  | [] => []
  | propName :: rest =>
      match lookup_prop props propName with
      | None => parseLoop props requiredNames rest
      | Some prop =>
          if prop_dropped prop then parseLoop props requiredNames rest
          else makeParam requiredNames propName prop :: parseLoop props requiredNames rest
      end
  end.

(** [inputSchema['x-order-properties'] || Object.keys(properties)] *)
Definition parseOrder (inputSchema : InputSchema) (props : list (string * SchemaProp))
  : list string :=
  match x_order_properties inputSchema with
  | Some order => order
  | None => props.*1
  end.

Definition parseModelParameters (inputSchema : InputSchema) : list Param :=
  match properties inputSchema with
  | None => []
  | Some props =>
      parseLoop props (default [] (required inputSchema)) (parseOrder inputSchema props)
  end.

(** Every property of the schema has a plain type. *)
Definition plainTypes (inputSchema : InputSchema) : Prop :=
  Forall (λ kv, plainType kv.2 = true) (default [] (properties inputSchema)).

(** [shouldCreateInputPort(param)] *)
Definition shouldCreateInputPort (param : Param) : bool :=
  bool_decide (p_type param ∈ ["STRING"; "INT"; "FLOAT"; "BOOLEAN"]).

(** [getInputPortPriority(param)] *)
Definition getInputPortPriority (param : Param) : Z :=
  let paramName := toLowerCase (p_name param) in
  if includes paramName "prompt" || includes paramName "text" ||
     includes paramName "description"
  then 100%Z
  else if includes paramName "seed" || includes paramName "width" ||
          includes paramName "height" || includes paramName "steps" ||
          includes paramName "cfg" || includes paramName "scale" ||
          includes paramName "strength" || includes paramName "guidance"
  then 50%Z
  else 10%Z.

(** ** Objects with ordered keys *)

(** A JavaScript object whose enumeration order is observed: its own keys in
    the order [Object.entries] and [for ... in] visit them. *)
Definition JsObject (V : Type) : Type := list (string * V).

Fixpoint obj_get {V : Type} (o : JsObject V) (k : string) : option V :=
  match o with
  | [] => None
  | (k', v) :: rest => if String.eqb k' k then Some v else obj_get rest k
  end.

(** [o[k] = v]: an existing key keeps its place, a new key goes last. *)
Fixpoint obj_set {V : Type} (o : JsObject V) (k : string) (v : V) : JsObject V :=
  match o with
  | [] => [(k, v)]
  | (k', v') :: rest =>
      if String.eqb k' k then (k', v) :: rest else (k', v') :: obj_set rest k v
  end.

(** ** The node: state, controls and ports *)

(** A slot binding, the value of [paramMapping[paramName]]. *)
Record PlaceholderInfo : Type := {
  placeholder : string;
  pi_type : string;
  originalType : string;
  pi_isArray : bool;
  arrayItemType : option string
}.

(** The three hidden fields; [None] while the storage object is not created.
    [hw_request_json] and [hw_param_map] hold the object that the JSON text
    encodes. *)
Record HiddenWidgets : Type := {
  hw_model_id : option string;
  hw_request_json : option (JsObject JsValue);
  hw_param_map : option (gmap string PlaceholderInfo)
}.

(** [node.wavespeedState].  [nextPlaceholderIndex] starts at 1 and is only
    ever set to a slot index plus one, hence a positive number. *)
Record WavespeedState : Type := {
  modelId : string;
  category : string;
  parameters : list Param;
  parameterValues : JsObject JsValue;
  categoryList : option (list NamedValue);
  isInitialized : bool;
  paramMapping : gmap string PlaceholderInfo;
  usedPlaceholders : gset string;
  nextPlaceholderIndex : positive;
  hiddenWidgets : HiddenWidgets;
  connectedParams : option (gmap string PlaceholderInfo)
}.

(** The change handlers bound to controls, by what they close over. *)
Inductive Callback : Type :=
  | CbHost
  | CbCategory
  | CbModel
  | CbParameter (paramName : string)
  | CbRandomSeed (paramName : string)
  | CbAutoRandom (paramName : string).

(** The [options] object of a control; an absent key is [None] or
    [JUndefined]. *)
Record WidgetOptions : Type := {
  opt_values : option (list JsValue);
  opt_on : option string;
  opt_off : option string;
  opt_precision : JsValue;
  opt_step : JsValue;
  opt_min : JsValue;
  opt_max : JsValue;
  opt_serialize : option bool;
  opt_multiline : bool
}.

Definition no_options : WidgetOptions :=
  {| opt_values := None; opt_on := None; opt_off := None;
     opt_precision := JUndefined; opt_step := JUndefined;
     opt_min := JUndefined; opt_max := JUndefined;
     opt_serialize := None; opt_multiline := false |}.

(** A control.  [w_id] is the identity of the JavaScript object; the
    [w_wavespeed_*] fields are the marker properties the extension attaches;
    [w_input_pair] refers to a port by identity. *)
Record Widget : Type := {
  w_id : nat;
  w_type : string;
  w_name : string;
  w_value : JsValue;
  w_callback : Callback;
  w_options : WidgetOptions;
  w_hidden : bool;
  w_dynamic : bool;
  w_base : bool;
  w_param_name : option string;
  w_param_index : option nat;
  w_required : bool;
  w_is_array : bool;
  w_array_item_type : option string;
  w_seed_button : bool;
  w_input_pair : option nat
}.

(** The [_wavespeed_placeholder] marker of a port: absent, [true] (set on a
    placeholder), or the slot name (set on a visible pseudo-port). *)
Inductive PlaceholderMark : Type :=
  | NoMark
  | MarkTrue
  | MarkSlot (slot : string).

(** A port.  [in_widget_pair] and [in_placeholder_input] refer to a control
    and to a port by identity. *)
Record InputPort : Type := {
  in_name : string;
  in_type : string;
  in_link : option Z;
  in_hidden : bool;
  in_dynamic : bool;
  in_param_name : option string;
  in_widget_pair : option nat;
  in_placeholder : PlaceholderMark;
  in_placeholder_input : option nat
}.

(** An entry of [parameterMetadata]. *)
Record ParameterMetadata : Type := {
  md_isArray : bool;
  md_arrayItemType : string
}.

(** The dynamic state handed to the execution-time rewriter: the
    [_wavespeed_dynamic_state] blob, or the state collected from the live
    node, which also carries [parameterMetadata]. *)
Record DynamicState : Type := {
  ds_modelId : string;
  ds_category : string;
  ds_parameters : list Param;
  ds_parameterValues : JsObject JsValue;
  ds_paramMapping : gmap string PlaceholderInfo;
  ds_parameterMetadata : option (JsObject ParameterMetadata)
}.

(** The [_wavespeed_model_cache] blob. *)
Record ModelCache : Type := {
  mc_modelId : string;
  mc_category : string;
  mc_parameters : list Param;
  mc_parameterValues : JsObject JsValue;
  mc_lastUpdated : Z
}.

(** The node after [nodeCreated] has enhanced it.  [ports] holds every port
    object by identity; [inputs] is the array behind the intercepted
    [node.inputs] accessor ([_actualInputs]); the three [wavespeed_*Inputs]
    arrays are the tracking arrays of the extension. *)
Record Node : Type := {
  wavespeedState : WavespeedState;
  widgets : list Widget;
  widget_count : nat;
  ports : gmap nat InputPort;
  port_count : nat;
  inputs : list nat;
  wavespeed_allInputs : list nat;
  wavespeed_hiddenInputs : list nat;
  wavespeed_originalInputs : list nat;
  categoryWidget : option nat;
  modelWidget : option nat;
  wavespeed_dynamic_state : option DynamicState;
  wavespeed_model_cache : option ModelCache
}.

(** *** Field updates *)

Definition set_hiddenWidgets (f : HiddenWidgets → HiddenWidgets) (st : WavespeedState)
  : WavespeedState :=
  {| modelId := modelId st; category := category st; parameters := parameters st;
     parameterValues := parameterValues st; categoryList := categoryList st;
     isInitialized := isInitialized st; paramMapping := paramMapping st;
     usedPlaceholders := usedPlaceholders st;
     nextPlaceholderIndex := nextPlaceholderIndex st;
     hiddenWidgets := f (hiddenWidgets st); connectedParams := connectedParams st |}.

Definition set_pool (m : gmap string PlaceholderInfo) (u : gset string) (i : positive)
    (st : WavespeedState) : WavespeedState :=
  {| modelId := modelId st; category := category st; parameters := parameters st;
     parameterValues := parameterValues st; categoryList := categoryList st;
     isInitialized := isInitialized st; paramMapping := m;
     usedPlaceholders := u; nextPlaceholderIndex := i;
     hiddenWidgets := hiddenWidgets st; connectedParams := connectedParams st |}.

Definition set_modelId (v : string) (st : WavespeedState) : WavespeedState :=
  {| modelId := v; category := category st; parameters := parameters st;
     parameterValues := parameterValues st; categoryList := categoryList st;
     isInitialized := isInitialized st; paramMapping := paramMapping st;
     usedPlaceholders := usedPlaceholders st;
     nextPlaceholderIndex := nextPlaceholderIndex st;
     hiddenWidgets := hiddenWidgets st; connectedParams := connectedParams st |}.

Definition set_category (v : string) (st : WavespeedState) : WavespeedState :=
  {| modelId := modelId st; category := v; parameters := parameters st;
     parameterValues := parameterValues st; categoryList := categoryList st;
     isInitialized := isInitialized st; paramMapping := paramMapping st;
     usedPlaceholders := usedPlaceholders st;
     nextPlaceholderIndex := nextPlaceholderIndex st;
     hiddenWidgets := hiddenWidgets st; connectedParams := connectedParams st |}.

Definition set_parameters (v : list Param) (st : WavespeedState) : WavespeedState :=
  {| modelId := modelId st; category := category st; parameters := v;
     parameterValues := parameterValues st; categoryList := categoryList st;
     isInitialized := isInitialized st; paramMapping := paramMapping st;
     usedPlaceholders := usedPlaceholders st;
     nextPlaceholderIndex := nextPlaceholderIndex st;
     hiddenWidgets := hiddenWidgets st; connectedParams := connectedParams st |}.

Definition set_parameterValues (v : JsObject JsValue) (st : WavespeedState)
  : WavespeedState :=
  {| modelId := modelId st; category := category st; parameters := parameters st;
     parameterValues := v; categoryList := categoryList st;
     isInitialized := isInitialized st; paramMapping := paramMapping st;
     usedPlaceholders := usedPlaceholders st;
     nextPlaceholderIndex := nextPlaceholderIndex st;
     hiddenWidgets := hiddenWidgets st; connectedParams := connectedParams st |}.

Definition set_categoryList (v : option (list NamedValue)) (st : WavespeedState)
  : WavespeedState :=
  {| modelId := modelId st; category := category st; parameters := parameters st;
     parameterValues := parameterValues st; categoryList := v;
     isInitialized := isInitialized st; paramMapping := paramMapping st;
     usedPlaceholders := usedPlaceholders st;
     nextPlaceholderIndex := nextPlaceholderIndex st;
     hiddenWidgets := hiddenWidgets st; connectedParams := connectedParams st |}.

Definition set_isInitialized (v : bool) (st : WavespeedState) : WavespeedState :=
  {| modelId := modelId st; category := category st; parameters := parameters st;
     parameterValues := parameterValues st; categoryList := categoryList st;
     isInitialized := v; paramMapping := paramMapping st;
     usedPlaceholders := usedPlaceholders st;
     nextPlaceholderIndex := nextPlaceholderIndex st;
     hiddenWidgets := hiddenWidgets st; connectedParams := connectedParams st |}.

Definition set_paramMapping (v : gmap string PlaceholderInfo) (st : WavespeedState)
  : WavespeedState :=
  set_pool v (usedPlaceholders st) (nextPlaceholderIndex st) st.

Definition set_connectedParams (v : option (gmap string PlaceholderInfo))
    (st : WavespeedState) : WavespeedState :=
  {| modelId := modelId st; category := category st; parameters := parameters st;
     parameterValues := parameterValues st; categoryList := categoryList st;
     isInitialized := isInitialized st; paramMapping := paramMapping st;
     usedPlaceholders := usedPlaceholders st;
     nextPlaceholderIndex := nextPlaceholderIndex st;
     hiddenWidgets := hiddenWidgets st; connectedParams := v |}.

(** [node.wavespeedState.x = ...] *)
Definition with_state (f : WavespeedState → WavespeedState) (node : Node) : Node :=
  {| wavespeedState := f (wavespeedState node);
     widgets := widgets node; widget_count := widget_count node;
     ports := ports node; port_count := port_count node; inputs := inputs node;
     wavespeed_allInputs := wavespeed_allInputs node;
     wavespeed_hiddenInputs := wavespeed_hiddenInputs node;
     wavespeed_originalInputs := wavespeed_originalInputs node;
     categoryWidget := categoryWidget node; modelWidget := modelWidget node;
     wavespeed_dynamic_state := wavespeed_dynamic_state node;
     wavespeed_model_cache := wavespeed_model_cache node |}.

(** [node.widgets = ...] and the identity counter. *)
Definition with_widgets (ws : list Widget) (count : nat) (node : Node) : Node :=
  {| wavespeedState := wavespeedState node;
     widgets := ws; widget_count := count;
     ports := ports node; port_count := port_count node; inputs := inputs node;
     wavespeed_allInputs := wavespeed_allInputs node;
     wavespeed_hiddenInputs := wavespeed_hiddenInputs node;
     wavespeed_originalInputs := wavespeed_originalInputs node;
     categoryWidget := categoryWidget node; modelWidget := modelWidget node;
     wavespeed_dynamic_state := wavespeed_dynamic_state node;
     wavespeed_model_cache := wavespeed_model_cache node |}.

Definition with_selectors (c m : option nat) (node : Node) : Node :=
  {| wavespeedState := wavespeedState node;
     widgets := widgets node; widget_count := widget_count node;
     ports := ports node; port_count := port_count node; inputs := inputs node;
     wavespeed_allInputs := wavespeed_allInputs node;
     wavespeed_hiddenInputs := wavespeed_hiddenInputs node;
     wavespeed_originalInputs := wavespeed_originalInputs node;
     categoryWidget := c; modelWidget := m;
     wavespeed_dynamic_state := wavespeed_dynamic_state node;
     wavespeed_model_cache := wavespeed_model_cache node |}.

(** The port heap and the four port arrays. *)
Definition with_ports (h : gmap nat InputPort) (count : nat)
    (visible all hidden : list nat) (node : Node) : Node :=
  {| wavespeedState := wavespeedState node;
     widgets := widgets node; widget_count := widget_count node;
     ports := h; port_count := count; inputs := visible;
     wavespeed_allInputs := all;
     wavespeed_hiddenInputs := hidden;
     wavespeed_originalInputs := wavespeed_originalInputs node;
     categoryWidget := categoryWidget node; modelWidget := modelWidget node;
     wavespeed_dynamic_state := wavespeed_dynamic_state node;
     wavespeed_model_cache := wavespeed_model_cache node |}.

(** A write through a reference to a control: the control of [node.widgets]
    with that identity changes; a control no longer in the list is not
    observed again. *)
Definition modify_widget (id : nat) (f : Widget → Widget) (ws : list Widget)
  : list Widget :=
  (λ w, if w_id w =? id then f w else w) <$> ws.

Definition update_widget (id : nat) (f : Widget → Widget) (node : Node) : Node :=
  with_widgets (modify_widget id f (widgets node)) (widget_count node) node.

Definition update_port (id : nat) (f : InputPort → InputPort) (node : Node) : Node :=
  with_ports (alter f id (ports node)) (port_count node)
    (inputs node) (wavespeed_allInputs node) (wavespeed_hiddenInputs node) node.

(** *** Writes to a control *)

Definition w_set_value (v : JsValue) (w : Widget) : Widget :=
  {| w_id := w_id w; w_type := w_type w; w_name := w_name w; w_value := v;
     w_callback := w_callback w; w_options := w_options w; w_hidden := w_hidden w;
     w_dynamic := w_dynamic w; w_base := w_base w; w_param_name := w_param_name w;
     w_param_index := w_param_index w; w_required := w_required w;
     w_is_array := w_is_array w; w_array_item_type := w_array_item_type w;
     w_seed_button := w_seed_button w; w_input_pair := w_input_pair w |}.

Definition w_set_callback (cb : Callback) (w : Widget) : Widget :=
  {| w_id := w_id w; w_type := w_type w; w_name := w_name w; w_value := w_value w;
     w_callback := cb; w_options := w_options w; w_hidden := w_hidden w;
     w_dynamic := w_dynamic w; w_base := w_base w; w_param_name := w_param_name w;
     w_param_index := w_param_index w; w_required := w_required w;
     w_is_array := w_is_array w; w_array_item_type := w_array_item_type w;
     w_seed_button := w_seed_button w; w_input_pair := w_input_pair w |}.

(** [widget.options.values = values] *)
Definition w_set_values (values : list JsValue) (w : Widget) : Widget :=
  let o := w_options w in
  {| w_id := w_id w; w_type := w_type w; w_name := w_name w; w_value := w_value w;
     w_callback := w_callback w;
     w_options := {| opt_values := Some values; opt_on := opt_on o; opt_off := opt_off o;
                     opt_precision := opt_precision o; opt_step := opt_step o;
                     opt_min := opt_min o; opt_max := opt_max o;
                     opt_serialize := opt_serialize o;
                     opt_multiline := opt_multiline o |};
     w_hidden := w_hidden w;
     w_dynamic := w_dynamic w; w_base := w_base w; w_param_name := w_param_name w;
     w_param_index := w_param_index w; w_required := w_required w;
     w_is_array := w_is_array w; w_array_item_type := w_array_item_type w;
     w_seed_button := w_seed_button w; w_input_pair := w_input_pair w |}.

(** [_wavespeed_dynamic = true; _wavespeed_base = true] *)
Definition w_mark_base (w : Widget) : Widget :=
  {| w_id := w_id w; w_type := w_type w; w_name := w_name w; w_value := w_value w;
     w_callback := w_callback w; w_options := w_options w; w_hidden := w_hidden w;
     w_dynamic := true; w_base := true; w_param_name := w_param_name w;
     w_param_index := w_param_index w; w_required := w_required w;
     w_is_array := w_is_array w; w_array_item_type := w_array_item_type w;
     w_seed_button := w_seed_button w; w_input_pair := w_input_pair w |}.

(** [_wavespeed_dynamic], [_wavespeed_param_name], [_wavespeed_param_index],
    [_wavespeed_required] of a parameter control. *)
Definition w_mark_param (paramName : string) (paramIndex : nat) (req : bool)
    (w : Widget) : Widget :=
  {| w_id := w_id w; w_type := w_type w; w_name := w_name w; w_value := w_value w;
     w_callback := w_callback w; w_options := w_options w; w_hidden := w_hidden w;
     w_dynamic := true; w_base := w_base w; w_param_name := Some paramName;
     w_param_index := Some paramIndex; w_required := req;
     w_is_array := w_is_array w; w_array_item_type := w_array_item_type w;
     w_seed_button := w_seed_button w; w_input_pair := w_input_pair w |}.

(** [_wavespeed_is_array = true; _wavespeed_array_item_type = itemType] *)
Definition w_mark_array (itemType : string) (w : Widget) : Widget :=
  {| w_id := w_id w; w_type := w_type w; w_name := w_name w; w_value := w_value w;
     w_callback := w_callback w; w_options := w_options w; w_hidden := w_hidden w;
     w_dynamic := w_dynamic w; w_base := w_base w; w_param_name := w_param_name w;
     w_param_index := w_param_index w; w_required := w_required w;
     w_is_array := true; w_array_item_type := Some itemType;
     w_seed_button := w_seed_button w; w_input_pair := w_input_pair w |}.

(** The three markers set on a seed button. *)
Definition w_mark_seed_button (paramName : string) (w : Widget) : Widget :=
  {| w_id := w_id w; w_type := w_type w; w_name := w_name w; w_value := w_value w;
     w_callback := w_callback w; w_options := w_options w; w_hidden := w_hidden w;
     w_dynamic := true; w_base := w_base w; w_param_name := Some paramName;
     w_param_index := w_param_index w; w_required := w_required w;
     w_is_array := w_is_array w; w_array_item_type := w_array_item_type w;
     w_seed_button := true; w_input_pair := w_input_pair w |}.

(** [widget._wavespeed_input_pair = port] *)
Definition w_set_input_pair (port : option nat) (w : Widget) : Widget :=
  {| w_id := w_id w; w_type := w_type w; w_name := w_name w; w_value := w_value w;
     w_callback := w_callback w; w_options := w_options w; w_hidden := w_hidden w;
     w_dynamic := w_dynamic w; w_base := w_base w; w_param_name := w_param_name w;
     w_param_index := w_param_index w; w_required := w_required w;
     w_is_array := w_is_array w; w_array_item_type := w_array_item_type w;
     w_seed_button := w_seed_button w; w_input_pair := port |}.

(** *** Writes to a port *)

(** [input.hidden = true; input._wavespeed_placeholder = true] *)
Definition in_hide_placeholder (p : InputPort) : InputPort :=
  {| in_name := in_name p; in_type := in_type p; in_link := in_link p;
     in_hidden := true; in_dynamic := in_dynamic p; in_param_name := in_param_name p;
     in_widget_pair := in_widget_pair p; in_placeholder := MarkTrue;
     in_placeholder_input := in_placeholder_input p |}.

(** [input.link = null], then the two writes above. *)
Definition in_reset_placeholder (p : InputPort) : InputPort :=
  {| in_name := in_name p; in_type := in_type p; in_link := None;
     in_hidden := true; in_dynamic := in_dynamic p; in_param_name := in_param_name p;
     in_widget_pair := in_widget_pair p; in_placeholder := MarkTrue;
     in_placeholder_input := in_placeholder_input p |}.

(** The [Object.assign] that turns an added port into a pseudo-port. *)
Definition in_assign_dynamic (paramName : string) (widget : nat) (slot : string)
    (slotPort : nat) (p : InputPort) : InputPort :=
  {| in_name := in_name p; in_type := in_type p; in_link := in_link p;
     in_hidden := in_hidden p; in_dynamic := true; in_param_name := Some paramName;
     in_widget_pair := Some widget; in_placeholder := MarkSlot slot;
     in_placeholder_input := Some slotPort |}.

(** *** The host's node functions *)

(** [node.addWidget(type, name, value, callback, options)]: the new control
    is pushed on [node.widgets] and returned. *)
Definition addWidget (node : Node) (type name : string) (value : JsValue)
    (callback : Callback) (options : WidgetOptions) : Widget * Node :=
  let w := {| w_id := widget_count node; w_type := type; w_name := name;
              w_value := value; w_callback := callback; w_options := options;
              w_hidden := false; w_dynamic := false; w_base := false;
              w_param_name := None; w_param_index := None; w_required := false;
              w_is_array := false; w_array_item_type := None;
              w_seed_button := false; w_input_pair := None |} in
  (w, with_widgets (widgets node ++ [w]) (S (widget_count node)) node).

(** [ComfyWidgets["STRING"](node, name, ["STRING", {multiline: true, ...}], app)]:
    a multi-line text control of type [customtext], the type that
    [computeSize] of this extension tests for. *)
Definition ComfyWidgets_STRING (node : Node) (name : string) : Widget * Node :=
  addWidget node "customtext" name (JStr "") CbHost
    {| opt_values := None; opt_on := None; opt_off := None;
       opt_precision := JUndefined; opt_step := JUndefined;
       opt_min := JUndefined; opt_max := JUndefined;
       opt_serialize := None; opt_multiline := true |}.

(** [node.addInput(name, type)]: the new port is pushed on [node.inputs] in
    place (the accessor's setter is not involved) and returned. *)
Definition addInput (node : Node) (name type : string) : nat * Node :=
  let id := port_count node in
  let p := {| in_name := name; in_type := type; in_link := None; in_hidden := false;
              in_dynamic := false; in_param_name := None; in_widget_pair := None;
              in_placeholder := NoMark; in_placeholder_input := None |} in
  (id, with_ports (<[id := p]> (ports node)) (S id) (inputs node ++ [id])
         (wavespeed_allInputs node) (wavespeed_hiddenInputs node) node).

(** *** Port visibility *)

Definition port_name (node : Node) (id : nat) : string :=
  match ports node !! id with
  | Some p => in_name p
  | None => ""
  end.

(** [input.name && input.name.startsWith("param_") && input.name.match(/^param_\d+$/)] *)
Definition is_placeholder_port (node : Node) (id : nat) : bool :=
  let name := port_name node id in
  negb (String.eqb name "") && startsWith name "param_" && is_placeholder_name name.

(** [node._updateVisibleInputs()] *)
Definition updateVisibleInputs (node : Node) : Node :=
  let allInputs := inputs node in
  let hiddenInputs := List.filter (is_placeholder_port node) allInputs in
  let visibleInputs := List.filter (λ id, negb (is_placeholder_port node id)) allInputs in
  let heap := foldl (λ h id, alter in_hide_placeholder id h) (ports node) hiddenInputs in
  with_ports heap (port_count node) visibleInputs allInputs hiddenInputs node.

(** The setter of [node.inputs]. *)
Definition set_inputs (newInputs : list nat) (node : Node) : Node :=
  updateVisibleInputs
    (with_ports (ports node) (port_count node) newInputs
       (wavespeed_allInputs node) (wavespeed_hiddenInputs node) node).

(** ** Placeholder pool *)

(** [updateParamMapWidget(node)] *)
Definition updateParamMapWidget (node : Node) : Node :=
  with_state (λ st,
    set_hiddenWidgets (λ hw,
      {| hw_model_id := hw_model_id hw;
         hw_request_json := hw_request_json hw;
         hw_param_map := Some (paramMapping st) |}) st) node.

(** The scan [for (let i = nextPlaceholderIndex; i <= 20; i++)], [fuel]
    being the number of candidates left ([21 - nextPlaceholderIndex] at the
    start, none when the hint is past 20). *)
Fixpoint scanPlaceholders (used : gset string) (i fuel : nat) : option nat :=
  match fuel with
  | O => None
  | S fuel' =>
      if decide (candidateName i ∈ used) then scanPlaceholders used (S i) fuel'
      else Some i
  end.

(** The backend type recorded in a binding. *)
Definition placeholderType (param : Param) : string :=
  if p_isArray param then
    let itemType :=
      match p_arrayItems param with
      | Some {| items_type := Some t |} =>
          if String.eqb (toLowerCase t) "" then "string" else toLowerCase t
      | _ => "string"
      end in
    if String.eqb itemType "number" || String.eqb itemType "integer" ||
       String.eqb itemType "float"
    then "array-int" else "array-str"
  else
    if String.eqb (toLowerCase (p_type param)) "" then "string"
    else toLowerCase (p_type param).

(** A truthy value found under a key of [paramMapping]: a binding, or the
    member of [Object.prototype] that an inherited key finds. *)
Inductive MappingValue : Type :=
  | Binding (info : PlaceholderInfo)
  | PrototypeMember (key : string).

(** [node.wavespeedState.paramMapping[paramName]]; [None] is [undefined]. *)
Definition lookup_mapping (m : gmap string PlaceholderInfo) (paramName : string)
  : option MappingValue :=
  match m !! paramName with
  | Some info => Some (Binding info)
  | None => if inheritedKey paramName then Some (PrototypeMember paramName) else None
  end.

(** [allocatePlaceholder(node, param)]: what the early return finds under
    the name, or the new binding, or [None] for [null]. *)
Definition allocatePlaceholder (node : Node) (param : Param)
  : option MappingValue * Node :=
  let st := wavespeedState node in
  let paramName := p_name param in
  match lookup_mapping (paramMapping st) paramName with
  | Some found => (Some found, node)
  | None =>
      match scanPlaceholders (usedPlaceholders st)
              (Pos.to_nat (nextPlaceholderIndex st))
              (21 - Pos.to_nat (nextPlaceholderIndex st)) with
      | None => (None, node)
      | Some i =>
          let placeholderName := candidateName i in
          let placeholderInfo :=
            {| placeholder := placeholderName;
               pi_type := placeholderType param;
               originalType := p_type param;
               pi_isArray := p_isArray param;
               arrayItemType := match p_arrayItems param with
                                | Some it => items_type it
                                | None => None
                                end |} in
          let node1 :=
            with_state (set_pool (<[paramName := placeholderInfo]> (paramMapping st))
                                 ({[placeholderName]} ∪ usedPlaceholders st)
                                 (Pos.of_succ_nat i)) node in
          (Some (Binding placeholderInfo), updateParamMapWidget node1)
      end
  end.

(** [clearParamMapping(node)] *)
Definition clearParamMapping (node : Node) : Node :=
  updateParamMapWidget (with_state (set_pool ∅ ∅ 1%positive) node).

(** ** Node size *)

(** [(widget.value || "").split('\n').length]; a value that is neither
    falsy nor a text has no [split], and the call throws ([None]). *)
Definition lineCount (v : JsValue) : option Z :=
  match js_or v (JStr "") with
  | JStr s => Some (Z.of_nat (length (js_split (Ascii.ascii_of_nat 10) s)))
  | _ => None
  end.

(** [widgetHeight + widgetMargin] of a control that is not skipped. *)
Definition widgetExtent (widget : Widget) : option Z :=
  let widgetMargin (margin : Z) : Z :=
    if w_is_array widget then (margin + 4)%Z else margin in
  if String.eqb (w_type widget) "customtext" then
    match lineCount (w_value widget) with
    | Some count =>
        let lines := Z.max count 3 in
        Some (Z.max 80 (lines * 22) + widgetMargin 12)%Z
    | None => None
    end
  else if String.eqb (w_type widget) "combo" then Some (32 + widgetMargin 8)%Z
  else if String.eqb (w_type widget) "number" || String.eqb (w_type widget) "text"
  then Some (28 + widgetMargin 8)%Z
  else Some (30 + widgetMargin 8)%Z.

(** [widget.hidden || name is one of the three internal names] *)
Definition skippedBySize (widget : Widget) : bool :=
  w_hidden widget ||
  (String.eqb (w_name widget) "model_id" || String.eqb (w_name widget) "request_json" ||
   String.eqb (w_name widget) "param_map").

(** The loop over [this.widgets], from the vertical position [currentY]. *)
Fixpoint layoutFrom (currentY : Z) (ws : list Widget) : option Z :=
  match ws with
  | [] => Some currentY
  | widget :: rest =>
      if skippedBySize widget then layoutFrom currentY rest
      else
        match widgetExtent widget with
        | Some extent => layoutFrom (currentY + extent)%Z rest
        | None => None
        end
  end.

(** The wrapper of [node.computeSize]; [size] is what the host's
    [computeSize] returned (or [[200, 100]]). *)
Definition computeSize (size : Z * Z) (node : Node) : option (Z * Z) :=
  match widgets node with
  | [] => Some size
  | _ :: _ =>
      match layoutFrom 30 (widgets node) with
      | Some currentY => Some (size.1, (currentY + 15)%Z)
      | None => None
      end
  end.

(** [originalComputeSize ? originalComputeSize.call(this, out) : [200, 100]]
    where this development itself calls [node.computeSize()]: the host's own
    function is not in the sources, and its answer plays no part in whether
    the wrapper throws. *)
Definition fallbackSize : Z * Z := (200, 100)%Z.

(** ** The synchroniser *)

(** [JSON.stringify] inside an array: [undefined] is written [null]. *)
Fixpoint json_element (v : JsValue) : JsValue :=
  match v with
  | JUndefined => JNull
  | JArr items => JArr (List.map json_element items)
  | _ => v
  end.

Definition is_undefined (v : JsValue) : bool :=
  match v with
  | JUndefined => true
  | _ => false
  end.

(** The object that [JSON.stringify(values)] encodes: a key whose value is
    [undefined] is left out. *)
Definition JSON_stringify (values : JsObject JsValue) : JsObject JsValue :=
  List.map (λ kv, (kv.1, json_element kv.2))
    (List.filter (λ kv, negb (is_undefined kv.2)) values).

(** [pairedInput && pairedInput.link] *)
Definition hasInputConnection (node : Node) (widget : Widget) : bool :=
  match w_input_pair widget with
  | Some id =>
      match ports node !! id with
      | Some p =>
          match in_link p with
          | Some l => negb (l =? 0)%Z
          | None => false
          end
      | None => false
      end
  | None => false
  end.

(** A marker string that is set and not empty. *)
Definition truthy_name (o : option string) : bool :=
  match o with
  | Some s => negb (String.eqb s "")
  | None => false
  end.

Section Synchroniser.

(** The host's [parseFloat]; [None] stands for [NaN]. *)
Variable parseFloat : string → option Q.

(** The conversion of the comma-separated text of an array control. *)
Definition convertArrayValue (itemType : string) (value : string) : JsValue :=
  let arrayValue :=
    List.filter (λ item, negb (String.eqb item ""))
      (List.map trim (js_split (Ascii.ascii_of_nat 44) value)) in
  if String.eqb itemType "number" then
    JArr (List.map (λ item, match parseFloat item with
                            | Some num => JNum num
                            | None => JStr item
                            end) arrayValue)
  else JArr (List.map JStr arrayValue).

(** One turn of the loop of [collectParameterValues].  The binding is used
    when it has a [placeholder], which a member of [Object.prototype] has
    not: the lookup among the own keys decides the same. *)
Definition collectWidget (node : Node)
    (acc : JsObject JsValue * gmap string PlaceholderInfo) (widget : Widget)
  : JsObject JsValue * gmap string PlaceholderInfo :=
  let '(widgetValues, connected) := acc in
  match w_param_name widget with
  | None => acc
  | Some paramName =>
      if negb (String.eqb paramName "") && negb (w_hidden widget) then
        if hasInputConnection node widget then
          match paramMapping (wavespeedState node) !! paramName with
          | Some placeholderInfo =>
              if negb (String.eqb (placeholder placeholderInfo) "")
              then (widgetValues, <[paramName := placeholderInfo]> connected)
              else acc
          | None => acc
          end
        else
          let value := w_value widget in
          if negb (is_nullish value) then
            let value :=
              match value with
              | JStr s =>
                  if w_is_array widget && negb (String.eqb (trim s) "") then
                    let itemType :=
                      match w_array_item_type widget with
                      | Some t => if String.eqb t "" then "string" else t
                      | None => "string"
                      end in
                    convertArrayValue itemType s
                  else value
              | _ => value
              end in
            if String.eqb (w_type widget) "string" &&
               match value with
               | JStr s => String.eqb (trim s) ""
               | _ => false
               end
            then
              if w_required widget
              then (obj_set widgetValues paramName value, connected)
              else acc
            else if String.eqb (w_type widget) "boolean" || negb (is_empty_string value)
            then (obj_set widgetValues paramName value, connected)
            else acc
          else if w_required widget
          then (obj_set widgetValues paramName value, connected)
          else acc
      else acc
  end.

(** [collectParameterValues(node)] *)
Definition collectParameterValues (node : Node) : JsObject JsValue * Node :=
  let '(widgetValues, connected) :=
    foldl (collectWidget node) ([], ∅) (widgets node) in
  (widgetValues, with_state (set_connectedParams (Some connected)) node).

(** [collectParameterMetadata(node)] *)
Definition collectParameterMetadata (node : Node) : JsObject ParameterMetadata :=
  foldl (λ metadata widget,
           match w_param_name widget with
           | Some paramName =>
               if negb (String.eqb paramName "") && negb (w_hidden widget) then
                 obj_set metadata paramName
                   {| md_isArray := w_is_array widget;
                      md_arrayItemType :=
                        match w_array_item_type widget with
                        | Some t => if String.eqb t "" then "string" else t
                        | None => "string"
                        end |}
               else metadata
           | None => metadata
           end) [] (widgets node).

(** [updateRequestJsonWidget(node)] *)
Definition updateRequestJsonWidget (node : Node) : Node :=
  let '(values, node1) := collectParameterValues node in
  with_state (λ st,
    set_hiddenWidgets (λ hw,
      {| hw_model_id := hw_model_id hw;
         hw_request_json := Some (JSON_stringify values);
         hw_param_map := hw_param_map hw |}) st) node1.

(** [updateOriginalModelIdWidget(node, modelId)] *)
Definition updateOriginalModelIdWidget (node : Node) (id : string) : Node :=
  with_state (λ st,
    set_hiddenWidgets (λ hw,
      {| hw_model_id := Some id;
         hw_request_json := hw_request_json hw;
         hw_param_map := hw_param_map hw |}) st) node.

(** A write to the control behind a reference, kept in step with the local
    variable that holds the reference. *)
Definition mutate (f : Widget → Widget) (wn : Widget * Node) : Widget * Node :=
  (f wn.1, update_widget (w_id wn.1) f wn.2).

(** [createSeedWidget(node, param, displayName)] *)
Definition createSeedWidget (node : Node) (param : Param) (displayName : string)
  : Widget * Node :=
  let '(widget, node1) :=
    addWidget node "number" displayName (nullish (p_default param) (JNum (-1)))
      (CbParameter (p_name param))
      {| opt_values := None; opt_on := None; opt_off := None;
         opt_precision := JNum 0; opt_step := JNum 1;
         opt_min := JNum (-3); opt_max := JNum 1125899906842624;
         opt_serialize := None; opt_multiline := false |} in
  let button_options :=
    {| opt_values := None; opt_on := None; opt_off := None;
       opt_precision := JUndefined; opt_step := JUndefined;
       opt_min := JUndefined; opt_max := JUndefined;
       opt_serialize := Some false; opt_multiline := false |} in
  let '(randomButton, node2) :=
    addWidget node1 "button" " Random Seed" (JStr "")
      (CbRandomSeed (p_name param)) button_options in
  let '(autoRandomButton, node3) :=
    addWidget node2 "button" " Auto Random" (JStr "")
      (CbAutoRandom (p_name param)) button_options in
  let node4 := update_widget (w_id randomButton)
                 (w_mark_seed_button (p_name param)) node3 in
  let node5 := update_widget (w_id autoRandomButton)
                 (w_mark_seed_button (p_name param)) node4 in
  (widget, node5).

(** [array.find(input => input.name === name)] over an array of ports. *)
Definition find_port (node : Node) (name : string) (ids : list nat) : option nat :=
  List.find (λ id, String.eqb (port_name node id) name) ids.

(** [param.type === 'INT' || param.type === 'FLOAT' ? 'NUMBER' : param.type] *)
Definition portType (param : Param) : string :=
  if String.eqb (p_type param) "INT" || String.eqb (p_type param) "FLOAT"
  then "NUMBER" else p_type param.

(** [createWidgetInputPort(node, widget, param)]: the port created (or
    [None] for [null]), the control as the writes left it, and the node.  A
    member of [Object.prototype] has no [placeholder] field: the four
    searches look for a port whose name is [undefined] and find none. *)
Definition createWidgetInputPort (node : Node) (widget : Widget) (param : Param)
  : option nat * Widget * Node :=
  match allocatePlaceholder node param with
  | (None, node1) => (None, widget, node1)
  | (Some (PrototypeMember _), node1) => (None, widget, node1)
  | (Some (Binding placeholderInfo), node1) =>
      let placeholderName := placeholder placeholderInfo in
      let placeholderInput :=
        match find_port node1 placeholderName (wavespeed_hiddenInputs node1) with
        | Some id => Some id
        | None =>
            match find_port node1 placeholderName (wavespeed_allInputs node1) with
            | Some id => Some id
            | None =>
                match find_port node1 placeholderName
                        (wavespeed_originalInputs node1) with
                | Some id => Some id
                | None => find_port node1 placeholderName (inputs node1)
                end
            end
        end in
      match placeholderInput with
      | None => (None, widget, node1)
      | Some slotPort =>
          let '(addedInput, node2) := addInput node1 (p_name param) (portType param) in
          let node3 :=
            update_port addedInput
              (in_assign_dynamic (p_name param) (w_id widget) placeholderName slotPort)
              node2 in
          let '(widget1, node4) :=
            mutate (w_set_input_pair (Some addedInput)) (widget, node3) in
          (Some addedInput, widget1, node4)
      end
  end.

(** The test of [createParameterWidget] for a multi-line text control. *)
Definition isMultilineParam (param : Param) : bool :=
  let paramName := toLowerCase (p_name param) in
  let description := toLowerCase (p_description param) in
  includes description "prompt" || includes description "text" ||
  includes description "description" || includes paramName "prompt" ||
  includes paramName "description" || includes paramName "text" ||
  includes paramName "instruction" || includes paramName "content" ||
  includes paramName "image" ||
  match p_default param with
  | JStr s => negb (String.eqb s "") && (50 <? String.length s)
  | _ => false
  end.

(** The test [paramName === 'seed' || paramName.includes('seed')]. *)
Definition isSeedParam (param : Param) : bool :=
  let paramName := toLowerCase (p_name param) in
  String.eqb paramName "seed" || includes paramName "seed".

(** [`${param.required ? '* ' : ''}${param.displayName}`] *)
Definition displayNameOf (param : Param) : string :=
  (if p_required param then "* " else "") +:+ p_displayName param.

(** The first part of [createParameterWidget]: the control chosen by the
    name and the type of the parameter. *)
Definition createControl (node : Node) (param : Param) : Widget * Node :=
  let displayName := displayNameOf param in
  let callback := CbParameter (p_name param) in
  if isSeedParam param then createSeedWidget node param displayName
  else if String.eqb (p_type param) "BOOLEAN" then
    addWidget node "toggle" displayName (nullish (p_default param) (JBool false))
      callback
      {| opt_values := None; opt_on := Some "true"; opt_off := Some "false";
         opt_precision := JUndefined; opt_step := JUndefined;
         opt_min := JUndefined; opt_max := JUndefined;
         opt_serialize := None; opt_multiline := false |}
  else if String.eqb (p_type param) "STRING" then
    let isArray := p_isArray param in
    let arrayTooltip := if isArray then " (comma-separated)" else "" in
    let created :=
      if isMultilineParam param || isArray then
        mutate (w_set_callback callback)
          (mutate (w_set_value (js_or (p_default param) (JStr "")))
             (ComfyWidgets_STRING node (displayName +:+ arrayTooltip)))
      else
        addWidget node "text" (displayName +:+ arrayTooltip)
          (js_or (p_default param) (JStr "")) callback no_options in
    if isArray then
      mutate (w_mark_array
                match p_arrayItems param with
                | Some {| items_type := Some t |} =>
                    if String.eqb t "" then "string" else t
                | _ => "string"
                end) created
    else created
  else if String.eqb (p_type param) "COMBO" && bool_decide (is_Some (p_options param)) then
    let options := default [] (p_options param) in
    addWidget node "combo" displayName
      (js_or (p_default param) (js_or (List.hd JUndefined options) (JStr "")))
      callback
      {| opt_values := Some options; opt_on := None; opt_off := None;
         opt_precision := JUndefined; opt_step := JUndefined;
         opt_min := JUndefined; opt_max := JUndefined;
         opt_serialize := None; opt_multiline := false |}
  else if String.eqb (p_type param) "INT" || String.eqb (p_type param) "FLOAT" then
    let isFloat := String.eqb (p_type param) "FLOAT" in
    addWidget node "number" displayName
      (nullish (p_default param) (JNum 0))
      callback
      {| opt_values := None; opt_on := None; opt_off := None;
         opt_precision := if isFloat then JNum 2 else JNum 0;
         opt_step := nullish (p_step param) (if isFloat then JNum 0.01 else JNum 1);
         opt_min := p_min param; opt_max := p_max param;
         opt_serialize := None; opt_multiline := false |}
  else
    addWidget node "text" displayName (js_or (p_default param) (JStr ""))
      callback no_options.

(** [createParameterWidget(node, param, paramIndex)]: the control returned
    and the node. *)
Definition createParameterWidget (node : Node) (param : Param) (paramIndex : nat)
  : option Widget * Node :=
  let '(widget, node1) :=
    mutate (w_mark_param (p_name param) paramIndex (p_required param))
      (createControl node param) in
  if shouldCreateInputPort param then
    let '(_, widget1, node2) := createWidgetInputPort node1 widget param in
    (Some widget1, node2)
  else (Some widget, node1).

(** The comparator of the sort of the parameters that need a port. *)
Definition comparePriority (a b : Param) : Z :=
  let priorityA := getInputPortPriority a in
  let priorityB := getInputPortPriority b in
  if negb (priorityA =? priorityB)%Z then (priorityB - priorityA)%Z
  else if negb (Bool.eqb (p_required a) (p_required b))
  then (if p_required a then (-1)%Z else 1%Z)
  else 0%Z.

(** [Array.prototype.sort] is stable: an element goes before the first
    element it compares strictly below. *)
Fixpoint insertSorted (x : Param) (l : list Param) : list Param :=
  match l with
  | [] => [x]
  | y :: l' =>
      if (comparePriority x y <=? 0)%Z then x :: y :: l'
      else y :: insertSorted x l'
  end.

Definition sortByPriority (l : list Param) : list Param :=
  List.fold_right insertSorted [] l.

(** The order in which controls are built, shared by
    [updateModelParameters] and [restoreParametersFromCache]. *)
Definition sortedParams (params : list Param) : list Param :=
  let requiredParams := List.filter p_required params in
  let optionalParams := List.filter (λ p, negb (p_required p)) params in
  let allParams := (requiredParams ++ optionalParams)%list in
  let paramsNeedingInputs := List.filter shouldCreateInputPort allParams in
  let paramsNotNeedingInputs :=
    List.filter (λ p, negb (shouldCreateInputPort p)) allParams in
  (sortByPriority paramsNeedingInputs ++ paramsNotNeedingInputs)%list.

(** The loop [for (let i = 0; i < sortedParams.length; i++)] of
    [updateModelParameters]. *)
Fixpoint createWidgets (node : Node) (params : list Param) (i : nat) : Node :=
  match params with
  | [] => node
  | param :: rest => createWidgets (createParameterWidget node param i).2 rest (S i)
  end.

(** The same loop in [restoreParametersFromCache], which also restores the
    saved value of each control.  [parameterValues[param.name]] is read among
    the own keys (see the conventions). *)
Fixpoint restoreWidgets (node : Node) (params : list Param) (i : nat) : Node :=
  match params with
  | [] => node
  | param :: rest =>
      let '(widget, node1) := createParameterWidget node param i in
      let node2 :=
        match widget, obj_get (parameterValues (wavespeedState node1)) (p_name param) with
        | Some w, Some v =>
            if is_undefined v then node1 else update_widget (w_id w) (w_set_value v) node1
        | _, _ => node1
        end in
      restoreWidgets node2 rest (S i)
  end.

(** [clearParamMapping] is the last state change of [clearModelParameters],
    after the controls and the ports are reset and the payload recomputed. *)
Definition clearModelParameters (node : Node) : Node :=
  let node1 := with_state (λ st, set_parameterValues [] (set_parameters [] st)) node in
  let baseWidgets :=
    List.filter (λ widget,
      w_base widget ||
      (String.eqb (w_name widget) "Category" || String.eqb (w_name widget) "Model") ||
      (negb (w_dynamic widget) && negb (truthy_name (w_param_name widget)) &&
       negb (w_seed_button widget))) (widgets node1) in
  let node2 := with_widgets baseWidgets (widget_count node1) node1 in
  let node3 := set_inputs [] node2 in
  let placeholderInputs :=
    List.filter (λ id, negb (String.eqb (port_name node3 id) "") &&
                       is_placeholder_name (port_name node3 id))
      (wavespeed_originalInputs node3) in
  let heap := foldl (λ h id, alter in_reset_placeholder id h)
                (ports node3) placeholderInputs in
  let node4 := with_ports heap (port_count node3) (inputs node3)
                 placeholderInputs placeholderInputs node3 in
  let node5 := updateVisibleInputs node4 in
  clearParamMapping (updateRequestJsonWidget node5).

(** [clearModelAndParameters(node)] *)
Definition clearModelAndParameters (node : Node) : Node :=
  let node1 :=
    match modelWidget node with
    | Some id => update_widget id (λ w, w_set_values [JStr ""] (w_set_value (JStr "") w)) node
    | None => node
    end in
  let node2 := with_state (set_modelId "") node1 in
  clearModelParameters (updateOriginalModelIdWidget node2 "").

(** [clearDynamicWidgets(node)] *)
Definition clearDynamicWidgets (node : Node) : Node :=
  with_widgets (List.filter (λ widget, negb (w_dynamic widget)) (widgets node))
    (widget_count node) node.

(** [updateModelParameters(node)], [modelDetail] being the awaited answer of
    [getCachedModelDetail] (read only past the test of the model id, see
    [awaitedModelDetail]).  The size of the node is computed inside the
    [try]: when [computeSize] throws, the [catch] clears the parameters that
    were just built. *)
Definition updateModelParameters (node : Node) (modelDetail : option ModelDetail)
  : Node :=
  if String.eqb (modelId (wavespeedState node)) "" then clearModelParameters node
  else
    match modelDetail with
    | Some {| input_schema := Some schema |} =>
        let params := parseModelParameters schema in
        match params with
        | [] => clearModelParameters node
        | _ :: _ =>
            let node1 := clearModelParameters node in
            let node2 := with_state (set_parameters params) node1 in
            let node3 :=
              updateRequestJsonWidget (createWidgets node2 (sortedParams params) 0) in
            match computeSize fallbackSize node3 with
            | Some _ => node3
            | None => clearModelParameters node3
            end
        end
    | _ => clearModelParameters node
    end.

(** The answer that a call of [updateModelParameters] awaits:
    [getCachedModelDetail] is reached only when a model is selected, so that
    no request is made for the empty id. *)
Definition awaitedModelDetail (remote : Remote) (node : Node) (s : Session)
  : option ModelDetail * Session :=
  if String.eqb (modelId (wavespeedState node)) "" then (None, s)
  else getCachedModelDetail remote (modelId (wavespeedState node)) s.

(** *** Selectors and their handlers *)

(** [getCategoryValue(node)] *)
Definition getCategoryValue (node : Node) : string :=
  let st := wavespeedState node in
  match categoryList st with
  | Some cats =>
      match List.find (λ cat, String.eqb (nv_name cat) (category st)) cats with
      | Some cat => nv_value cat
      | None => category st
      end
  | None => category st
  end.

(** [["", ...list.map(x => x.name)]] *)
Definition selectorValues (l : list NamedValue) : list JsValue :=
  JStr "" :: List.map (λ x, JStr (nv_name x)) l.

Definition selector_options : WidgetOptions :=
  {| opt_values := Some [JStr ""]; opt_on := None; opt_off := None;
     opt_precision := JUndefined; opt_step := JUndefined;
     opt_min := JUndefined; opt_max := JUndefined;
     opt_serialize := None; opt_multiline := false |}.

(** [addCategorySelector(node)], awaited: the control is added, then the
    categories arrive and fill its list. *)
Definition addCategorySelector (remote : Remote) (now : Z) (node : Node) (s : Session)
  : Node * Session :=
  let '(categoryWidget_, node1) :=
    addWidget node "combo" "Category" (JStr "") CbCategory selector_options in
  let node2 := update_widget (w_id categoryWidget_) w_mark_base node1 in
  let node3 := with_selectors (Some (w_id categoryWidget_)) (modelWidget node2) node2 in
  let '(cats, s1) := getCachedCategories remote now now s in
  let node4 := with_state (set_categoryList (Some cats)) node3 in
  (update_widget (w_id categoryWidget_) (w_set_values (selectorValues cats)) node4, s1).

(** [addModelSelector(node)] *)
Definition addModelSelector (node : Node) : Node :=
  let '(modelWidget_, node1) :=
    addWidget node "combo" "Model" (JStr "") CbModel selector_options in
  let node2 := update_widget (w_id modelWidget_) w_mark_base node1 in
  with_selectors (categoryWidget node2) (Some (w_id modelWidget_)) node2.



(** The handler of the model selector, called with the chosen value. *)
Definition onModelChange (remote : Remote) (now : Z) (value : string)
    (node : Node) (s : Session) : Node * Session :=
  if String.eqb value "Loading..." then (node, s)
  else if negb (String.eqb value "") &&
          negb (String.eqb (category (wavespeedState node)) "") then
    let '(models, s1) :=
      getCachedModelsByCategory remote now now (getCategoryValue node) s in
    match List.find (λ m, String.eqb (nv_name m) value) models with
    | Some selectedModel =>
        let previousModelId := modelId (wavespeedState node) in
        let node1 := with_state (set_modelId (nv_value selectedModel)) node in
        let node2 := updateOriginalModelIdWidget node1 (nv_value selectedModel) in
        if negb (String.eqb previousModelId (nv_value selectedModel)) then
          let '(detail, s2) := awaitedModelDetail remote node2 s1 in
          (updateModelParameters node2 detail, s2)
        else (node2, s1)
    | None => (node, s1)
    end
  else
    if negb (String.eqb (modelId (wavespeedState node)) "") then
      let node1 := with_state (set_modelId "") node in
      (clearModelParameters (updateOriginalModelIdWidget node1 ""), s)
    else (node, s).


(** *** Creation, restoration and initialisation *)

(** The state that [nodeCreated] installs. *)
Definition initialState : WavespeedState :=
  {| modelId := ""; category := ""; parameters := []; parameterValues := [];
     categoryList := None; isInitialized := false; paramMapping := ∅;
     usedPlaceholders := ∅; nextPlaceholderIndex := 1%positive;
     hiddenWidgets := {| hw_model_id := None; hw_request_json := None;
                         hw_param_map := None |};
     connectedParams := None |}.

(** The node as the host built it from its declared controls
    ([(type, name, value)]) and ports ([(name, type)]), enhanced by
    [nodeCreated] and [setupPersistentInputHiding]. *)
Definition nodeCreated (hostWidgets : list (string * string * JsValue))
    (hostInputs : list (string * string)) : Node :=
  let empty :=
    {| wavespeedState := initialState; widgets := []; widget_count := 0;
       ports := ∅; port_count := 0; inputs := [];
       wavespeed_allInputs := []; wavespeed_hiddenInputs := [];
       wavespeed_originalInputs := [];
       categoryWidget := None; modelWidget := None;
       wavespeed_dynamic_state := None; wavespeed_model_cache := None |} in
  let node1 :=
    foldl (λ n w, (addWidget n w.1.1 w.1.2 w.2 CbHost no_options).2) empty hostWidgets in
  let node2 := foldl (λ n i, (addInput n i.1 i.2).2) node1 hostInputs in
  {| wavespeedState := wavespeedState node2;
     widgets := widgets node2; widget_count := widget_count node2;
     ports := ports node2; port_count := port_count node2; inputs := inputs node2;
     wavespeed_allInputs := []; wavespeed_hiddenInputs := [];
     wavespeed_originalInputs := inputs node2;
     categoryWidget := None; modelWidget := None;
     wavespeed_dynamic_state := None; wavespeed_model_cache := None |}.

(** The wrapper of [node.configure]: the two blobs of a loaded workflow are
    kept on the node. *)
Definition configure (ds : option DynamicState) (mc : option ModelCache) (node : Node)
  : Node :=
  {| wavespeedState := wavespeedState node;
     widgets := widgets node; widget_count := widget_count node;
     ports := ports node; port_count := port_count node; inputs := inputs node;
     wavespeed_allInputs := wavespeed_allInputs node;
     wavespeed_hiddenInputs := wavespeed_hiddenInputs node;
     wavespeed_originalInputs := wavespeed_originalInputs node;
     categoryWidget := categoryWidget node; modelWidget := modelWidget node;
     wavespeed_dynamic_state :=
       match ds with Some _ => ds | None => wavespeed_dynamic_state node end;
     wavespeed_model_cache :=
       match mc with Some _ => mc | None => wavespeed_model_cache node end |}.

(** The filter of [forceCleanInitialState] that keeps the first port of each
    name. *)
Fixpoint keepFirstByName (node : Node) (seen : gset string) (ids : list nat)
  : list nat :=
  match ids with
  | [] => []
  | id :: rest =>
      let name := port_name node id in
      if String.eqb name "" || is_placeholder_name name
      then id :: keepFirstByName node seen rest
      else if decide (name ∈ seen) then keepFirstByName node seen rest
      else id :: keepFirstByName node ({[name]} ∪ seen) rest
  end.

(** [forceCleanInitialState(node)] *)
Definition forceCleanInitialState (node : Node) : Node :=
  let inputNames :=
    List.map (port_name node)
      (List.filter (λ id, negb (String.eqb (port_name node id) "") &&
                          negb (is_placeholder_name (port_name node id)))
         (inputs node)) in
  if bool_decide (NoDup inputNames) then node
  else set_inputs (keepFirstByName node ∅ (inputs node)) node.

(** The schema that [restoreModelCacheIfAvailable] rebuilds from cached
    parameters. *)
Definition reconstructDetail (params : list Param) : ModelDetail :=
  {| input_schema := Some
       {| properties := Some
            (foldl (λ props param,
                      obj_set props (p_name param)
                        {| prop_type := Some (toLowerCase (p_type param));
                           prop_enum := p_options param;
                           prop_default := p_default param;
                           prop_description := Some (p_description param);
                           prop_disabled := JUndefined;
                           prop_hidden := JUndefined;
                           prop_minimum := JUndefined;
                           prop_maximum := JUndefined;
                           prop_items := None |}) [] params);
          required := Some (List.map p_name (List.filter p_required params));
          x_order_properties := None |} |}.

(** [restoreModelCacheIfAvailable(node)] *)
Definition restoreModelCacheIfAvailable (node : Node) (s : Session)
  : bool * Node * Session :=
  match wavespeed_dynamic_state node with
  | Some dynamicState =>
      (true,
       with_state (λ st,
         set_paramMapping (ds_paramMapping dynamicState)
           (set_parameterValues (ds_parameterValues dynamicState)
              (set_parameters (ds_parameters dynamicState)
                 (set_category (ds_category dynamicState)
                    (set_modelId (ds_modelId dynamicState) st))))) node,
       s)
  | None =>
      match wavespeed_model_cache node with
      | Some mc =>
          let node1 :=
            with_state (λ st,
              set_parameterValues (mc_parameterValues mc)
                (set_parameters (mc_parameters mc)
                   (set_category (mc_category mc)
                      (set_modelId (mc_modelId mc) st)))) node in
          let s1 :=
            if negb (String.eqb (mc_modelId mc) "") &&
               (0 <? length (mc_parameters mc)) then
              let c := cache s in
              {| cache := {| categories := categories c;
                             modelsByCategory := modelsByCategory c;
                             modelDetails :=
                               <[mc_modelId mc := reconstructDetail (mc_parameters mc)]>
                                 (modelDetails c);
                             lastCategoryUpdate := lastCategoryUpdate c;
                             lastModelUpdate := lastModelUpdate c |};
                 requests := requests s |}
            else s in
          (true, node1, s1)
      | None => (false, node, s)
      end
  end.

(** [restoreModelDisplayName(node)] *)
Definition restoreModelDisplayName (remote : Remote) (now : Z) (node : Node)
    (s : Session) : Node * Session :=
  let st := wavespeedState node in
  if String.eqb (category st) "" then (node, s)
  else
    let '(models, s1) :=
      getCachedModelsByCategory remote now now (getCategoryValue node) s in
    match List.find (λ m, String.eqb (nv_value m) (modelId st)) models, modelWidget node with
    | Some model, Some mw =>
        (update_widget mw (λ w, w_set_values (selectorValues models)
                                  (w_set_value (JStr (nv_name model)) w)) node, s1)
    | _, Some mw =>
        match models with
        | _ :: _ => (update_widget mw (w_set_values (selectorValues models)) node, s1)
        | [] => (node, s1)
        end
    | _, None => (node, s1)
    end.

(** [restoreParametersFromCache(node)] *)
Definition restoreParametersFromCache (node : Node) : Node :=
  updateRequestJsonWidget
    (restoreWidgets node (sortedParams (parameters (wavespeedState node))) 0).

(** [initializeWithCachedData(node)] *)
Definition initializeWithCachedData (remote : Remote) (now : Z) (node : Node)
    (s : Session) : Node * Session :=
  let node1 := clearDynamicWidgets node in
  let '(node2, s1) := addCategorySelector remote now node1 s in
  let node3 :=
    match categoryWidget node2 with
    | Some cw =>
        if negb (String.eqb (category (wavespeedState node2)) "")
        then update_widget cw (w_set_value (JStr (category (wavespeedState node2)))) node2
        else node2
    | None => node2
    end in
  let node4 := addModelSelector node3 in
  let '(node5, s2) :=
    match modelWidget node4 with
    | Some _ =>
        if negb (String.eqb (modelId (wavespeedState node4)) "")
        then restoreModelDisplayName remote now node4 s1
        else (node4, s1)
    | None => (node4, s1)
    end in
  if 0 <? length (parameters (wavespeedState node5))
  then (restoreParametersFromCache node5, s2)
  else (node5, s2).

(** The tests of the clean-up pass of [initializeDynamicInterface] on a
    port. *)
Definition port_marked (node : Node) (id : nat) : bool :=
  match ports node !! id with
  | Some p => match in_placeholder p with NoMark => false | _ => true end
  | None => false
  end.

Definition port_dynamic (node : Node) (id : nat) : bool :=
  match ports node !! id with
  | Some p => in_dynamic p
  | None => false
  end.

(** [initializeDynamicInterface(node)] *)
Definition initializeDynamicInterface (remote : Remote) (now : Z) (node : Node)
    (s : Session) : Node * Session :=
  let st := wavespeedState node in
  let hasCachedData :=
    negb (String.eqb (modelId st) "") && (0 <? length (parameters st)) in
  let '(node1, s1) :=
    if hasCachedData then initializeWithCachedData remote now node s
    else
      let '(n, s') := addCategorySelector remote now (clearDynamicWidgets node) s in
      (addModelSelector n, s') in
  let currentInputs := inputs node1 in
  let dynamicInputs :=
    List.filter (λ id, port_dynamic node1 id && negb (port_marked node1 id) &&
                       negb (is_placeholder_name (port_name node1 id)))
      currentInputs in
  let node2 :=
    match dynamicInputs with
    | [] => node1
    | _ :: _ =>
        updateVisibleInputs
          (set_inputs
             (List.filter (λ id, negb (port_dynamic node1 id) || port_marked node1 id ||
                                 is_placeholder_name (port_name node1 id))
                currentInputs) node1)
    end in
  (with_state (set_isInitialized true) node2, s1).

(** ** Execution-time rewriter *)

(** The host's conversion of a number to text, used by [String(item)]. *)
Variable numberToString : Q → string.

(** [Array.prototype.join(',')] on texts. *)
Fixpoint join_comma (l : list string) : string :=
  match l with
  | [] => ""
  | [x] => x
  | x :: rest => x +:+ "," +:+ join_comma rest
  end.

(** [String(item)] *)
Fixpoint js_String (v : JsValue) : string :=
  match v with
  | JUndefined => "undefined"
  | JNull => "null"
  | JBool true => "true"
  | JBool false => "false"
  | JNum q => numberToString q
  | JStr s => s
  | JArr items =>
      join_comma (List.map (λ item, if is_nullish item then "" else js_String item) items)
  end.

(** A value of [nodeData.inputs]: a control value or a connection (an
    array), or one of the two JSON texts of a rewritten node, held as the
    object it encodes. *)
Inductive InputValue : Type :=
  | IvValue (v : JsValue)
  | IvRequestJson (o : JsObject JsValue)
  | IvParamMap (m : gmap string PlaceholderInfo).

(** [Array.isArray(inputValue)] *)
Definition isConnection (v : InputValue) : bool :=
  match v with
  | IvValue (JArr _) => true
  | _ => false
  end.

(** An entry of the prompt output. *)
Record NodeData : Type := {
  nd_inputs : option (JsObject InputValue);
  nd_class_type : string;
  nd_meta_title : option string;
  nd_dynamic_state : option DynamicState
}.

(** The conversion of an array value in [transformDynamicNodeForExecution]. *)
Definition processArrayValue (arrayItemType_ : string) (items : list JsValue) : JsValue :=
  if String.eqb arrayItemType_ "number" then
    JArr (List.map (λ item,
                      match item with
                      | JStr s => match parseFloat s with
                                  | Some num => JNum num
                                  | None => item
                                  end
                      | _ => item
                      end) items)
  else JArr (List.map (λ item, JStr (js_String item)) items).

(** The first loop of [transformDynamicNodeForExecution]. *)
Definition buildRequestJson (dynamicState : DynamicState) : JsObject JsValue :=
  let parameterMetadata := default [] (ds_parameterMetadata dynamicState) in
  foldl (λ requestJson entry,
           let paramName := entry.1 in
           let value := entry.2 in
           let cleanParamName := cleanName paramName in
           let processedValue :=
             match obj_get parameterMetadata paramName, value with
             | Some metadata, JArr items =>
                 if md_isArray metadata
                 then processArrayValue (md_arrayItemType metadata) items
                 else value
             | _, _ => value
             end in
           obj_set requestJson cleanParamName processedValue)
    [] (ds_parameterValues dynamicState).

(** One turn of the loop over [nodeData.inputs].  As in [collectWidget], a
    member of [Object.prototype] has no [placeholder], so that the lookup
    among the own keys decides the same. *)
Definition mapConnection (paramMap : gmap string PlaceholderInfo)
    (transformedInputs : JsObject InputValue) (entry : string * InputValue)
  : JsObject InputValue :=
  let inputName := entry.1 in
  let inputValue := entry.2 in
  if isConnection inputValue then
    if is_placeholder_name inputName then obj_set transformedInputs inputName inputValue
    else
      let cleanInputName := cleanName inputName in
      match paramMap !! cleanInputName with
      | Some placeholderInfo =>
          if negb (String.eqb (placeholder placeholderInfo) "")
          then obj_set transformedInputs (placeholder placeholderInfo) inputValue
          else transformedInputs
      | None => transformedInputs
      end
  else transformedInputs.

(** [transformDynamicNodeForExecution(nodeData, dynamicState)] *)
Definition transformDynamicNodeForExecution (nodeData : NodeData)
    (dynamicState : DynamicState) : NodeData :=
  let requestJson := buildRequestJson dynamicState in
  let paramMap := ds_paramMapping dynamicState in
  let transformedInputs : JsObject InputValue :=
    [("model_id", IvValue (JStr (ds_modelId dynamicState)));
     ("request_json", IvRequestJson (JSON_stringify requestJson));
     ("param_map", IvParamMap paramMap)] in
  {| nd_inputs := Some (foldl (mapConnection paramMap) transformedInputs
                          (default [] (nd_inputs nodeData)));
     nd_class_type := "WaveSpeedAI Task Create";
     nd_meta_title := Some (default "WaveSpeedAI Task Create [WIP]"
                              (nd_meta_title nodeData));
     nd_dynamic_state := None |}.

(** [collectDynamicStateFromGraphNode(nodeId)] on the node found in the
    graph: the state collected, and the node, whose [connectedParams] the
    collection rewrites. *)
Definition collectDynamicStateFromGraphNode (graphNode : Node)
  : option DynamicState * Node :=
  let state := wavespeedState graphNode in
  if String.eqb (modelId state) "" || (length (parameters state) =? 0)
  then (None, graphNode)
  else
    let '(currentParamValues, node1) := collectParameterValues graphNode in
    let finalParamMapping :=
      match connectedParams (wavespeedState node1) with
      | Some connected => connected ∪ paramMapping state
      | None => paramMapping state
      end in
    (Some {| ds_modelId := modelId state;
             ds_category := category state;
             ds_parameters := parameters state;
             ds_parameterValues := currentParamValues;
             ds_paramMapping := finalParamMapping;
             ds_parameterMetadata := Some (collectParameterMetadata node1) |},
     node1).

(** The body of the loop of [transformDynamicNodesForExecution] for one
    entry; [graphNode] is the live node with the entry's id, if any. *)
Definition transformEntry (nodeData : NodeData) (graphNode : option Node)
  : NodeData * option Node :=
  if String.eqb (nd_class_type nodeData) "WaveSpeedAI Task Create" then
    let '(dynamicState, graphNode1) :=
      match nd_dynamic_state nodeData with
      | Some ds => (Some ds, graphNode)
      | None =>
          match graphNode with
          | Some n =>
              let '(ds, n1) := collectDynamicStateFromGraphNode n in (ds, Some n1)
          | None => (None, None)
          end
      end in
    match dynamicState with
    | Some ds =>
        if negb (String.eqb (ds_modelId ds) "")
        then (transformDynamicNodeForExecution nodeData ds, graphNode1)
        else (nodeData, graphNode1)
    | None => (nodeData, graphNode1)
    end
  else (nodeData, graphNode).

End Synchroniser.

(** ** Connection events *)

(** [port.link = link] *)
Definition in_set_link (link : option Z) (p : InputPort) : InputPort :=
  {| in_name := in_name p; in_type := in_type p; in_link := link;
     in_hidden := in_hidden p; in_dynamic := in_dynamic p;
     in_param_name := in_param_name p; in_widget_pair := in_widget_pair p;
     in_placeholder := in_placeholder p;
     in_placeholder_input := in_placeholder_input p |}.

(** The wrapper of [node.onConnectionsChange], after the host's own handler:
    [isInput] stands for [type === LiteGraph.INPUT], [linkInfo] for the id of
    the link object when there is one, [ioSlot] for the port of the event. *)
Definition onConnectionsChange (isInput isConnected : bool) (linkInfo : option Z)
    (ioSlot : option nat) (node : Node) : Node :=
  if isInput then
    match ioSlot with
    | Some slot =>
        match ports node !! slot with
        | Some io =>
            if in_dynamic io then
              match in_placeholder_input io with
              | Some placeholderInput =>
                  update_port placeholderInput
                    (in_set_link (if isConnected then linkInfo else None)) node
              | None => node
              end
            else node
        | None => node
        end
    | None => node
    end
  else node.

(** ** Serialisation *)

(** An entry of [data.inputs]: a port as the host wrote it, or the object
    [{}] that the wrapper creates, with the link the wrapper stores in it. *)
Record SerializedPort : Type := {
  sp_name : option string;
  sp_link : option Z
}.

(** What the wrapper of [node.serialize] returns: the host's [data.inputs]
    (a hole of the array is [None]) and the two blobs. *)
Record Serialized : Type := {
  ser_inputs : list (option SerializedPort);
  ser_dynamic_state : option DynamicState;
  ser_model_cache : option ModelCache
}.

(** [data.inputs[i].link = link], after [if (!data.inputs[i]) data.inputs[i] = {}];
    an index past the end extends the array with holes. *)
Fixpoint storeLink (i : nat) (link : Z) (l : list (option SerializedPort))
  : list (option SerializedPort) :=
  match i, l with
  | O, [] => [Some {| sp_name := None; sp_link := Some link |}]
  | O, None :: rest => Some {| sp_name := None; sp_link := Some link |} :: rest
  | O, Some p :: rest => Some {| sp_name := sp_name p; sp_link := Some link |} :: rest
  | S i', [] => None :: storeLink i' link []
  | S i', x :: rest => x :: storeLink i' link rest
  end.

(** The loop of the wrapper over [_wavespeed_allInputs]. *)
Fixpoint captureLinks (node : Node) (i : nat) (ids : list nat)
    (l : list (option SerializedPort)) : list (option SerializedPort) :=
  match ids with
  | [] => l
  | id :: rest =>
      let l' :=
        match ports node !! id with
        | Some {| in_link := Some link |} =>
            if (link =? 0)%Z then l else storeLink i link l
        | _ => l
        end in
      captureLinks node (S i) rest l'
  end.

(** The wrapper of [node.serialize]; [hostInputs_] is [data.inputs] as the
    host's [serialize] returned it and [now] the reading of the clock. *)
Definition serialize (now : Z) (hostInputs_ : list (option SerializedPort)) (node : Node)
  : Serialized :=
  let st := wavespeedState node in
  {| ser_inputs := captureLinks node 0 (wavespeed_allInputs node) hostInputs_;
     ser_dynamic_state :=
       if negb (String.eqb (modelId st) "") then
         Some {| ds_modelId := modelId st; ds_category := category st;
                 ds_parameters := parameters st;
                 ds_parameterValues := parameterValues st;
                 ds_paramMapping := paramMapping st;
                 ds_parameterMetadata := None |}
       else None;
     ser_model_cache :=
       if negb (String.eqb (modelId st) "") && (0 <? length (parameters st)) then
         Some {| mc_modelId := modelId st; mc_category := category st;
                 mc_parameters := parameters st;
                 mc_parameterValues := parameterValues st;
                 mc_lastUpdated := now |}
       else None |}.

(** ** The rewrite of a whole prompt *)

(** [app.graph.nodes.find(n => n.id == nodeId)], the graph being the live
    nodes by id. *)
Definition findGraphNode (graph : JsObject Node) (nodeId : string) : option Node :=
  obj_get graph nodeId.

(** The live node [nodeId] replaced by [node] (the collection of the dynamic
    state writes [connectedParams] on it). *)
Definition putGraphNode (graph : JsObject Node) (nodeId : string) (node : option Node)
  : JsObject Node :=
  match node, obj_get graph nodeId with
  | Some n, Some _ => obj_set graph nodeId n
  | _, _ => graph
  end.

Section Rewrites.

Variable parseFloat : string → option Q.
Variable numberToString : Q → string.

(** [transformDynamicNodesForExecution(promptOutput)] *)
Fixpoint transformDynamicNodesForExecution (graph : JsObject Node)
    (promptOutput : JsObject NodeData) : JsObject NodeData * JsObject Node :=
  match promptOutput with
  | [] => ([], graph)
  | (nodeId, nodeData) :: rest =>
      let '(transformedNode, graphNode) :=
        transformEntry parseFloat numberToString nodeData (findGraphNode graph nodeId) in
      let '(transformedRest, graph') :=
        transformDynamicNodesForExecution (putGraphNode graph nodeId graphNode) rest in
      ((nodeId, transformedNode) :: transformedRest, graph')
  end.

End Rewrites.

(** * Properties *)

(** ** Placeholder pool *)

Lemma append_inj_r (s a b : string) : s +:+ a = s +:+ b → a = b.
Proof. induction s as [|c s IH]; simpl; [done|]. intros H. injection H. auto. Qed.

Lemma candidateName_inj (i j : nat) : candidateName i = candidateName j → i = j.
Proof. unfold candidateName. intros H. apply append_inj_r in H. by apply (inj pretty). Qed.

Lemma scan_none (used : gset string) (fuel i : nat) :
  (∀ j, i ≤ j < i + fuel → candidateName j ∈ used) →
  scanPlaceholders used i fuel = None.
Proof.
  revert i. induction fuel as [|fuel IH]; intros i H; simpl; [done|].
  destruct (decide (candidateName i ∈ used)) as [_|Hn].
  - apply IH. intros j Hj. apply H. lia.
  - exfalso. apply Hn, H. lia.
Qed.

Lemma scan_none_inv (used : gset string) (fuel i : nat) :
  scanPlaceholders used i fuel = None →
  ∀ j, i ≤ j < i + fuel → candidateName j ∈ used.
Proof.
  revert i. induction fuel as [|fuel IH]; intros i H j Hj; simpl in *; [lia|].
  destruct (decide (candidateName i ∈ used)) as [Hin|Hn]; [|done].
  destruct (decide (j = i)) as [->|Hne]; [done|].
  apply (IH (S i)); [done|lia].
Qed.

Lemma scan_some (used : gset string) (fuel i k : nat) :
  scanPlaceholders used i fuel = Some k →
  (i ≤ k < i + fuel) ∧ (candidateName k ∉ used) ∧
  ∀ j, i ≤ j < k → candidateName j ∈ used.
Proof.
  revert i. induction fuel as [|fuel IH]; intros i H; simpl in *; [done|].
  destruct (decide (candidateName i ∈ used)) as [Hin|Hn].
  - destruct (IH _ H) as (Hk & Hfree & Hlow). split; [lia|]. split; [done|].
    intros j Hj. destruct (decide (j = i)) as [->|Hne]; [done|]. apply Hlow. lia.
  - injection H as <-. split; [lia|]. split; [done|]. intros j Hj. lia.
Qed.

(** The pool of a node: bindings, used slots, hint. *)
Definition pool_of (node : Node)
  : gmap string PlaceholderInfo * gset string * positive :=
  let st := wavespeedState node in
  (paramMapping st, usedPlaceholders st, nextPlaceholderIndex st).

(** Every slot of the 20 is in the used set. *)
Definition poolFull (node : Node) : Prop :=
  Forall (λ i, candidateName i ∈ usedPlaceholders (wavespeedState node)) (seq 1 20).

Lemma poolFull_spec (node : Node) :
  poolFull node ↔
  ∀ j, 1 ≤ j ≤ 20 → candidateName j ∈ usedPlaceholders (wavespeedState node).
Proof.
  unfold poolFull. rewrite Forall_forall. split.
  - intros H j Hj. apply H. apply elem_of_seq. lia.
  - intros H j Hj. apply elem_of_seq in Hj. apply H. lia.
Qed.

Lemma lookup_mapping_own (m : gmap string PlaceholderInfo) (k : string)
    (info : PlaceholderInfo) :
  m !! k = Some info → lookup_mapping m k = Some (Binding info).
Proof. intros H. unfold lookup_mapping. by rewrite H. Qed.

Lemma lookup_mapping_new (m : gmap string PlaceholderInfo) (k : string) :
  m !! k = None → inheritedKey k = false → lookup_mapping m k = None.
Proof. intros H Hk. unfold lookup_mapping. by rewrite H, Hk. Qed.

Lemma lookup_mapping_inherited (m : gmap string PlaceholderInfo) (k : string) :
  m !! k = None → inheritedKey k = true →
  lookup_mapping m k = Some (PrototypeMember k).
Proof. intros H Hk. unfold lookup_mapping. by rewrite H, Hk. Qed.

Lemma lookup_mapping_None (m : gmap string PlaceholderInfo) (k : string) :
  lookup_mapping m k = None → m !! k = None ∧ inheritedKey k = false.
Proof.
  unfold lookup_mapping. destruct (m !! k); [done|].
  by destruct (inheritedKey k).
Qed.

(** The guard of the scan: when every one of the 20 slot names is in the
    used set, allocating for a name under which [paramMapping] finds nothing
    returns [null] and the node is the same node. *)
Lemma allocate_exhausted (node : Node) (param : Param) :
  poolFull node →
  lookup_mapping (paramMapping (wavespeedState node)) (p_name param) = None →
  allocatePlaceholder node param = (None, node).
Proof.
  intros Hfull Hnew. unfold allocatePlaceholder. rewrite Hnew.
  rewrite scan_none; [done|].
  intros j Hj. apply poolFull_spec; [done|]. lia.
Qed.

(** C3.  A parameter name that holds a binding gets that very binding back,
    and the node, hence the pool, is the same node. *)
Theorem allocate_idempotent (node : Node) (param : Param) (binding : PlaceholderInfo) :
  paramMapping (wavespeedState node) !! p_name param = Some binding →
  allocatePlaceholder node param = (Some (Binding binding), node).
Proof.
  intros H. unfold allocatePlaceholder. by rewrite (lookup_mapping_own _ _ _ H).
Qed.

(** A name that [paramMapping] inherits from [Object.prototype] gets the
    inherited member back, whatever the pool holds: no slot is scanned and
    nothing is bound. *)
Lemma allocate_inherited (node : Node) (param : Param) :
  paramMapping (wavespeedState node) !! p_name param = None →
  inheritedKey (p_name param) = true →
  allocatePlaceholder node param = (Some (PrototypeMember (p_name param)), node).
Proof.
  intros H Hk. unfold allocatePlaceholder.
  by rewrite (lookup_mapping_inherited _ _ H Hk).
Qed.

(** A successful call followed by a second call with the same parameter: the
    second returns the binding of the first and changes nothing. *)
Lemma allocate_twice (node node' : Node) (param : Param) (binding : PlaceholderInfo) :
  allocatePlaceholder node param = (Some (Binding binding), node') →
  allocatePlaceholder node' param = (Some (Binding binding), node').
Proof.
  unfold allocatePlaceholder at 1.
  destruct (lookup_mapping _ _) as [found|] eqn:Hm.
  - intros [= -> <-]. unfold allocatePlaceholder. by rewrite Hm.
  - destruct (scanPlaceholders _ _ _) as [i|]; [|done].
    intros [= <- <-]. apply allocate_idempotent. cbn.
    by rewrite lookup_insert_eq.
Qed.

(** A run of [allocatePlaceholder] over parameters. *)
Fixpoint allocateAll (node : Node) (ps : list Param) : Node :=
  match ps with
  | [] => node
  | p :: rest => allocateAll (allocatePlaceholder node p).2 rest
  end.

Definition lowestFree (used : gset string) (i : nat) : Prop :=
  (1 ≤ i ≤ 20) ∧ (candidateName i ∉ used) ∧
  ∀ j, 1 ≤ j < i → candidateName j ∈ used.

(** The slots below the hint, and only they, are used. *)
Definition contiguous (node : Node) : Prop :=
  let st := wavespeedState node in
  ∀ j, 1 ≤ j →
    candidateName j ∈ usedPlaceholders st ↔ j < Pos.to_nat (nextPlaceholderIndex st).

Lemma allocate_pool_congr (n1 n2 : Node) (p : Param) :
  pool_of n1 = pool_of n2 →
  (allocatePlaceholder n1 p).1 = (allocatePlaceholder n2 p).1 ∧
  pool_of (allocatePlaceholder n1 p).2 = pool_of (allocatePlaceholder n2 p).2.
Proof.
  unfold pool_of. intros [= Hm Hu Hn]. unfold allocatePlaceholder.
  rewrite Hm, Hu, Hn.
  destruct (lookup_mapping (paramMapping (wavespeedState n2)) (p_name p)); cbn.
  - by rewrite Hm, Hu, Hn.
  - destruct (scanPlaceholders _ _ _); cbn; by rewrite ?Hm, ?Hu, ?Hn.
Qed.

Lemma allocate_contiguous (node : Node) (p : Param) :
  contiguous node → contiguous (allocatePlaceholder node p).2.
Proof.
  unfold contiguous, allocatePlaceholder. intros Hc.
  destruct (lookup_mapping (paramMapping (wavespeedState node)) (p_name p)); [done|].
  destruct (scanPlaceholders _ _ _) as [i|] eqn:Hs; [|done].
  cbn. apply scan_some in Hs as (Hi & Hfree & Hlow).
  assert (i = Pos.to_nat (nextPlaceholderIndex (wavespeedState node))) as Hi'.
  { destruct (decide (i = Pos.to_nat (nextPlaceholderIndex (wavespeedState node))))
      as [|Hne]; [done|].
    exfalso.
    pose proof (Pos2Nat.is_pos (nextPlaceholderIndex (wavespeedState node))) as Hpos.
    assert (candidateName (Pos.to_nat (nextPlaceholderIndex (wavespeedState node)))
              ∈ usedPlaceholders (wavespeedState node)) as Hin by (apply Hlow; lia).
    apply Hc in Hin; lia. }
  intros j Hj. rewrite SuccNat2Pos.id_succ, elem_of_union, elem_of_singleton.
  rewrite (Hc j Hj). split.
  - intros [Heq|Hlt]; [apply candidateName_inj in Heq|]; lia.
  - intros Hlt. destruct (decide (j = i)) as [->|Hne]; [by left|right; lia].
Qed.

Lemma allocateAll_contiguous (ps : list Param) (node : Node) :
  contiguous node → contiguous (allocateAll node ps).
Proof.
  revert node. induction ps as [|p ps IH]; intros node Hc; simpl; [done|].
  by apply IH, allocate_contiguous.
Qed.

(** What a call returns on a pool whose used slots are those below the
    hint: the binding the name holds, or the lowest free slot; the member
    that an inherited name finds; or [null], when all 20 slots are used. *)
Lemma allocate_lowest_free (node : Node) (p : Param) :
  contiguous node →
  match (allocatePlaceholder node p).1 with
  | Some (Binding info) =>
      paramMapping (wavespeedState node) !! p_name p = Some info ∨
      ∃ i, placeholder info = candidateName i ∧
           lowestFree (usedPlaceholders (wavespeedState node)) i
  | Some (PrototypeMember key) =>
      key = p_name p ∧ inheritedKey key = true ∧
      paramMapping (wavespeedState node) !! key = None
  | None => poolFull node
  end.
Proof.
  intros Hc. unfold allocatePlaceholder, lookup_mapping.
  destruct (paramMapping (wavespeedState node) !! p_name p) as [b|] eqn:Hm;
    [by left|].
  destruct (inheritedKey (p_name p)) eqn:Hk; [done|].
  pose proof (Pos2Nat.is_pos (nextPlaceholderIndex (wavespeedState node))) as Hpos.
  destruct (scanPlaceholders _ _ _) as [i|] eqn:Hs; cbn.
  - right. exists i. split; [done|].
    apply scan_some in Hs as (Hi & Hfree & Hlow).
    split; [lia|]. split; [done|].
    intros j Hj.
    destruct (decide (j < Pos.to_nat (nextPlaceholderIndex (wavespeedState node)))).
    + apply Hc; lia.
    + apply Hlow. lia.
  - apply poolFull_spec. intros j Hj.
    destruct (decide (j < Pos.to_nat (nextPlaceholderIndex (wavespeedState node)))).
    + apply Hc; lia.
    + apply (scan_none_inv _ _ _ Hs). lia.
Qed.

Lemma pool_clearParamMapping (node : Node) :
  pool_of (clearParamMapping node) = (∅, ∅, 1%positive).
Proof. reflexivity. Qed.

Lemma pool_clearModelParameters parseFloat (node : Node) :
  pool_of (clearModelParameters parseFloat node) = (∅, ∅, 1%positive).
Proof. unfold clearModelParameters. apply pool_clearParamMapping. Qed.

Lemma pool_updateRequestJsonWidget parseFloat (node : Node) :
  pool_of (updateRequestJsonWidget parseFloat node) = pool_of node.
Proof.
  unfold updateRequestJsonWidget, collectParameterValues.
  by destruct (foldl _ _ _).
Qed.

(** *** The pool across the other node functions *)

Lemma state_addWidget node t n v c o : wavespeedState (addWidget node t n v c o).2 = wavespeedState node.
Proof. reflexivity. Qed.
Lemma state_mutate f wn : wavespeedState (mutate f wn).2 = wavespeedState wn.2.
Proof. reflexivity. Qed.
Lemma state_createSeedWidget node p d : wavespeedState (createSeedWidget node p d).2 = wavespeedState node.
Proof. reflexivity. Qed.
Lemma state_ComfyWidgets_STRING node n : wavespeedState (ComfyWidgets_STRING node n).2 = wavespeedState node.
Proof. reflexivity. Qed.

Lemma state_createControl (node : Node) (p : Param) :
  wavespeedState (createControl node p).2 = wavespeedState node.
Proof.
  unfold createControl.
  destruct (isSeedParam p); [apply state_createSeedWidget|].
  destruct (String.eqb (p_type p) "BOOLEAN"); [apply state_addWidget|].
  destruct (String.eqb (p_type p) "STRING").
  { destruct (p_isArray p); destruct (isMultilineParam p || _); reflexivity. }
  destruct (_ && _); [apply state_addWidget|].
  destruct (_ || _); apply state_addWidget.
Qed.

Lemma pool_createWidgetInputPort (node : Node) (w : Widget) (p : Param) :
  pool_of (createWidgetInputPort node w p).2 = pool_of (allocatePlaceholder node p).2.
Proof.
  unfold createWidgetInputPort.
  destruct (allocatePlaceholder node p) as [[[info|key]|] node1]; [|done|done].
  destruct (find_port node1 (placeholder info) (wavespeed_hiddenInputs node1)); [done|].
  destruct (find_port node1 (placeholder info) (wavespeed_allInputs node1)); [done|].
  destruct (find_port node1 (placeholder info) (wavespeed_originalInputs node1)); [done|].
  by destruct (find_port node1 (placeholder info) (inputs node1)).
Qed.

Lemma pool_createParameterWidget (node : Node) (p : Param) (i : nat) :
  pool_of (createParameterWidget node p i).2 =
  if shouldCreateInputPort p then pool_of (allocatePlaceholder node p).2
  else pool_of node.
Proof.
  unfold createParameterWidget.
  pose proof (state_createControl node p) as Hst.
  destruct (createControl node p) as [w n1]. simpl in Hst.
  unfold mutate. simpl fst. simpl snd.
  destruct (shouldCreateInputPort p).
  - pose proof (pool_createWidgetInputPort
                  (update_widget (w_id w) (w_mark_param (p_name p) i (p_required p)) n1)
                  (w_mark_param (p_name p) i (p_required p) w) p) as Hp.
    destruct (createWidgetInputPort _ _ _) as [[o w1] n2]. simpl in Hp. simpl snd.
    rewrite Hp. apply allocate_pool_congr. unfold pool_of. simpl. by rewrite Hst.
  - unfold pool_of. simpl. by rewrite Hst.
Qed.

Lemma allocateAll_pool_congr (ps : list Param) (n1 n2 : Node) :
  pool_of n1 = pool_of n2 → pool_of (allocateAll n1 ps) = pool_of (allocateAll n2 ps).
Proof.
  revert n1 n2. induction ps as [|p ps IH]; intros n1 n2 H; simpl; [done|].
  apply IH. by apply allocate_pool_congr.
Qed.

Lemma pool_createWidgets (ps : list Param) (node : Node) (i : nat) :
  pool_of (createWidgets node ps i) =
  pool_of (allocateAll node (List.filter shouldCreateInputPort ps)).
Proof.
  revert node i. induction ps as [|p ps IH]; intros node i; simpl; [done|].
  rewrite IH. pose proof (pool_createParameterWidget node p i) as Hp.
  destruct (shouldCreateInputPort p); simpl; by apply allocateAll_pool_congr.
Qed.

Definition switchedParams (node : Node) (modelDetail : option ModelDetail) : list Param :=
  if String.eqb (modelId (wavespeedState node)) "" then []
  else
    match modelDetail with
    | Some {| input_schema := Some schema |} =>
        List.filter shouldCreateInputPort (sortedParams (parseModelParameters schema))
    | _ => []
    end.

(** The node that [updateModelParameters] has built when it computes the
    size: the old parameters cleared, the descriptors stored, the controls
    created and the payload recomputed. *)
Definition builtParameters (parseFloat : string → option Q) (node : Node)
    (params : list Param) : Node :=
  updateRequestJsonWidget parseFloat
    (createWidgets
       (with_state (set_parameters params) (clearModelParameters parseFloat node))
       (sortedParams params) 0).

Lemma pool_builtParameters parseFloat (node : Node) (params : list Param) :
  pool_of (builtParameters parseFloat node params) =
  pool_of (allocateAll (clearModelParameters parseFloat node)
             (List.filter shouldCreateInputPort (sortedParams params))).
Proof.
  unfold builtParameters.
  rewrite pool_updateRequestJsonWidget, pool_createWidgets.
  apply allocateAll_pool_congr.
  rewrite !pool_clearModelParameters. unfold pool_of. simpl.
  rewrite <- (pool_clearModelParameters parseFloat node).
  reflexivity.
Qed.

(** [updateModelParameters] by cases: past the three early returns the node
    is the built node when its size can be computed, and the built node
    cleared again when [computeSize] throws. *)
Lemma updateModelParameters_cases parseFloat (node : Node)
    (modelDetail : option ModelDetail) :
  updateModelParameters parseFloat node modelDetail =
  if String.eqb (modelId (wavespeedState node)) "" then clearModelParameters parseFloat node
  else
    match modelDetail with
    | Some {| input_schema := Some schema |} =>
        match parseModelParameters schema with
        | [] => clearModelParameters parseFloat node
        | _ :: _ =>
            let built := builtParameters parseFloat node (parseModelParameters schema) in
            match computeSize fallbackSize built with
            | Some _ => built
            | None => clearModelParameters parseFloat built
            end
        end
    | _ => clearModelParameters parseFloat node
    end.
Proof.
  unfold updateModelParameters, builtParameters.
  destruct (String.eqb (modelId (wavespeedState node)) ""); [reflexivity|].
  destruct modelDetail as [[[schema|]]|]; [|reflexivity|reflexivity].
  destruct (parseModelParameters schema) as [|q qs]; reflexivity.
Qed.

(** The pool after [updateModelParameters]: the cleared pool plus the
    allocations for the new parameters, or the cleared pool again when the
    size computation threw. *)
Lemma pool_updateModelParameters parseFloat (node : Node) (detail : option ModelDetail) :
  pool_of (updateModelParameters parseFloat node detail) =
    pool_of (allocateAll (clearModelParameters parseFloat node)
               (switchedParams node detail)) ∨
  pool_of (updateModelParameters parseFloat node detail) = (∅, ∅, 1%positive).
Proof.
  rewrite updateModelParameters_cases. unfold switchedParams.
  destruct (String.eqb (modelId (wavespeedState node)) "");
    [right; apply pool_clearModelParameters|].
  destruct detail as [[[schema|]]|];
    [|right; apply pool_clearModelParameters|right; apply pool_clearModelParameters].
  destruct (parseModelParameters schema) as [|q qs] eqn:Hparse;
    [right; apply pool_clearModelParameters|].
  cbv zeta. destruct (computeSize fallbackSize _).
  - left. apply pool_builtParameters.
  - right. apply pool_clearModelParameters.
Qed.

(** The descriptors that a model detail gives. *)
Definition parsedOf (modelDetail : option ModelDetail) : list Param :=
  match modelDetail with
  | Some {| input_schema := Some schema |} => parseModelParameters schema
  | _ => []
  end.

(** The properties of the model detail have plain types. *)
Definition plainDetail (modelDetail : option ModelDetail) : Prop :=
  match modelDetail with
  | Some {| input_schema := Some schema |} => plainTypes schema
  | _ => True
  end.

(** The call [node.computeSize()] at the end of the [try] of
    [updateModelParameters] returns: no shown multi-line control of the
    built node holds a value that is neither falsy nor a text. *)
Definition sizeComputed (parseFloat : string → option Q) (node : Node)
    (modelDetail : option ModelDetail) : Prop :=
  is_Some (computeSize fallbackSize
             (builtParameters parseFloat node (parsedOf modelDetail))).

Lemma pool_switched parseFloat (node : Node) (detail : option ModelDetail) :
  sizeComputed parseFloat node detail →
  pool_of (updateModelParameters parseFloat node detail) =
  pool_of (allocateAll (clearModelParameters parseFloat node)
             (switchedParams node detail)).
Proof.
  unfold sizeComputed, parsedOf. rewrite updateModelParameters_cases.
  unfold switchedParams.
  destruct (String.eqb (modelId (wavespeedState node)) ""); [reflexivity|].
  destruct detail as [[[schema|]]|]; [|reflexivity|reflexivity].
  destruct (parseModelParameters schema) as [|q qs] eqn:Hparse; [reflexivity|].
  cbv zeta. intros [size Hsize]. rewrite Hsize. apply pool_builtParameters.
Qed.

Lemma allocate_binds_only (node : Node) (p : Param) (name : string) (info : PlaceholderInfo) :
  paramMapping (wavespeedState (allocatePlaceholder node p).2) !! name = Some info →
  paramMapping (wavespeedState node) !! name = Some info ∨ name = p_name p.
Proof.
  unfold allocatePlaceholder.
  destruct (lookup_mapping (paramMapping (wavespeedState node)) (p_name p)); [by left|].
  destruct (scanPlaceholders _ _ _); [|by left].
  simpl. destruct (decide (p_name p = name)) as [<-|Hne]; [by right|].
  rewrite lookup_insert_ne by done. by left.
Qed.

Lemma allocateAll_binds_only (ps : list Param) (node : Node) (name : string)
    (info : PlaceholderInfo) :
  paramMapping (wavespeedState (allocateAll node ps)) !! name = Some info →
  paramMapping (wavespeedState node) !! name = Some info ∨
  ∃ p, p ∈ ps ∧ p_name p = name.
Proof.
  revert node. induction ps as [|p ps IH]; intros node H; simpl in H; [by left|].
  apply IH in H as [H|(q & Hq & Hn)].
  - apply allocate_binds_only in H as [H| ->]; [by left|].
    right. exists p. split; [apply list_elem_of_here|done].
  - right. exists q. split; [by apply list_elem_of_further|done].
Qed.

Lemma pool_of_eq (n : Node) m u i :
  pool_of n = (m, u, i) →
  paramMapping (wavespeedState n) = m ∧ usedPlaceholders (wavespeedState n) = u ∧
  nextPlaceholderIndex (wavespeedState n) = i.
Proof. unfold pool_of. by intros [= ? ? ?]. Qed.

Lemma contiguous_of_pool (n : Node) :
  pool_of n = (∅, ∅, 1%positive) → contiguous n.
Proof.
  unfold pool_of, contiguous. intros [= _ Hu Hn] j Hj. rewrite Hu, Hn.
  split; [by intros ?%not_elem_of_empty|]. simpl. lia.
Qed.

(** The release of the slots.  Clearing the parameters (which every path of
    a model switch and of a category change does) leaves no binding, no used
    slot and the hint at slot 1; the pool after a switch is the cleared pool
    plus the allocations for the new model's parameters, or the cleared pool
    when the size computation threw; the first allocation after the clear
    gets [param_1], for a name that is no key of [Object.prototype]; every
    binding present later belongs to a parameter allocated since the clear;
    and every later allocation returns the binding made since the clear, or
    the lowest free slot, or the member that an inherited name finds, or
    [null] when all 20 are used. *)
Lemma model_switch_resets_pool (parseFloat : string → option Q) (node : Node) :
  let cleared := clearModelParameters parseFloat node in
  pool_of cleared = (∅, ∅, 1%positive) ∧
  pool_of (clearModelAndParameters parseFloat node) = (∅, ∅, 1%positive) ∧
  (∀ detail, pool_of (updateModelParameters parseFloat node detail) =
               pool_of (allocateAll cleared (switchedParams node detail)) ∨
             pool_of (updateModelParameters parseFloat node detail) = (∅, ∅, 1%positive)) ∧
  (∀ p, inheritedKey (p_name p) = false →
        ∃ info, (allocatePlaceholder cleared p).1 = Some (Binding info) ∧
                placeholder info = "param_1") ∧
  (∀ ps name info,
     paramMapping (wavespeedState (allocateAll cleared ps)) !! name = Some info →
     ∃ p, p ∈ ps ∧ p_name p = name) ∧
  (∀ ps p,
     match (allocatePlaceholder (allocateAll cleared ps) p).1 with
     | Some (Binding info) =>
         paramMapping (wavespeedState (allocateAll cleared ps)) !! p_name p = Some info ∨
         ∃ i, placeholder info = candidateName i ∧
              lowestFree (usedPlaceholders (wavespeedState (allocateAll cleared ps))) i
     | Some (PrototypeMember key) =>
         key = p_name p ∧ inheritedKey key = true ∧
         paramMapping (wavespeedState (allocateAll cleared ps)) !! key = None
     | None => poolFull (allocateAll cleared ps)
     end).
Proof.
  intros cleared.
  pose proof (pool_clearModelParameters parseFloat node) as Hpool.
  fold cleared in Hpool.
  split; [exact Hpool|].
  split; [apply pool_clearModelParameters|].
  split; [intros detail; apply pool_updateModelParameters|].
  split.
  { intros p Hk. destruct (pool_of_eq _ _ _ _ Hpool) as (Hm & Hu & Hn).
    unfold allocatePlaceholder, lookup_mapping. rewrite Hm, Hu, Hn, lookup_empty, Hk.
    simpl. eexists. split; reflexivity. }
  split.
  { intros ps name info H. apply allocateAll_binds_only in H as [H|H]; [|done].
    destruct (pool_of_eq _ _ _ _ Hpool) as (Hm & _ & _).
    rewrite Hm, lookup_empty in H. discriminate. }
  intros ps p. apply allocate_lowest_free, allocateAll_contiguous.
  by apply contiguous_of_pool.
Qed.

(** ** Schema parser *)






Lemma own_prop_elem props k v :
  NoDup props.*1 → (k, v) ∈ props → own_prop props k = Some v.
Proof.
  induction props as [|[k' v'] props IH]; simpl; intros Hnd Hin.
  - by apply elem_of_nil in Hin.
  - apply NoDup_cons in Hnd as [Hk' Hnd].
    apply elem_of_cons in Hin as [[= -> ->]|Hin].
    + by rewrite String.eqb_refl.
    + destruct (String.eqb_spec k' k) as [->|Hne]; [|by apply IH].
      exfalso. apply Hk'. apply list_elem_of_fmap. by exists (k, v).
Qed.

Lemma own_prop_Some props k v :
  own_prop props k = Some v → (k, v) ∈ props.
Proof.
  induction props as [|[k' v'] props IH]; simpl; [done|].
  destruct (String.eqb_spec k' k) as [->|Hne].
  - intros [= ->]. apply list_elem_of_here.
  - intros H. apply list_elem_of_further. by apply IH.
Qed.

Lemma own_prop_None props k : own_prop props k = None → k ∉ props.*1.
Proof.
  induction props as [|[k' v'] props IH]; simpl.
  { intros _. apply not_elem_of_nil. }
  destruct (String.eqb_spec k' k) as [->|Hne]; [done|].
  intros H Hin. apply elem_of_cons in Hin as [Heq|Hin]; [by subst|]. by apply IH.
Qed.

Lemma lookup_prop_elem props k v :
  NoDup props.*1 → (k, v) ∈ props → lookup_prop props k = Some v.
Proof.
  intros Hnd Hin. unfold lookup_prop. by rewrite (own_prop_elem _ _ _ Hnd Hin).
Qed.

(** What [properties[propName]] finds is a declared property, or the member
    that an undeclared key of [Object.prototype] inherits. *)
Lemma lookup_prop_Some props k v :
  lookup_prop props k = Some v →
  (k, v) ∈ props ∨ (¬ (k ∈ props.*1) ∧ inheritedKey k = true ∧ v = inheritedMember).
Proof.
  unfold lookup_prop. destruct (own_prop props k) as [prop|] eqn:Ho.
  - intros [= <-]. left. by apply own_prop_Some.
  - destruct (inheritedKey k); [|done]. intros [= <-]. right.
    split; [by apply own_prop_None|done].
Qed.




Lemma NoDup_filter_std {A} (f : A → bool) (l : list A) :
  NoDup l → NoDup (List.filter f l).
Proof.
  induction 1 as [|x l Hx Hnd IH]; simpl; [constructor|].
  destruct (f x); [|done]. constructor; [|done].
  intros Hin. apply Hx. apply list_elem_of_In in Hin. apply filter_In in Hin as [Hin _].
  by apply list_elem_of_In.
Qed.









(** A property with a type and a default and nothing else. *)
Definition plainProp (type_ : string) (default_ : JsValue) : SchemaProp :=
  {| prop_type := Some type_; prop_enum := None; prop_default := default_;
     prop_description := None; prop_disabled := JUndefined; prop_hidden := JUndefined;
     prop_minimum := JUndefined; prop_maximum := JUndefined; prop_items := None |}.

(** Two visible properties and an ordering hint that lists one of them. *)
Definition hintOmitsSchema : InputSchema :=
  {| properties := Some [("prompt", plainProp "string" JUndefined);
                         ("steps", plainProp "integer" (JNum 20))];
     required := Some ["prompt"];
     x_order_properties := Some ["prompt"] |}.

(** The schema of the scenario of the specification, without a hint. *)
Definition scenarioSchema : InputSchema :=
  {| properties := Some [("prompt", plainProp "string" JUndefined);
                         ("seed", plainProp "integer" (JNum (-1)));
                         ("width", plainProp "integer" (JNum 512))];
     required := Some ["prompt"];
     x_order_properties := None |}.




(** ** Schema cache *)

(** C8, amended.  The category list and the model list of a category are
    memoised with the shared 5-minute expiry: a read later than that after
    the entry was stored asks the remote service again and stores the answer
    with the new time, an earlier read returns the cached list and asks
    nothing.  A cached model detail carries no time: it is returned, and
    nothing is asked, whatever the clock says. *)
Theorem cache_expiry_per_read (remote : Remote) (now later : Z) (s : Session) :
  (∀ cached, categories (cache s) = Some cached →
     ((now - lastCategoryUpdate (cache s) > cacheExpiry)%Z →
        ∃ s', getCachedCategories remote now later s = (getModelCategories remote, s') ∧
              requests s' = (requests s ++ [EpCategories])%list ∧
              categories (cache s') = Some (getModelCategories remote) ∧
              lastCategoryUpdate (cache s') = later) ∧
     ((now - lastCategoryUpdate (cache s) ≤ cacheExpiry)%Z →
        getCachedCategories remote now later s = (cached, s))) ∧
  (∀ category_ cached stored,
     modelsByCategory (cache s) !! category_ = Some cached →
     lastModelUpdate (cache s) !! category_ = Some stored →
     ((now - stored > cacheExpiry)%Z →
        ∃ s', getCachedModelsByCategory remote now later category_ s =
                (getModelsByCategory remote category_, s') ∧
              requests s' = (requests s ++ [EpModels category_])%list ∧
              modelsByCategory (cache s') !! category_ =
                Some (getModelsByCategory remote category_) ∧
              lastModelUpdate (cache s') !! category_ = Some later) ∧
     ((now - stored ≤ cacheExpiry)%Z →
        getCachedModelsByCategory remote now later category_ s = (cached, s))) ∧
  (∀ modelId_ cached,
     modelDetails (cache s) !! modelId_ = Some cached →
     getCachedModelDetail remote modelId_ s = (Some cached, s)).
Proof.
  split; [|split].
  - intros cached Hc. unfold getCachedCategories, isCacheExpired. rewrite Hc. split.
    + intros Hexp. rewrite (proj2 (Z.gtb_gt _ _)) by lia. eexists. split; [reflexivity|].
      simpl. auto.
    + intros Hfresh. destruct (Z.gtb_spec (now - lastCategoryUpdate (cache s)) cacheExpiry);
        [lia|reflexivity].
  - intros category_ cached stored Hc Ht.
    unfold getCachedModelsByCategory, isCacheExpired. rewrite Hc, Ht. simpl. split.
    + intros Hexp. rewrite (proj2 (Z.gtb_gt _ _)) by lia. eexists. split; [reflexivity|].
      simpl. rewrite !lookup_insert_eq. auto.
    + intros Hfresh. destruct (Z.gtb_spec (now - stored) cacheExpiry); [lia|reflexivity].
  - intros modelId_ cached Hc. unfold getCachedModelDetail. by rewrite Hc.
Qed.

(** A remote whose model ["m"] has the given schema. *)
Definition remoteWith (schema : InputSchema) : Remote :=
  {| getModelCategories := [{| nv_name := "Image"; nv_value := "image" |}];
     getModelsByCategory := λ _, [{| nv_name := "Model M"; nv_value := "m" |}];
     getModelDetail := λ _, Some {| input_schema := Some schema |} |}.

Definition emptySession : Session := {| cache := GLOBAL_CACHE; requests := [] |}.

(** The session after the three reads at time 0. *)
Definition warmSession : Session :=
  (cachedRead (remoteWith scenarioSchema) 0 0 (ReadModelDetail "m")
     (cachedRead (remoteWith scenarioSchema) 0 0 (ReadModels "image")
        (cachedRead (remoteWith scenarioSchema) 0 0 ReadCategories emptySession).2).2).2.

(** C8 as stated fails for the model detail: read again more than five
    minutes after it was stored, while the remote service now answers another
    schema, the cached detail comes back and no request is sent. *)
Lemma detail_not_refetched_counterexample :
  let later := (cacheExpiry + 1)%Z in
  let read := cachedRead (remoteWith hintOmitsSchema) later later (ReadModelDetail "m")
                warmSession in
  read.1 = ADetail (Some {| input_schema := Some scenarioSchema |}) ∧
  getModelDetail (remoteWith hintOmitsSchema) "m" =
    Some {| input_schema := Some hintOmitsSchema |} ∧
  requests read.2 = requests warmSession.
Proof. vm_compute. auto. Qed.

Lemma cache_expiry_per_read_witness :
  (cachedRead (remoteWith hintOmitsSchema) (cacheExpiry + 1) (cacheExpiry + 2)
     ReadCategories warmSession).1 = AList (getModelCategories (remoteWith hintOmitsSchema)).
Proof.
  pose proof (cache_expiry_per_read (remoteWith hintOmitsSchema)
                (cacheExpiry + 1) (cacheExpiry + 2) warmSession) as (Hcat & _ & _).
  destruct (Hcat [{| nv_name := "Image"; nv_value := "image" |}] eq_refl) as [Hexp _].
  destruct Hexp as (s' & Heq & _); [vm_compute; reflexivity|].
  unfold cachedRead. rewrite Heq. reflexivity.
Defined.

(** ** Controls *)

(** What the user sees of a control: type, name, value and options. *)
Definition face (w : Widget) : string * string * JsValue * WidgetOptions :=
  (w_type w, w_name w, w_value w, w_options w).

Lemma createWidgetInputPort_widget (node : Node) (w : Widget) (p : Param) :
  (createWidgetInputPort node w p).1.2 = w ∨
  ∃ port, (createWidgetInputPort node w p).1.2 = w_set_input_pair (Some port) w.
Proof.
  unfold createWidgetInputPort.
  destruct (allocatePlaceholder node p) as [[[info|key]|] node1]; [|by left|by left].
  destruct (find_port node1 (placeholder info) (wavespeed_hiddenInputs node1));
    [right; eexists; reflexivity|].
  destruct (find_port node1 (placeholder info) (wavespeed_allInputs node1));
    [right; eexists; reflexivity|].
  destruct (find_port node1 (placeholder info) (wavespeed_originalInputs node1));
    [right; eexists; reflexivity|].
  destruct (find_port node1 (placeholder info) (inputs node1));
    [right; eexists; reflexivity|by left].
Qed.

Lemma createParameterWidget_face (node : Node) (p : Param) (i : nat) :
  ∃ w, (createParameterWidget node p i).1 = Some w ∧
       face w = face (createControl node p).1 ∧
       w_id w = w_id (createControl node p).1 ∧
       w_param_name w = Some (p_name p) ∧
       w_required w = p_required p ∧
       w_dynamic w = true.
Proof.
  unfold createParameterWidget.
  destruct (createControl node p) as [w0 n0]. unfold mutate. simpl fst. simpl snd.
  destruct (shouldCreateInputPort p).
  - pose proof (createWidgetInputPort_widget
                  (update_widget (w_id w0) (w_mark_param (p_name p) i (p_required p)) n0)
                  (w_mark_param (p_name p) i (p_required p) w0) p) as H.
    destruct (createWidgetInputPort _ _ _) as [[o w1] n2]. simpl in H. simpl.
    exists w1. split; [done|]. destruct H as [->|[port ->]]; done.
  - simpl. eexists. split; [reflexivity|]. done.
Qed.

(** *** Concrete nodes *)

(** The controls and the ports the backend declares for the node: the three
    hidden fields and the 20 placeholder ports. *)
Definition hostWidgets : list (string * string * JsValue) :=
  [("text", "model_id", JStr ""); ("text", "request_json", JStr "{}");
   ("text", "param_map", JStr "{}")].

Definition hostInputs : list (string * string) :=
  List.map (λ i, (candidateName i, "*")) (seq 1 20).

(** A node at the time its initialisation starts: created, cleaned, and its
    placeholder ports hidden. *)
Definition freshNode : Node :=
  updateVisibleInputs (forceCleanInitialState (nodeCreated hostWidgets hostInputs)).

(** An integer [seed] property that declares its own range. *)
Definition seedParam : Param :=
  makeParam [] "seed"
    {| prop_type := Some "integer"; prop_enum := None; prop_default := JUndefined;
       prop_description := None; prop_disabled := JUndefined; prop_hidden := JUndefined;
       prop_minimum := JNum 0; prop_maximum := JNum 100; prop_items := None |}.

(** A string parameter named [name]. *)
Definition stringParam (name : string) : Param :=
  makeParam [] name (plainProp "string" JUndefined).

(** Twenty wire-eligible parameters [p1] ... [p20]. *)
Definition twentyParams : list Param :=
  List.map (λ i, stringParam ("p" +:+ pretty i)) (seq 1 20).

(** The node after the twenty allocations. *)
Definition fullNode : Node := allocateAll freshNode twentyParams.

Lemma allocate_idempotent_witness :
  allocatePlaceholder fullNode (stringParam "p7") =
    (Some (Binding {| placeholder := "param_7"; pi_type := "string";
                      originalType := "STRING"; pi_isArray := false;
                      arrayItemType := None |}), fullNode).
Proof. apply allocate_idempotent. vm_compute. reflexivity. Defined.

(** ** Payload of the unwired parameters *)

Lemma createControl_type (node : Node) (p : Param) :
  w_type (createControl node p).1 ∈ ["number"; "toggle"; "customtext"; "text"; "combo"].
Proof.
  unfold createControl.
  destruct (isSeedParam p); [set_solver|].
  destruct (String.eqb (p_type p) "BOOLEAN"); [set_solver|].
  destruct (String.eqb (p_type p) "STRING").
  { destruct (p_isArray p); destruct (isMultilineParam p || _); simpl; set_solver. }
  destruct (_ && _); [set_solver|].
  destruct (_ || _); set_solver.
Qed.

(** No control that [createParameterWidget] returns has the type ["string"]
    or ["boolean"] that [collectParameterValues] tests for. *)
Lemma created_control_type (node : Node) (p : Param) (i : nat) (w : Widget) :
  (createParameterWidget node p i).1 = Some w →
  w_type w ≠ "string" ∧ w_type w ≠ "boolean".
Proof.
  intros Hw. destruct (createParameterWidget_face node p i) as (w' & Hw' & Hface & _).
  rewrite Hw in Hw'. injection Hw' as <-.
  assert (w_type w = w_type (createControl node p).1) as ->.
  { unfold face in Hface. by injection Hface. }
  pose proof (createControl_type node p) as Hin.
  split; intros Heq; rewrite Heq in Hin;
    repeat (apply elem_of_cons in Hin as [Hin|Hin]; [discriminate|]);
    by apply elem_of_nil in Hin.
Qed.

(** An unwired control whose type is neither ["string"] nor ["boolean"] and
    whose value is the empty text contributes no entry, required or not. *)
Lemma empty_text_dropped parseFloat (node : Node)
    (acc : JsObject JsValue * gmap string PlaceholderInfo) (w : Widget) :
  w_type w ≠ "string" → w_type w ≠ "boolean" → w_value w = JStr "" →
  hasInputConnection node w = false →
  collectWidget parseFloat node acc w = acc.
Proof.
  intros Hs Hb Hv Hc. unfold collectWidget. destruct acc as [vals conn].
  destruct (w_param_name w) as [name|]; [|done].
  destruct (negb (String.eqb name "") && negb (w_hidden w)); [|done].
  rewrite Hc, Hv. simpl.
  destruct (String.eqb_spec (w_type w) "string"); [done|].
  destruct (String.eqb_spec (w_type w) "boolean"); [done|].
  rewrite andb_false_r. simpl. done.
Qed.

(** A schema with one required text property that has no default. *)
Definition styleSchema : InputSchema :=
  {| properties := Some [("style", plainProp "string" JUndefined)];
     required := Some ["style"];
     x_order_properties := None |}.

(** The node after the model of [schema] is selected on a fresh node. *)
Definition selectedNode (parseFloat : string → option Q) (schema : InputSchema) : Node :=
  updateModelParameters parseFloat (with_state (set_modelId "m") freshNode)
    (Some {| input_schema := Some schema |}).

(** C6 at the failing input: the required parameter [style] gets a
    single-line text control with the empty value, and the collected values
    and the [request_json] text have no entry for it. *)
Theorem required_empty_text_has_no_entry (parseFloat : string → option Q) :
  let node := selectedNode parseFloat styleSchema in
  List.map (λ w, (w_type w, w_name w, w_value w, w_required w))
    (List.filter (λ w, truthy_name (w_param_name w)) (widgets node)) =
    [("text", "* style", JStr "", true)] ∧
  obj_get (collectParameterValues parseFloat node).1 "style" = None ∧
  hw_request_json (hiddenWidgets (wavespeedState node)) = Some [].
Proof. vm_compute. auto. Qed.

(** An array property whose items are integers. *)
Definition sizesSchema : InputSchema :=
  {| properties := Some
       [("sizes",
         {| prop_type := Some "array"; prop_enum := None; prop_default := JUndefined;
            prop_description := None; prop_disabled := JUndefined;
            prop_hidden := JUndefined; prop_minimum := JUndefined;
            prop_maximum := JUndefined;
            prop_items := Some {| items_type := Some "integer" |} |})];
     required := None;
     x_order_properties := None |}.

(** A saved workflow in which the text of [sizes] is ["1, 2, 3"]. *)
Definition sizesState : DynamicState :=
  {| ds_modelId := "m"; ds_category := "Image";
     ds_parameters := parseModelParameters sizesSchema;
     ds_parameterValues := [("sizes", JStr "1, 2, 3")];
     ds_paramMapping := ∅;
     ds_parameterMetadata := None |}.

(** The node of that workflow once restored and initialised. *)
Definition restoredNode (parseFloat : string → option Q) (ds : DynamicState) : Node :=
  let '(_, node1, s1) :=
    restoreModelCacheIfAvailable (configure (Some ds) None freshNode) emptySession in
  (initializeDynamicInterface parseFloat (remoteWith sizesSchema) 0 node1 s1).1.

(** The entry of that node in a prompt, before the rewrite. *)
Definition dynamicEntry : NodeData :=
  {| nd_inputs := Some []; nd_class_type := "WaveSpeedAI Task Create";
     nd_meta_title := None; nd_dynamic_state := None |}.

(** C5 at the failing input: the items of an integer array stay texts in the
    [request_json] text of the node and in the execution payload, while the
    binding of the same parameter declares the backend type [array-int]. *)
Theorem integer_array_items_stay_text (parseFloat : string → option Q)
    (numberToString : Q → string) :
  let node := restoredNode parseFloat sizesState in
  hw_request_json (hiddenWidgets (wavespeedState node)) =
    Some [("sizes", JArr [JStr "1"; JStr "2"; JStr "3"])] ∧
  (pi_type <$> paramMapping (wavespeedState node) !! "sizes") = Some "array-int" ∧
  (obj_get (default [] (nd_inputs
      (transformEntry parseFloat numberToString dynamicEntry (Some node)).1))
     "request_json") =
    Some (IvRequestJson [("sizes", JArr [JStr "1"; JStr "2"; JStr "3"])]).
Proof. vm_compute. auto. Qed.

(** ** Execution-time rewriter *)

Lemma obj_get_set_eq {V} (o : JsObject V) (k : string) (v : V) :
  obj_get (obj_set o k v) k = Some v.
Proof.
  induction o as [|[k' v'] o IH]; simpl.
  - by rewrite String.eqb_refl.
  - destruct (String.eqb_spec k' k) as [->|Hne]; simpl.
    + by rewrite String.eqb_refl.
    + destruct (String.eqb_spec k' k); [done|exact IH].
Qed.

Lemma obj_get_set_ne {V} (o : JsObject V) (k k' : string) (v : V) :
  k ≠ k' → obj_get (obj_set o k v) k' = obj_get o k'.
Proof.
  intros Hne. induction o as [|[k0 v0] o IH]; simpl.
  - destruct (String.eqb_spec k k'); [done|reflexivity].
  - destruct (String.eqb_spec k0 k) as [->|Hne0]; simpl.
    + destruct (String.eqb_spec k k'); [done|reflexivity].
    + destruct (String.eqb_spec k0 k'); [reflexivity|exact IH].
Qed.

(** The key of the rewritten node on which a connection of the port
    [inputName] lands, if it lands anywhere. *)
Definition connectionTarget (paramMap : gmap string PlaceholderInfo) (inputName : string)
  : option string :=
  if is_placeholder_name inputName then Some inputName
  else
    match paramMap !! cleanName inputName with
    | Some placeholderInfo =>
        if String.eqb (placeholder placeholderInfo) "" then None
        else Some (placeholder placeholderInfo)
    | None => None
    end.

Lemma mapConnection_target paramMap acc entry :
  mapConnection paramMap acc entry =
  if isConnection entry.2 then
    match connectionTarget paramMap entry.1 with
    | Some key => obj_set acc key entry.2
    | None => acc
    end
  else acc.
Proof.
  unfold mapConnection, connectionTarget.
  destruct (isConnection entry.2); [|done].
  destruct (is_placeholder_name entry.1); [done|].
  destruct (paramMap !! cleanName entry.1) as [info|]; [|done].
  by destruct (String.eqb (placeholder info) "").
Qed.

Lemma foldl_mapConnection_keeps paramMap (l : JsObject InputValue) acc key value :
  obj_get acc key = Some value →
  (∀ entry, entry ∈ l → isConnection entry.2 = true →
     connectionTarget paramMap entry.1 = Some key → entry.2 = value) →
  obj_get (foldl (mapConnection paramMap) acc l) key = Some value.
Proof.
  revert acc. induction l as [|e l IH]; intros acc Hacc Hsame; simpl; [done|].
  apply IH.
  - rewrite mapConnection_target.
    destruct (isConnection e.2) eqn:Hc; [|done].
    destruct (connectionTarget paramMap e.1) as [k|] eqn:Ht; [|done].
    destruct (decide (k = key)) as [->|Hne].
    + rewrite obj_get_set_eq. f_equal. apply Hsame; [apply list_elem_of_here|done..].
    + by rewrite obj_get_set_ne.
  - intros entry Hin. apply Hsame. by apply list_elem_of_further.
Qed.

Lemma foldl_mapConnection_lands paramMap (l : JsObject InputValue) acc entry key :
  entry ∈ l → isConnection entry.2 = true →
  connectionTarget paramMap entry.1 = Some key →
  (∀ other, other ∈ l → isConnection other.2 = true →
     connectionTarget paramMap other.1 = Some key → other.2 = entry.2) →
  obj_get (foldl (mapConnection paramMap) acc l) key = Some entry.2.
Proof.
  revert acc. induction l as [|e l IH]; intros acc Hin Hc Ht Hsame.
  - by apply elem_of_nil in Hin.
  - simpl. apply elem_of_cons in Hin as [<-|Hin].
    + apply foldl_mapConnection_keeps.
      * rewrite mapConnection_target, Hc, Ht. apply obj_get_set_eq.
      * intros other Ho. apply Hsame. by apply list_elem_of_further.
    + apply IH; [done..|]. intros other Ho. apply Hsame. by apply list_elem_of_further.
Qed.

(** In the rewrite of a dynamic node with a model selected, a connection
    found on a port lands on the key of the rewritten node that the port
    stands for, with the connection unchanged: on the port's own name when
    that name has the placeholder form [param_N] (a direct connection), and
    otherwise on the slot that the parameter mapping binds to the port's
    name (its leading ["* "] removed) - provided that the connections that
    stand for the same key are the same connection, as a pseudo-port and the
    placeholder that mirrors it are.  Of two different connections that
    stand for one key the later one wins. *)
Lemma connections_land_on_slots (parseFloat : string → option Q)
    (numberToString : Q → string) (nodeData : NodeData) (dynamicState : DynamicState)
    (portInputs : JsObject InputValue) (inputName : string) (link : list JsValue) :
  nd_inputs nodeData = Some portInputs →
  (inputName, IvValue (JArr link)) ∈ portInputs →
  (∀ other, other ∈ portInputs → isConnection other.2 = true →
     connectionTarget (ds_paramMapping dynamicState) other.1 =
       connectionTarget (ds_paramMapping dynamicState) inputName →
     other.2 = IvValue (JArr link)) →
  let rewritten :=
    default [] (nd_inputs (transformDynamicNodeForExecution parseFloat numberToString
                             nodeData dynamicState)) in
  (is_placeholder_name inputName = true →
     obj_get rewritten inputName = Some (IvValue (JArr link))) ∧
  (is_placeholder_name inputName = false →
     ∀ placeholderInfo,
       ds_paramMapping dynamicState !! cleanName inputName = Some placeholderInfo →
       placeholder placeholderInfo ≠ "" →
       obj_get rewritten (placeholder placeholderInfo) = Some (IvValue (JArr link))).
Proof.
  intros Hinputs Hin Hsame rewritten.
  assert (∀ key, connectionTarget (ds_paramMapping dynamicState) inputName = Some key →
                 obj_get rewritten key = Some (IvValue (JArr link))) as Hland.
  { intros key Hkey. unfold rewritten, transformDynamicNodeForExecution.
    rewrite Hinputs. simpl default.
    apply (foldl_mapConnection_lands _ _ _ (inputName, IvValue (JArr link)) key);
      [done|done|done|].
    intros other Ho Hc Ht. apply Hsame; [done|done|]. by rewrite Hkey. }
  split.
  - intros Hp. apply Hland. unfold connectionTarget. by rewrite Hp.
  - intros Hp info Hinfo Hne. apply Hland. unfold connectionTarget.
    rewrite Hp, Hinfo. by destruct (String.eqb_spec (placeholder info) "").
Qed.

Local Open Scope list_scope.

(** ** Initialisation and the control list *)

(** Identity, name and dynamic marker of a control. *)
Definition tag (w : Widget) : nat * string * bool := (w_id w, w_name w, w_dynamic w).

Definition tags (node : Node) : list (nat * string * bool) := tag <$> widgets node.

(** Every control of the node was created before the identity counter
    reached its present value. *)
Definition fresh_ids (node : Node) : Prop :=
  Forall (λ t : nat * string * bool, t.1.1 < widget_count node) (tags node).

(** The effect on the tags of setting the dynamic marker of the control
    [id]. *)
Definition mark_tags (id : nat) (ts : list (nat * string * bool))
  : list (nat * string * bool) :=
  (λ t : nat * string * bool, if t.1.1 =? id then (t.1.1, t.1.2, true) else t) <$> ts.

Lemma tags_update_keep (f : Widget → Widget) (id : nat) (node : Node) :
  (∀ w, tag (f w) = tag w) → tags (update_widget id f node) = tags node.
Proof.
  intros Hf. unfold tags, update_widget, modify_widget. simpl.
  rewrite <- list_fmap_compose. apply list_fmap_ext. intros i w _. simpl.
  by destruct (w_id w =? id).
Qed.

Lemma tags_update_mark (f : Widget → Widget) (id : nat) (node : Node) :
  (∀ w, tag (f w) = (w_id w, w_name w, true)) →
  tags (update_widget id f node) = mark_tags id (tags node).
Proof.
  intros Hf. unfold tags, update_widget, modify_widget, mark_tags. simpl.
  rewrite <- !list_fmap_compose. apply list_fmap_ext. intros i w _. simpl.
  destruct (w_id w =? id); [apply Hf|done].
Qed.

Lemma tag_modify_keep (f : Widget → Widget) (id : nat) (ws : list Widget) :
  (∀ w, tag (f w) = tag w) → tag <$> modify_widget id f ws = tag <$> ws.
Proof.
  intros Hf. unfold modify_widget.
  rewrite <- list_fmap_compose. apply list_fmap_ext. intros i w _. simpl.
  by destruct (w_id w =? id).
Qed.

Lemma tag_modify_mark (f : Widget → Widget) (id : nat) (ws : list Widget) :
  (∀ w, tag (f w) = (w_id w, w_name w, true)) →
  tag <$> modify_widget id f ws = mark_tags id (tag <$> ws).
Proof.
  intros Hf. unfold modify_widget, mark_tags.
  rewrite <- !list_fmap_compose. apply list_fmap_ext. intros i w _. simpl.
  destruct (w_id w =? id); [apply Hf|done].
Qed.

Lemma mark_tags_old (c id : nat) (ts : list (nat * string * bool)) :
  Forall (λ t : nat * string * bool, t.1.1 < c) ts → c ≤ id → mark_tags id ts = ts.
Proof.
  intros Hts Hid. unfold mark_tags. induction Hts as [|t ts Ht _ IH]; [done|].
  rewrite fmap_cons, IH. f_equal.
  destruct (Nat.eqb_spec t.1.1 id); [lia|done].
Qed.

Lemma mark_tags_app (id : nat) (a b : list (nat * string * bool)) :
  mark_tags id (a ++ b) = mark_tags id a ++ mark_tags id b.
Proof. apply fmap_app. Qed.

Lemma count_update_widget f id node :
  widget_count (update_widget id f node) = widget_count node.
Proof. reflexivity. Qed.

Lemma tags_addWidget node t n v cb o :
  tags (addWidget node t n v cb o).2 = tags node ++ [(widget_count node, n, false)].
Proof. unfold tags. simpl. by rewrite fmap_app. Qed.

(** The names of the controls that [createParameterWidget] adds for a
    parameter. *)
Definition controlNames (p : Param) : list string :=
  if isSeedParam p then [displayNameOf p; " Random Seed"; " Auto Random"]
  else if String.eqb (p_type p) "BOOLEAN" then [displayNameOf p]
  else if String.eqb (p_type p) "STRING"
  then [displayNameOf p +:+ (if p_isArray p then " (comma-separated)" else "")]
  else [displayNameOf p].

(** Tags of controls created one after the other from identity [c] on, all
    marked dynamic. *)
Fixpoint dynamicTags (c : nat) (names : list string) : list (nat * string * bool) :=
  match names with
  | [] => []
  | n :: rest => (c, n, true) :: dynamicTags (S c) rest
  end.

Lemma dynamicTags_names c names : (λ t : nat * string * bool, t.1.2) <$> dynamicTags c names = names.
Proof. revert c. induction names as [|n names IH]; intros c; simpl; [done|]. by rewrite IH. Qed.

Lemma dynamicTags_app c a b :
  dynamicTags c (a ++ b) = dynamicTags c a ++ dynamicTags (c + length a) b.
Proof.
  revert c. induction a as [|n a IH]; intros c; simpl.
  - by rewrite Nat.add_0_r.
  - rewrite IH. do 3 f_equal. lia.
Qed.

Lemma dynamicTags_bound c names :
  Forall (λ t : nat * string * bool, c ≤ t.1.1 < c + length names ∧ t.2 = true)
    (dynamicTags c names).
Proof.
  revert c. induction names as [|n names IH]; intros c; simpl; constructor.
  - simpl. split; [lia|done].
  - eapply Forall_impl; [apply IH|]. simpl. intros t [? ?]. split; [lia|done].
Qed.

#[local] Arguments modify_widget : simpl never.
#[local] Arguments mark_tags : simpl never.
#[local] Arguments Nat.eqb : simpl never.

Lemma eqb_succ_facts (n : nat) :
  (S n =? n) = false ∧ (S (S n) =? n) = false ∧ (n =? S n) = false ∧
  (n =? S (S n)) = false ∧ (S n =? S (S n)) = false ∧ (S (S n) =? S n) = false.
Proof. repeat split; apply Nat.eqb_neq; lia. Qed.

Lemma mark_tags_one (id : nat) (t : nat * string * bool) :
  mark_tags id [t] = [if t.1.1 =? id then (t.1.1, t.1.2, true) else t].
Proof. reflexivity. Qed.

Ltac eqb_succ c :=
  let E1 := fresh in let E2 := fresh in let E3 := fresh in
  let E4 := fresh in let E5 := fresh in let E6 := fresh in
  destruct (eqb_succ_facts c) as (E1 & E2 & E3 & E4 & E5 & E6);
  rewrite ?E1, ?E2, ?E3, ?E4, ?E5, ?E6, ?Nat.eqb_refl;
  clear E1 E2 E3 E4 E5 E6.

Ltac tags_of_created c old Hfresh :=
  unfold tags; simpl;
  repeat first
    [ rewrite tag_modify_mark by done
    | rewrite tag_modify_keep by done ];
  rewrite ?fmap_app; simpl;
  rewrite ?mark_tags_app;
  repeat (rewrite (mark_tags_old c _ old) by (exact Hfresh || lia));
  repeat (rewrite mark_tags_one; simpl; eqb_succ c);
  rewrite <- ?app_assoc; simpl.

Lemma tags_createControl_marked (node : Node) (p : Param) (i : nat) :
  fresh_ids node →
  let r := mutate (w_mark_param (p_name p) i (p_required p)) (createControl node p) in
  tags r.2 = tags node ++ dynamicTags (widget_count node) (controlNames p) ∧
  widget_count r.2 = widget_count node + length (controlNames p).
Proof.
  intros Hfresh. unfold fresh_ids, tags in Hfresh.
  unfold createControl, controlNames, mutate.
  destruct (isSeedParam p).
  { unfold createSeedWidget. tags_of_created (widget_count node) (tag <$> widgets node) Hfresh.
    split; [done|lia]. }
  destruct (String.eqb (p_type p) "BOOLEAN").
  { tags_of_created (widget_count node) (tag <$> widgets node) Hfresh. split; [done|lia]. }
  destruct (String.eqb (p_type p) "STRING").
  { destruct (p_isArray p); destruct (isMultilineParam p || _);
      unfold ComfyWidgets_STRING, mutate;
      tags_of_created (widget_count node) (tag <$> widgets node) Hfresh; (split; [done|lia]). }
  destruct (_ && _).
  { tags_of_created (widget_count node) (tag <$> widgets node) Hfresh. split; [done|lia]. }
  destruct (_ || _).
  { tags_of_created (widget_count node) (tag <$> widgets node) Hfresh. split; [done|lia]. }
  tags_of_created (widget_count node) (tag <$> widgets node) Hfresh. split; [done|lia].
Qed.

Lemma widgets_allocatePlaceholder (node : Node) (p : Param) :
  widgets (allocatePlaceholder node p).2 = widgets node ∧
  widget_count (allocatePlaceholder node p).2 = widget_count node.
Proof.
  unfold allocatePlaceholder.
  destruct (lookup_mapping (paramMapping (wavespeedState node)) (p_name p)); [done|].
  by destruct (scanPlaceholders _ _ _).
Qed.

Lemma tags_createWidgetInputPort (node : Node) (w : Widget) (p : Param) :
  tags (createWidgetInputPort node w p).2 = tags node ∧
  widget_count (createWidgetInputPort node w p).2 = widget_count node.
Proof.
  unfold createWidgetInputPort.
  destruct (widgets_allocatePlaceholder node p) as [Hw Hc].
  destruct (allocatePlaceholder node p) as [[[info|key]|] node1]; simpl in Hw, Hc;
    [|unfold tags; simpl; by rewrite Hw, Hc|unfold tags; simpl; by rewrite Hw, Hc].
  assert (∀ port,
    tags (mutate (w_set_input_pair (Some port))
            (w, update_port port
                  (in_assign_dynamic (p_name p) (w_id w) (placeholder info)
                     (default 0 (Some 0)))
                  (addInput node1 (p_name p) (portType p)).2)).2 = tags node1) as _.
  { intros port. unfold mutate. simpl. by rewrite tags_update_keep. }
  destruct (find_port node1 (placeholder info) (wavespeed_hiddenInputs node1)).
  { unfold mutate. simpl. rewrite tags_update_keep by done.
    unfold tags. simpl. by rewrite Hw, Hc. }
  destruct (find_port node1 (placeholder info) (wavespeed_allInputs node1)).
  { unfold mutate. simpl. rewrite tags_update_keep by done.
    unfold tags. simpl. by rewrite Hw, Hc. }
  destruct (find_port node1 (placeholder info) (wavespeed_originalInputs node1)).
  { unfold mutate. simpl. rewrite tags_update_keep by done.
    unfold tags. simpl. by rewrite Hw, Hc. }
  destruct (find_port node1 (placeholder info) (inputs node1)).
  { unfold mutate. simpl. rewrite tags_update_keep by done.
    unfold tags. simpl. by rewrite Hw, Hc. }
  unfold tags. simpl. by rewrite Hw, Hc.
Qed.

Lemma tags_createParameterWidget (node : Node) (p : Param) (i : nat) :
  fresh_ids node →
  tags (createParameterWidget node p i).2 =
    tags node ++ dynamicTags (widget_count node) (controlNames p) ∧
  widget_count (createParameterWidget node p i).2 =
    widget_count node + length (controlNames p).
Proof.
  intros Hfresh. unfold createParameterWidget.
  pose proof (tags_createControl_marked node p i Hfresh) as H. cbv zeta in H.
  destruct (mutate _ (createControl node p)) as [w n1]. simpl in H.
  destruct (shouldCreateInputPort p); [|exact H].
  pose proof (tags_createWidgetInputPort n1 w p) as Hp.
  destruct (createWidgetInputPort n1 w p) as [[o w1] n2]. simpl in *.
  destruct Hp as [-> ->]. exact H.
Qed.

Lemma fresh_ids_extend (node node' : Node) (names : list string) :
  fresh_ids node →
  tags node' = tags node ++ dynamicTags (widget_count node) names →
  widget_count node' = widget_count node + length names →
  fresh_ids node'.
Proof.
  unfold fresh_ids. intros Hf Ht Hc. rewrite Ht, Hc. apply Forall_app. split.
  - eapply Forall_impl; [exact Hf|]. simpl. intros. lia.
  - eapply Forall_impl; [apply dynamicTags_bound|]. simpl. intros t [? _]. lia.
Qed.

Lemma tags_restoreWidgets (ps : list Param) (node : Node) (i : nat) :
  fresh_ids node →
  tags (restoreWidgets node ps i) =
    tags node ++ dynamicTags (widget_count node) (flat_map controlNames ps) ∧
  widget_count (restoreWidgets node ps i) =
    widget_count node + length (flat_map controlNames ps).
Proof.
  revert node i. induction ps as [|p ps IH]; intros node i Hfresh; simpl.
  - rewrite app_nil_r. split; [done|lia].
  - destruct (tags_createParameterWidget node p i Hfresh) as [Ht Hc].
    destruct (createParameterWidget node p i) as [w n1]. simpl in Ht, Hc.
    set (n2 := match w, obj_get (parameterValues (wavespeedState n1)) (p_name p) with
               | Some w0, Some v =>
                   if is_undefined v then n1
                   else update_widget (w_id w0) (w_set_value v) n1
               | _, _ => n1
               end).
    assert (tags n2 = tags n1 ∧ widget_count n2 = widget_count n1) as [Ht2 Hc2].
    { unfold n2. destruct w as [w0|]; [|done].
      destruct (obj_get _ _) as [v|]; [|done].
      destruct (is_undefined v); [done|]. by rewrite tags_update_keep. }
    assert (fresh_ids n2) as Hf2.
    { apply (fresh_ids_extend node n2 (controlNames p)); [done|congruence|congruence]. }
    destruct (IH n2 (S i) Hf2) as [Ht3 Hc3].
    rewrite Ht3, Hc3, Ht2, Hc2, Ht, Hc, dynamicTags_app, length_app.
    rewrite <- app_assoc. split; [done|lia].
Qed.

(** The model and the parameter list that decide what initialisation
    builds. *)
Definition selection (node : Node) : string * list Param :=
  (modelId (wavespeedState node), parameters (wavespeedState node)).

Lemma selection_allocatePlaceholder (node : Node) (p : Param) :
  selection (allocatePlaceholder node p).2 = selection node.
Proof.
  unfold allocatePlaceholder.
  destruct (lookup_mapping (paramMapping (wavespeedState node)) (p_name p)); [done|].
  by destruct (scanPlaceholders _ _ _).
Qed.

Lemma selection_createWidgetInputPort (node : Node) (w : Widget) (p : Param) :
  selection (createWidgetInputPort node w p).2 = selection node.
Proof.
  unfold createWidgetInputPort.
  pose proof (selection_allocatePlaceholder node p) as Hs.
  destruct (allocatePlaceholder node p) as [[[info|key]|] node1]; [|exact Hs|exact Hs].
  simpl in Hs.
  destruct (find_port node1 (placeholder info) (wavespeed_hiddenInputs node1)); [exact Hs|].
  destruct (find_port node1 (placeholder info) (wavespeed_allInputs node1)); [exact Hs|].
  destruct (find_port node1 (placeholder info) (wavespeed_originalInputs node1));
    [exact Hs|].
  destruct (find_port node1 (placeholder info) (inputs node1)); exact Hs.
Qed.

Lemma selection_createParameterWidget (node : Node) (p : Param) (i : nat) :
  selection (createParameterWidget node p i).2 = selection node.
Proof.
  unfold createParameterWidget.
  pose proof (state_createControl node p) as Hst.
  destruct (createControl node p) as [w n1]. simpl in Hst. unfold mutate. simpl fst. simpl snd.
  destruct (shouldCreateInputPort p).
  - pose proof (selection_createWidgetInputPort
                  (update_widget (w_id w) (w_mark_param (p_name p) i (p_required p)) n1)
                  (w_mark_param (p_name p) i (p_required p) w) p) as Hp.
    destruct (createWidgetInputPort _ _ _) as [[o w1] n2]. simpl in *.
    rewrite Hp. unfold selection. simpl. by rewrite Hst.
  - unfold selection. simpl. by rewrite Hst.
Qed.

Lemma selection_restoreWidgets (ps : list Param) (node : Node) (i : nat) :
  selection (restoreWidgets node ps i) = selection node.
Proof.
  revert node i. induction ps as [|p ps IH]; intros node i; simpl; [done|].
  pose proof (selection_createParameterWidget node p i) as Hs.
  destruct (createParameterWidget node p i) as [w n1]. simpl in Hs.
  rewrite IH. destruct w as [w0|]; [|exact Hs].
  destruct (obj_get _ _) as [v|]; [|exact Hs].
  destruct (is_undefined v); exact Hs.
Qed.

Lemma selection_updateRequestJsonWidget parseFloat (node : Node) :
  selection (updateRequestJsonWidget parseFloat node) = selection node.
Proof.
  unfold updateRequestJsonWidget, collectParameterValues.
  by destruct (foldl _ _ _).
Qed.

Lemma widgets_updateRequestJsonWidget parseFloat (node : Node) :
  tags (updateRequestJsonWidget parseFloat node) = tags node ∧
  widget_count (updateRequestJsonWidget parseFloat node) = widget_count node.
Proof.
  unfold updateRequestJsonWidget, collectParameterValues.
  by destruct (foldl _ _ _).
Qed.

Lemma tag_filter_dynamic (ws : list Widget) :
  tag <$> List.filter (λ w, negb (w_dynamic w)) ws =
  List.filter (λ t : nat * string * bool, negb t.2) (tag <$> ws).
Proof.
  induction ws as [|w ws IH]; [done|]. rewrite fmap_cons.
  change (List.filter (λ w0, negb (w_dynamic w0)) (w :: ws))
    with (if negb (w_dynamic w)
          then w :: List.filter (λ w0, negb (w_dynamic w0)) ws
          else List.filter (λ w0, negb (w_dynamic w0)) ws).
  change (List.filter (λ t : nat * string * bool, negb t.2) (tag w :: (tag <$> ws)))
    with (if negb (w_dynamic w)
          then tag w :: List.filter (λ t : nat * string * bool, negb t.2) (tag <$> ws)
          else List.filter (λ t : nat * string * bool, negb t.2) (tag <$> ws)).
  destruct (negb (w_dynamic w)); [rewrite fmap_cons|]; by rewrite IH.
Qed.

Lemma tags_clearDynamicWidgets (node : Node) :
  tags (clearDynamicWidgets node) =
    List.filter (λ t : nat * string * bool, negb t.2) (tags node) ∧
  widget_count (clearDynamicWidgets node) = widget_count node.
Proof. unfold tags. simpl. by rewrite tag_filter_dynamic. Qed.

Lemma fresh_ids_clearDynamicWidgets (node : Node) :
  fresh_ids node → fresh_ids (clearDynamicWidgets node).
Proof.
  unfold fresh_ids. destruct (tags_clearDynamicWidgets node) as [-> ->].
  intros H. apply Forall_forall. intros t Ht.
  apply list_elem_of_In, filter_In in Ht as [Ht _].
  rewrite Forall_forall in H. apply H. by apply list_elem_of_In.
Qed.

Lemma tags_addCategorySelector (remote : Remote) (now : Z) (node : Node) (s : Session) :
  fresh_ids node →
  tags (addCategorySelector remote now node s).1 =
    tags node ++ dynamicTags (widget_count node) ["Category"] ∧
  widget_count (addCategorySelector remote now node s).1 = S (widget_count node) ∧
  selection (addCategorySelector remote now node s).1 = selection node ∧
  categoryWidget (addCategorySelector remote now node s).1 = Some (widget_count node).
Proof.
  intros Hfresh. unfold fresh_ids, tags in Hfresh. unfold addCategorySelector.
  destruct (getCachedCategories remote now now s) as [cats s1].
  split; [|done].
  tags_of_created (widget_count node) (tag <$> widgets node) Hfresh. done.
Qed.

Lemma tags_addModelSelector (node : Node) :
  fresh_ids node →
  tags (addModelSelector node) = tags node ++ dynamicTags (widget_count node) ["Model"] ∧
  widget_count (addModelSelector node) = S (widget_count node) ∧
  selection (addModelSelector node) = selection node ∧
  modelWidget (addModelSelector node) = Some (widget_count node).
Proof.
  intros Hfresh. unfold fresh_ids, tags in Hfresh. unfold addModelSelector.
  split; [|done].
  tags_of_created (widget_count node) (tag <$> widgets node) Hfresh. done.
Qed.

Lemma tags_restoreModelDisplayName (remote : Remote) (now : Z) (node : Node) (s : Session) :
  tags (restoreModelDisplayName remote now node s).1 = tags node ∧
  widget_count (restoreModelDisplayName remote now node s).1 = widget_count node ∧
  selection (restoreModelDisplayName remote now node s).1 = selection node.
Proof.
  unfold restoreModelDisplayName.
  destruct (String.eqb (category (wavespeedState node)) ""); [done|].
  destruct (getCachedModelsByCategory remote now now (getCategoryValue node) s)
    as [models s1].
  destruct (List.find _ models) as [model|]; destruct (modelWidget node) as [mw|];
    try done.
  - simpl. by rewrite tags_update_keep.
  - destruct models; [done|]. simpl. by rewrite tags_update_keep.
Qed.

(** The names of the controls that an initialisation builds. *)
Definition rebuiltControls (node : Node) : list string :=
  let st := wavespeedState node in
  "Category" :: "Model" ::
  (if negb (String.eqb (modelId st) "") && (0 <? length (parameters st))
   then flat_map controlNames (sortedParams (parameters st))
   else []).

Definition nonDynamic (ts : list (nat * string * bool)) : list (nat * string * bool) :=
  List.filter (λ t : nat * string * bool, negb t.2) ts.

Lemma tags_restoreParametersFromCache parseFloat (node : Node) :
  fresh_ids node →
  tags (restoreParametersFromCache parseFloat node) =
    tags node ++ dynamicTags (widget_count node)
                   (flat_map controlNames (sortedParams (parameters (wavespeedState node)))) ∧
  widget_count (restoreParametersFromCache parseFloat node) =
    widget_count node +
    length (flat_map controlNames (sortedParams (parameters (wavespeedState node)))) ∧
  selection (restoreParametersFromCache parseFloat node) = selection node.
Proof.
  intros Hfresh. unfold restoreParametersFromCache.
  destruct (widgets_updateRequestJsonWidget parseFloat
              (restoreWidgets node (sortedParams (parameters (wavespeedState node))) 0))
    as [-> ->].
  rewrite selection_updateRequestJsonWidget, selection_restoreWidgets.
  destruct (tags_restoreWidgets (sortedParams (parameters (wavespeedState node))) node 0
              Hfresh) as [-> ->].
  done.
Qed.

Lemma tags_initializeWithCachedData parseFloat (remote : Remote) (now : Z)
    (node : Node) (s : Session) :
  fresh_ids node →
  let r := (initializeWithCachedData parseFloat remote now node s).1 in
  let names := "Category" :: "Model" ::
               flat_map controlNames (sortedParams (parameters (wavespeedState node))) in
  tags r = nonDynamic (tags node) ++ dynamicTags (widget_count node) names ∧
  widget_count r = widget_count node + length names ∧
  selection r = selection node.
Proof.
  intros Hfresh. cbv zeta. unfold initializeWithCachedData.
  pose proof (fresh_ids_clearDynamicWidgets node Hfresh) as Hf1.
  destruct (tags_clearDynamicWidgets node) as [Ht1 Hc1].
  assert (selection (clearDynamicWidgets node) = selection node) as Hs1 by reflexivity.
  set (node1 := clearDynamicWidgets node) in *.
  destruct (tags_addCategorySelector remote now node1 s Hf1) as (Ht2 & Hc2 & Hs2 & Hcw).
  destruct (addCategorySelector remote now node1 s) as [node2 s1]. cbn [fst snd] in Ht2, Hc2, Hs2, Hcw.
  set (node3 := match categoryWidget node2 with
                | Some cw =>
                    if negb (String.eqb (category (wavespeedState node2)) "")
                    then update_widget cw
                           (w_set_value (JStr (category (wavespeedState node2)))) node2
                    else node2
                | None => node2
                end).
  assert (tags node3 = tags node2 ∧ widget_count node3 = widget_count node2 ∧
          selection node3 = selection node2) as (Ht3 & Hc3 & Hs3).
  { unfold node3. destruct (categoryWidget node2); [|done].
    destruct (negb (String.eqb (category (wavespeedState node2)) "")); [|done].
    by rewrite tags_update_keep. }
  assert (fresh_ids node3) as Hf3.
  { apply (fresh_ids_extend node1 node3 ["Category"]); [done| |].
    - rewrite Ht3, Ht2. reflexivity.
    - rewrite Hc3, Hc2. cbn [length]. lia. }
  destruct (tags_addModelSelector node3 Hf3) as (Ht4 & Hc4 & Hs4 & Hmw).
  set (node4 := addModelSelector node3) in *.
  set (r5 := match modelWidget node4 with
             | Some _ =>
                 if negb (String.eqb (modelId (wavespeedState node4)) "")
                 then restoreModelDisplayName remote now node4 s1
                 else (node4, s1)
             | None => (node4, s1)
             end).
  assert (tags r5.1 = tags node4 ∧ widget_count r5.1 = widget_count node4 ∧
          selection r5.1 = selection node4) as (Ht5 & Hc5 & Hs5).
  { unfold r5. destruct (modelWidget node4); [|by repeat split].
    destruct (negb (String.eqb (modelId (wavespeedState node4)) ""));
      [|by repeat split].
    apply tags_restoreModelDisplayName. }
  destruct r5 as [node5 s2]. cbn [fst snd] in Ht5, Hc5, Hs5.
  assert (tags node5 = nonDynamic (tags node) ++
                       dynamicTags (widget_count node) ["Category"; "Model"]) as Ht.
  { rewrite Ht5, Ht4, Ht3, Ht2, Ht1, ?Hc3, ?Hc2, ?Hc1. unfold nonDynamic.
    rewrite <- app_assoc. reflexivity. }
  assert (widget_count node5 = widget_count node + 2) as Hc
    by (rewrite Hc5, Hc4, ?Hc3, ?Hc2, ?Hc1; lia).
  assert (selection node5 = selection node) as Hs by congruence.
  assert (parameters (wavespeedState node5) = parameters (wavespeedState node)) as Hp.
  { unfold selection in Hs. by injection Hs. }
  assert (fresh_ids node5) as Hf5.
  { unfold fresh_ids. rewrite Ht, Hc. apply Forall_app. split.
    - apply Forall_forall. intros t Hin. unfold nonDynamic in Hin.
      apply list_elem_of_In, filter_In in Hin as [Hin _].
      unfold fresh_ids in Hfresh. rewrite Forall_forall in Hfresh.
      apply list_elem_of_In, Hfresh in Hin. lia.
    - eapply Forall_impl; [apply dynamicTags_bound|]. simpl. intros t [? _]. lia. }
  destruct (0 <? length (parameters (wavespeedState node5))) eqn:Hlen.
  - cbn [fst snd].
    destruct (tags_restoreParametersFromCache parseFloat node5 Hf5) as (-> & -> & ->).
    rewrite Ht, Hc, Hp, Hs.
    change ("Category" :: "Model" ::
            flat_map controlNames (sortedParams (parameters (wavespeedState node))))
      with (["Category"; "Model"] ++
            flat_map controlNames (sortedParams (parameters (wavespeedState node)))).
    rewrite dynamicTags_app, length_app, <- app_assoc. cbn [length].
    split; [reflexivity|]. split; [lia|reflexivity].
  - cbn [fst snd]. rewrite Hp in Hlen.
    destruct (parameters (wavespeedState node)) as [|q qs]; [|discriminate].
    rewrite Ht, Hc, Hs. split; [reflexivity|]. split; [cbn; lia|reflexivity].
Qed.

Lemma tags_initializeDynamicInterface parseFloat (remote : Remote) (now : Z)
    (node : Node) (s : Session) :
  fresh_ids node →
  let r := (initializeDynamicInterface parseFloat remote now node s).1 in
  tags r = nonDynamic (tags node) ++
           dynamicTags (widget_count node) (rebuiltControls node) ∧
  widget_count r = widget_count node + length (rebuiltControls node) ∧
  selection r = selection node ∧
  isInitialized (wavespeedState r) = true.
Proof.
  intros Hfresh. cbv zeta. unfold initializeDynamicInterface, rebuiltControls.
  set (cached := negb (String.eqb (modelId (wavespeedState node)) "") &&
                 (0 <? length (parameters (wavespeedState node)))).
  set (r1 := if cached then initializeWithCachedData parseFloat remote now node s
             else let '(n, s') := addCategorySelector remote now (clearDynamicWidgets node) s in
                  (addModelSelector n, s')).
  assert (tags r1.1 = nonDynamic (tags node) ++
            dynamicTags (widget_count node)
              ("Category" :: "Model" ::
               (if cached
                then flat_map controlNames (sortedParams (parameters (wavespeedState node)))
                else [])) ∧
          widget_count r1.1 = widget_count node +
            length ("Category" :: "Model" ::
                    (if cached
                     then flat_map controlNames
                            (sortedParams (parameters (wavespeedState node)))
                     else [])) ∧
          selection r1.1 = selection node) as (Ht & Hc & Hs).
  { unfold r1. destruct cached.
    - apply (tags_initializeWithCachedData parseFloat remote now node s Hfresh).
    - pose proof (fresh_ids_clearDynamicWidgets node Hfresh) as Hf1.
      destruct (tags_clearDynamicWidgets node) as [Ht1 Hc1].
      destruct (tags_addCategorySelector remote now (clearDynamicWidgets node) s Hf1)
        as (Ht2 & Hc2 & Hs2 & _).
      destruct (addCategorySelector remote now (clearDynamicWidgets node) s) as [n2 s1].
      cbn [fst snd] in *.
      assert (fresh_ids n2) as Hf2.
      { apply (fresh_ids_extend (clearDynamicWidgets node) n2 ["Category"]);
          [done|done|]. rewrite Hc2. cbn [length]. lia. }
      destruct (tags_addModelSelector n2 Hf2) as (Ht3 & Hc3 & Hs3 & _).
      rewrite Ht3, Hc3, Hs3, Ht2, Hc2, Hs2, Ht1, Hc1. unfold nonDynamic.
      rewrite <- app_assoc. split; [reflexivity|]. split; [cbn; lia|reflexivity]. }
  destruct r1 as [node1 s1]. cbn [fst snd] in Ht, Hc, Hs.
  set (node2 := match List.filter _ (inputs node1) with
                | [] => node1
                | _ :: _ => _
                end).
  assert (widgets node2 = widgets node1 ∧ widget_count node2 = widget_count node1 ∧
          wavespeedState node2 = wavespeedState node1) as (Hw2 & Hc2 & Hs2).
  { unfold node2. by destruct (List.filter _ (inputs node1)). }
  cbn [fst snd]. unfold tags, selection in *. cbn.
  rewrite Hw2, Hc2, Hs2. done.
Qed.

Lemma nonDynamic_app (a b : list (nat * string * bool)) :
  nonDynamic (a ++ b) = nonDynamic a ++ nonDynamic b.
Proof. unfold nonDynamic. apply List.filter_app. Qed.

Lemma nonDynamic_idemp (a : list (nat * string * bool)) :
  nonDynamic (nonDynamic a) = nonDynamic a.
Proof.
  unfold nonDynamic. induction a as [|t a IH]; [done|]. simpl.
  destruct (negb t.2) eqn:Ht; simpl; [rewrite Ht|]; by rewrite IH.
Qed.

Lemma nonDynamic_dynamicTags (c : nat) (names : list string) :
  nonDynamic (dynamicTags c names) = [].
Proof. revert c. induction names as [|n names IH]; intros c; [done|]. simpl. apply IH. Qed.

Lemma dynamic_filter_tags (c : nat) (names : list string) (a : list (nat * string * bool)) :
  List.filter (λ t : nat * string * bool, t.2) (nonDynamic a ++ dynamicTags c names) =
  dynamicTags c names.
Proof.
  rewrite List.filter_app.
  assert (List.filter (λ t : nat * string * bool, t.2) (nonDynamic a) = []) as ->.
  { unfold nonDynamic. induction a as [|t a IH]; [done|]. simpl.
    destruct (negb t.2) eqn:Ht; simpl; [|exact IH].
    destruct t.2; [done|exact IH]. }
  simpl. revert c. induction names as [|n names IH]; intros c; [done|].
  simpl. by rewrite IH.
Qed.

Lemma tag_filter_marked (ws : list Widget) :
  tag <$> List.filter w_dynamic ws =
  List.filter (λ t : nat * string * bool, t.2) (tag <$> ws).
Proof.
  induction ws as [|w ws IH]; [done|]. rewrite fmap_cons.
  change (List.filter w_dynamic (w :: ws))
    with (if w_dynamic w then w :: List.filter w_dynamic ws
          else List.filter w_dynamic ws).
  change (List.filter (λ t : nat * string * bool, t.2) (tag w :: (tag <$> ws)))
    with (if w_dynamic w
          then tag w :: List.filter (λ t : nat * string * bool, t.2) (tag <$> ws)
          else List.filter (λ t : nat * string * bool, t.2) (tag <$> ws)).
  destruct (w_dynamic w); [rewrite fmap_cons|]; by rewrite IH.
Qed.

Lemma names_of_tags (ws : list Widget) :
  w_name <$> ws = (λ t : nat * string * bool, t.1.2) <$> (tag <$> ws).
Proof. rewrite <- list_fmap_compose. by apply list_fmap_ext. Qed.

(** An invocation of the entry point that runs from its start to its end
    with no other invocation in between (each invocation is one step here,
    across its awaits) sets the initialised flag, removes the dynamic
    controls and builds them again.  After it the controls that are not
    dynamic are the ones the node had, and the dynamic controls are one
    category selector, one model selector and, when a model with parameters
    is present, the controls of its parameters in build order; a further
    such invocation on the result builds controls of the same names. *)
Lemma initialization_rebuilds_controls (parseFloat : string → option Q)
    (remote : Remote) (now : Z) (node : Node) (s : Session) :
  fresh_ids node →
  let node1 := (initializeDynamicInterface parseFloat remote now node s).1 in
  isInitialized (wavespeedState node1) = true ∧
  nonDynamic (tags node1) = nonDynamic (tags node) ∧
  w_name <$> List.filter w_dynamic (widgets node1) = rebuiltControls node ∧
  (∀ remote' now' s',
     w_name <$> widgets (initializeDynamicInterface parseFloat remote' now' node1 s').1 =
     w_name <$> widgets node1).
Proof.
  intros Hfresh node1.
  destruct (tags_initializeDynamicInterface parseFloat remote now node s Hfresh)
    as (Ht & Hc & Hs & Hi).
  fold node1 in Ht, Hc, Hs, Hi.
  split; [exact Hi|].
  split.
  { rewrite Ht, nonDynamic_app, nonDynamic_idemp, nonDynamic_dynamicTags.
    apply app_nil_r. }
  split.
  { rewrite names_of_tags, tag_filter_marked. fold (tags node1). rewrite Ht.
    rewrite dynamic_filter_tags. apply dynamicTags_names. }
  intros remote' now' s'.
  assert (fresh_ids node1) as Hf1.
  { unfold fresh_ids. rewrite Ht, Hc. apply Forall_app. split.
    - apply Forall_forall. intros t Hin. unfold nonDynamic in Hin.
      apply list_elem_of_In, filter_In in Hin as [Hin _].
      unfold fresh_ids in Hfresh. rewrite Forall_forall in Hfresh.
      apply list_elem_of_In, Hfresh in Hin. lia.
    - eapply Forall_impl; [apply dynamicTags_bound|]. simpl. intros t [? _]. lia. }
  destruct (tags_initializeDynamicInterface parseFloat remote' now' node1 s' Hf1)
    as (Ht' & _).
  rewrite !names_of_tags. fold (tags node1).
  fold (tags (initializeDynamicInterface parseFloat remote' now' node1 s').1).
  rewrite Ht', Ht.
  rewrite nonDynamic_app, nonDynamic_idemp, nonDynamic_dynamicTags, app_nil_r.
  rewrite !fmap_app, !dynamicTags_names.
  f_equal. unfold rebuiltControls. unfold selection in Hs. injection Hs as -> ->.
  reflexivity.
Qed.

(** *** Concrete runs *)

(** Stand-ins for the two host conversions, enough to run the model on
    texts of decimal digits: the first reads such a text as a number and
    answers [NaN] otherwise, the second prints the numerator of a number. *)
Definition parseDigits (s : string) : option Q :=
  if negb (String.eqb s "") && all_digits s then
    Some (inject_Z (Z.of_nat
      (foldl (λ acc c, 10 * acc + (Ascii.nat_of_ascii c - 48)) 0
         (String.list_ascii_of_string s))))
  else None.

Definition showNumerator (q : Q) : string := pretty (Qnum q).

(** A saved workflow of the scenario schema, with a width of 768. *)
Definition scenarioState : DynamicState :=
  {| ds_modelId := "m"; ds_category := "Image";
     ds_parameters := parseModelParameters scenarioSchema;
     ds_parameterValues := [("width", JNum 768)];
     ds_paramMapping := ∅;
     ds_parameterMetadata := None |}.

(** The node of that workflow when its initialisation starts, with the
    session it runs in. *)
Definition loadedNode : Node * Session :=
  let '(_, node, s) :=
    restoreModelCacheIfAvailable (configure (Some scenarioState) None freshNode)
      emptySession in
  (node, s).

(** The node after one initialisation, and after a second one. *)
Definition initializedOnce : Node * Session :=
  initializeDynamicInterface parseDigits (remoteWith scenarioSchema) 0
    loadedNode.1 loadedNode.2.

Definition initializedTwice : Node * Session :=
  initializeDynamicInterface parseDigits (remoteWith scenarioSchema) 1
    initializedOnce.1 initializedOnce.2.

Lemma fresh_ids_loadedNode : fresh_ids loadedNode.1.
Proof. apply (bool_decide_unpack _). vm_compute. exact I. Qed.

(** C9 at the failing input: the flag is set and nothing reads it.  On the
    initialised node of a loaded workflow the entry point runs again in
    full: it builds the seven dynamic controls anew (other identities) and
    adds a second pseudo-port for every wire-eligible parameter. *)
Theorem reentry_is_not_guarded :
  isInitialized (wavespeedState initializedOnce.1) = true ∧
  w_id <$> List.filter w_dynamic (widgets initializedOnce.1) = [3; 4; 5; 6; 7; 8; 9] ∧
  w_id <$> List.filter w_dynamic (widgets initializedTwice.1) =
    [10; 11; 12; 13; 14; 15; 16] ∧
  port_name initializedOnce.1 <$> inputs initializedOnce.1 =
    ["prompt"; "seed"; "width"] ∧
  port_name initializedTwice.1 <$> inputs initializedTwice.1 =
    ["prompt"; "seed"; "width"; "prompt"; "seed"; "width"].
Proof. vm_compute. repeat split. Qed.

Lemma initialization_rebuilds_controls_witness :
  w_name <$> List.filter w_dynamic (widgets initializedOnce.1) =
    ["Category"; "Model"; "* prompt"; "seed"; " Random Seed"; " Auto Random"; "width"] ∧
  w_name <$> widgets initializedTwice.1 = w_name <$> widgets initializedOnce.1.
Proof.
  destruct (initialization_rebuilds_controls parseDigits (remoteWith scenarioSchema) 0
              loadedNode.1 loadedNode.2 fresh_ids_loadedNode) as (_ & _ & Hnames & Hagain).
  split.
  - exact Hnames.
  - exact (Hagain (remoteWith scenarioSchema) 1%Z initializedOnce.2).
Defined.

(** A prompt entry whose [prompt] port and whose placeholder [param_3] are
    connected, and the state that binds [prompt] to [param_1]. *)
Definition wiredEntry : NodeData :=
  {| nd_inputs := Some [("prompt", IvValue (JArr [JStr "5"; JNum 0]));
                        ("width", IvValue (JNum 512));
                        ("param_3", IvValue (JArr [JStr "6"; JNum 1]))];
     nd_class_type := "WaveSpeedAI Task Create";
     nd_meta_title := None;
     nd_dynamic_state := None |}.

Definition wiredState : DynamicState :=
  {| ds_modelId := "m"; ds_category := "Image";
     ds_parameters := parseModelParameters scenarioSchema;
     ds_parameterValues := [("width", JNum 512)];
     ds_paramMapping :=
       {[ "prompt" := {| placeholder := "param_1"; pi_type := "string";
                         originalType := "STRING"; pi_isArray := false;
                         arrayItemType := None |} ]};
     ds_parameterMetadata := None |}.

Lemma connections_land_on_slots_witness :
  obj_get (default [] (nd_inputs (transformDynamicNodeForExecution parseDigits
                                    showNumerator wiredEntry wiredState)))
    "param_1" = Some (IvValue (JArr [JStr "5"; JNum 0])).
Proof.
  refine (proj2 (connections_land_on_slots parseDigits showNumerator wiredEntry wiredState
                   _ "prompt" [JStr "5"; JNum 0] eq_refl _ _) eq_refl _ eq_refl _).
  - apply list_elem_of_here.
  - intros other Hin Hc Ht.
    apply elem_of_cons in Hin as [->|Hin]; [reflexivity|].
    apply elem_of_cons in Hin as [->|Hin]; [discriminate Hc|].
    apply elem_of_cons in Hin as [->|Hin]; [vm_compute in Ht; discriminate Ht|].
    by apply elem_of_nil in Hin.
  - discriminate.
Defined.

(** *** The pool after a reload, and a name of the prototype *)

(** A model with 21 wire-eligible parameters [p1] ... [p21]. *)
Definition manySchema : InputSchema :=
  {| properties := Some (List.map (λ i, ("p" +:+ pretty i, plainProp "string" JUndefined))
                           (seq 1 21));
     required := None;
     x_order_properties := None |}.

(** The workflow saved from the node on which that model is selected, where
    [p1] ... [p20] hold the 20 slots and [p21] holds none. *)
Definition savedMany (parseFloat : string → option Q) : Serialized :=
  serialize 0 [] (selectedNode parseFloat manySchema).

(** The node of that workflow after a reload, at the time its
    initialisation starts: created anew, configured with the saved blobs,
    restored. *)
Definition reloadedMany (parseFloat : string → option Q) : Node :=
  (restoreModelCacheIfAvailable
     (configure (ser_dynamic_state (savedMany parseFloat))
        (ser_model_cache (savedMany parseFloat)) freshNode)
     emptySession).1.2.

(** C1 at the failing input: after the reload the 20 bindings are back, all
    20 slots are bound, but the used set is empty and the hint is 1 as
    [nodeCreated] left them.  Allocating for the 21st parameter does not
    return [null]: it binds [param_1], the slot of [p1], and changes the
    bindings, the used set and the hint. *)
Theorem reload_forgets_used_slots (parseFloat : string → option Q) :
  let node := reloadedMany parseFloat in
  let result := allocatePlaceholder node (stringParam "p21") in
  List.map (λ i, placeholder <$> paramMapping (wavespeedState node) !! ("p" +:+ pretty i))
    (seq 1 20) = List.map (λ i, Some (candidateName i)) (seq 1 20) ∧
  paramMapping (wavespeedState node) !! "p21" = None ∧
  usedPlaceholders (wavespeedState node) = ∅ ∧
  nextPlaceholderIndex (wavespeedState node) = 1%positive ∧
  result.1 = Some (Binding {| placeholder := "param_1"; pi_type := "string";
                             originalType := "STRING"; pi_isArray := false;
                             arrayItemType := None |}) ∧
  (placeholder <$> paramMapping (wavespeedState result.2) !! "p21") = Some "param_1" ∧
  (placeholder <$> paramMapping (wavespeedState result.2) !! "p1") = Some "param_1" ∧
  usedPlaceholders (wavespeedState result.2) = {["param_1"]} ∧
  nextPlaceholderIndex (wavespeedState result.2) = 2%positive.
Proof. vm_compute. repeat split. Qed.

(** A model whose only parameter is a text named [constructor]. *)
Definition constructorSchema : InputSchema :=
  {| properties := Some [("constructor", plainProp "string" JUndefined)];
     required := None;
     x_order_properties := None |}.

(** The node after a switch from the model of the scenario to that model. *)
Definition switchedToConstructor (parseFloat : string → option Q) : Node :=
  updateModelParameters parseFloat
    (with_state (set_modelId "b") (selectedNode parseFloat scenarioSchema))
    (Some {| input_schema := Some constructorSchema |}).

(** C2 at the failing input: the switch releases the slots of the former
    model, the new parameter [constructor] is wire-eligible and gets its
    control, but [paramMapping["constructor"]] finds the member of
    [Object.prototype]: the allocation returns that member instead of
    [param_1], binds nothing, and the parameter gets no port. *)
Theorem inherited_name_gets_no_slot (parseFloat : string → option Q) :
  let node := switchedToConstructor parseFloat in
  List.map (λ p, (p_name p, shouldCreateInputPort p)) (parameters (wavespeedState node)) =
    [("constructor", true)] ∧
  List.map (λ w, (w_type w, w_name w))
    (List.filter (λ w, truthy_name (w_param_name w)) (widgets node)) =
    [("text", "constructor")] ∧
  pool_of node = (∅, ∅, 1%positive) ∧
  port_name node <$> inputs node = [] ∧
  allocatePlaceholder node (stringParam "constructor") =
    (Some (PrototypeMember "constructor"), node).
Proof.
  cbv zeta. split; [vm_compute; reflexivity|]. split; [vm_compute; reflexivity|].
  split; [vm_compute; reflexivity|]. split; [vm_compute; reflexivity|].
  apply (allocate_inherited (switchedToConstructor parseFloat) (stringParam "constructor"));
    vm_compute; reflexivity.
Qed.

(** The host's connection of the link [link] to the visible port named
    [name], followed by the connection event that the host raises. *)
Definition connect (name : string) (link : Z) (node : Node) : Node :=
  match find_port node name (inputs node) with
  | Some id =>
      onConnectionsChange true true (Some link) (Some id)
        (update_port id (in_set_link (Some link)) node)
  | None => node
  end.

(** The reloaded node after its initialisation, which binds the 21st
    parameter to [param_1] as well, with a wire on [p1] and a wire on
    [p21]; and the entry of that node in a prompt. *)
Definition wiredMany (parseFloat : string → option Q) : Node :=
  connect "p21" 7 (connect "p1" 4
    (initializeDynamicInterface parseFloat (remoteWith manySchema) 0
       (reloadedMany parseFloat) emptySession).1).

Definition collidingEntry : NodeData :=
  {| nd_inputs := Some [("p1", IvValue (JArr [JStr "4"; JNum 0]));
                        ("p21", IvValue (JArr [JStr "7"; JNum 0]))];
     nd_class_type := "WaveSpeedAI Task Create";
     nd_meta_title := None;
     nd_dynamic_state := None |}.

(** C4 at the failing input: [p1] and [p21] are both bound to [param_1]; the
    rewrite writes the connection of [p1] under [param_1] and then the
    connection of [p21] over it.  The rewritten node has one connection, the
    one of [p21]; the wire of [p1] is on no key. *)
Theorem shared_slot_loses_connection (parseFloat : string → option Q)
    (numberToString : Q → string) :
  let node := wiredMany parseFloat in
  let rewritten :=
    default [] (nd_inputs (transformEntry parseFloat numberToString collidingEntry
                             (Some node)).1) in
  List.map (λ name, hasInputConnection node <$>
                      List.find (λ w, bool_decide (w_param_name w = Some name))
                        (widgets node)) ["p1"; "p21"] = [Some true; Some true] ∧
  (placeholder <$> paramMapping (wavespeedState node) !! "p1") = Some "param_1" ∧
  (placeholder <$> paramMapping (wavespeedState node) !! "p21") = Some "param_1" ∧
  rewritten.*1 = ["model_id"; "request_json"; "param_map"; "param_1"] ∧
  obj_get rewritten "param_1" = Some (IvValue (JArr [JStr "7"; JNum 0])).
Proof. vm_compute. repeat split. Qed.

(** * Further properties *)

(** ** More on the placeholder pool *)

(** Bindings and used slots agree: the hint bounds the used slots, every
    binding holds a used slot, and no two names hold the same slot. *)
Definition poolConsistent (node : Node) : Prop :=
  let st := wavespeedState node in
  contiguous node ∧
  (∀ name info, paramMapping st !! name = Some info →
     placeholder info ∈ usedPlaceholders st) ∧
  (∀ n1 n2 i1 i2, paramMapping st !! n1 = Some i1 → paramMapping st !! n2 = Some i2 →
     placeholder i1 = placeholder i2 → n1 = n2).

Lemma allocate_new_slot (node : Node) (p : Param) :
  contiguous node →
  lookup_mapping (paramMapping (wavespeedState node)) (p_name p) = None →
  let h := Pos.to_nat (nextPlaceholderIndex (wavespeedState node)) in
  (h ≤ 20 →
     ∃ info, allocatePlaceholder node p =
               (Some (Binding info), (allocatePlaceholder node p).2) ∧
       placeholder info = candidateName h ∧
       paramMapping (wavespeedState (allocatePlaceholder node p).2) =
         <[p_name p := info]> (paramMapping (wavespeedState node)) ∧
       usedPlaceholders (wavespeedState (allocatePlaceholder node p).2) =
         {[candidateName h]} ∪ usedPlaceholders (wavespeedState node) ∧
       Pos.to_nat (nextPlaceholderIndex (wavespeedState (allocatePlaceholder node p).2)) =
         S h) ∧
  (20 < h → allocatePlaceholder node p = (None, node)).
Proof.
  intros Hc Hnew h.
  pose proof (Pos2Nat.is_pos (nextPlaceholderIndex (wavespeedState node))) as Hpos.
  unfold allocatePlaceholder. rewrite Hnew. fold h. split.
  - intros Hh. destruct (21 - h) as [|fuel] eqn:Hfuel; [lia|]. simpl.
    destruct (decide (candidateName h ∈ usedPlaceholders (wavespeedState node))) as [Hin|_].
    { apply Hc in Hin; [lia|]. unfold h. lia. }
    eexists. split; [reflexivity|]. simpl.
    rewrite SuccNat2Pos.id_succ. done.
  - intros Hh. replace (21 - h) with 0 by lia. reflexivity.
Qed.

Lemma allocate_consistent (node : Node) (p : Param) :
  poolConsistent node → poolConsistent (allocatePlaceholder node p).2.
Proof.
  intros (Hc & Hused & Hinj). split; [by apply allocate_contiguous|].
  destruct (lookup_mapping (paramMapping (wavespeedState node)) (p_name p))
    as [b|] eqn:Hm.
  { unfold allocatePlaceholder. rewrite Hm. simpl. split; assumption. }
  destruct (allocate_new_slot node p Hc Hm) as [Hfree Hfull].
  destruct (decide (Pos.to_nat (nextPlaceholderIndex (wavespeedState node)) ≤ 20))
    as [Hle|Hgt].
  - destruct (Hfree Hle) as (info & _ & Hph & Hmap & Hus & _).
    rewrite Hmap, Hus. split.
    + intros name i. destruct (decide (p_name p = name)) as [<-|Hne].
      * rewrite lookup_insert_eq. intros [= <-]. rewrite Hph.
        apply elem_of_union_l. by apply elem_of_singleton.
      * rewrite lookup_insert_ne by done. intros Hi. apply elem_of_union_r.
        by eapply Hused.
    + assert (placeholder info ∉ usedPlaceholders (wavespeedState node)) as Hnotin.
      { rewrite Hph. intros Hin. apply Hc in Hin; lia. }
      intros n1 n2 i1 i2.
      destruct (decide (p_name p = n1)) as [<-|Hne1];
        destruct (decide (p_name p = n2)) as [<-|Hne2];
        rewrite ?lookup_insert_eq, ?lookup_insert_ne by done; [done|..].
      * intros [= <-] H2 Heq. exfalso. apply Hnotin. rewrite Heq. by eapply Hused.
      * intros H1 [= <-] Heq. exfalso. apply Hnotin. rewrite <- Heq. by eapply Hused.
      * apply Hinj.
  - rewrite (Hfull ltac:(lia)). simpl. split; assumption.
Qed.

Lemma allocateAll_consistent (ps : list Param) (node : Node) :
  poolConsistent node → poolConsistent (allocateAll node ps).
Proof.
  revert node. induction ps as [|p ps IH]; intros node H; simpl; [done|].
  by apply IH, allocate_consistent.
Qed.

Lemma poolConsistent_cleared (node : Node) :
  pool_of node = (∅, ∅, 1%positive) → poolConsistent node.
Proof.
  intros Hpool. destruct (pool_of_eq _ _ _ _ Hpool) as (Hm & Hu & Hn).
  split; [by apply contiguous_of_pool|]. simpl. rewrite Hm. split.
  - intros name info. by rewrite lookup_empty.
  - intros n1 n2 i1 i2. by rewrite lookup_empty.
Qed.

(** X1.  From a cleared pool on, whatever is allocated, no two parameter names
    hold the same slot and every bound slot is marked used. *)
Theorem slots_never_shared (node : Node) (ps : list Param)
    (n1 n2 : string) (i1 i2 : PlaceholderInfo) :
  pool_of node = (∅, ∅, 1%positive) →
  paramMapping (wavespeedState (allocateAll node ps)) !! n1 = Some i1 →
  paramMapping (wavespeedState (allocateAll node ps)) !! n2 = Some i2 →
  placeholder i1 = placeholder i2 →
  n1 = n2 ∧ placeholder i1 ∈ usedPlaceholders (wavespeedState (allocateAll node ps)).
Proof.
  intros Hpool H1 H2 Heq.
  destruct (allocateAll_consistent ps node (poolConsistent_cleared node Hpool))
    as (_ & Hused & Hinj).
  split; [by eapply Hinj|by eapply Hused].
Qed.

Lemma allocate_keeps_binding (node : Node) (p : Param) (name : string)
    (info : PlaceholderInfo) :
  paramMapping (wavespeedState node) !! name = Some info →
  paramMapping (wavespeedState (allocatePlaceholder node p).2) !! name = Some info.
Proof.
  intros H. unfold allocatePlaceholder.
  destruct (lookup_mapping (paramMapping (wavespeedState node)) (p_name p))
    as [b|] eqn:Hm; [done|].
  apply lookup_mapping_None in Hm as [Hm _].
  destruct (scanPlaceholders _ _ _); [|done]. simpl.
  rewrite lookup_insert_ne; [done|]. intros Heq. rewrite Heq in Hm. congruence.
Qed.

Lemma allocateAll_keeps_binding (ps : list Param) (node : Node) (name : string)
    (info : PlaceholderInfo) :
  paramMapping (wavespeedState node) !! name = Some info →
  paramMapping (wavespeedState (allocateAll node ps)) !! name = Some info.
Proof.
  revert node. induction ps as [|p ps IH]; intros node H; simpl; [done|].
  by apply IH, allocate_keeps_binding.
Qed.

Lemma allocateAll_keeps_absent (ps : list Param) (node : Node) (name : string) :
  name ∉ p_name <$> ps →
  paramMapping (wavespeedState node) !! name = None →
  paramMapping (wavespeedState (allocateAll node ps)) !! name = None.
Proof.
  intros Hnot Hnone.
  destruct (paramMapping (wavespeedState (allocateAll node ps)) !! name) as [info|] eqn:H;
    [|done].
  apply allocateAll_binds_only in H as [H|(q & Hq & Hn)]; [congruence|].
  exfalso. apply Hnot. apply list_elem_of_fmap. by exists q.
Qed.

Lemma allocation_order_from (ps : list Param) (node : Node) (k : nat) (p : Param) :
  contiguous node →
  NoDup (p_name <$> ps) →
  (∀ q, q ∈ ps → lookup_mapping (paramMapping (wavespeedState node)) (p_name q) = None) →
  ps !! k = Some p →
  let h := Pos.to_nat (nextPlaceholderIndex (wavespeedState node)) in
  (h + k ≤ 20 →
     ∃ info, paramMapping (wavespeedState (allocateAll node ps)) !! p_name p = Some info ∧
             placeholder info = candidateName (h + k)) ∧
  (20 < h + k → paramMapping (wavespeedState (allocateAll node ps)) !! p_name p = None).
Proof.
  revert node k. induction ps as [|q ps IH]; intros node k Hc Hnd Hnew Hk; [done|].
  rewrite fmap_cons in Hnd. apply NoDup_cons in Hnd as [Hq Hnd].
  assert (lookup_mapping (paramMapping (wavespeedState node)) (p_name q) = None) as Hqnew
    by (apply Hnew, list_elem_of_here).
  destruct (allocate_new_slot node q Hc Hqnew) as [Hfree Hfull]. cbv zeta in *.
  set (h := Pos.to_nat (nextPlaceholderIndex (wavespeedState node))) in *.
  simpl allocateAll.
  destruct k as [|k].
  - simpl in Hk. injection Hk as ->. rewrite Nat.add_0_r. split.
    + intros Hle. destruct (Hfree Hle) as (info & _ & Hph & Hmap & _).
      exists info. split; [|done]. apply allocateAll_keeps_binding.
      rewrite Hmap. apply lookup_insert_eq.
    + intros Hgt. rewrite (Hfull Hgt). simpl. apply allocateAll_keeps_absent; [done|].
      by apply lookup_mapping_None in Hqnew as [Hqnew _].
  - simpl in Hk.
    assert (p ∈ ps) as Hp by (by eapply list_elem_of_lookup_2).
    destruct (decide (h ≤ 20)) as [Hle|Hgt].
    + destruct (Hfree Hle) as (info & _ & Hph & Hmap & _ & Hnext).
      destruct (IH (allocatePlaceholder node q).2 k) as [IH1 IH2];
        [by apply allocate_contiguous|done| |done|].
      { intros r Hr.
        destruct (lookup_mapping_None _ _ (Hnew r (list_elem_of_further _ _ _ Hr)))
          as [Hr1 Hr2].
        apply lookup_mapping_new; [|done]. rewrite Hmap, lookup_insert_ne; [done|].
        intros Heq. apply Hq. apply list_elem_of_fmap. by exists r. }
      rewrite Hnext in IH1, IH2.
      replace (h + S k) with (S h + k) by lia. by split.
    + rewrite (Hfull ltac:(lia)). simpl.
      destruct (IH node k) as [IH1 IH2]; [done|done| |done|].
      { intros r Hr. apply Hnew. by apply list_elem_of_further. }
      fold h in IH1, IH2. split; [lia|]. intros _. apply IH2. lia.
Qed.

(** X2.  From a cleared pool, parameters with distinct names, none of them a
    key of [Object.prototype], that are allocated one after the other get
    the slots in order: the first gets [param_1], the k-th [param_k] up to
    the 20th, and a later one gets no binding. *)
Theorem allocation_follows_order (node : Node) (ps : list Param) (k : nat) (p : Param) :
  pool_of node = (∅, ∅, 1%positive) →
  NoDup (p_name <$> ps) →
  Forall (λ q, inheritedKey (p_name q) = false) ps →
  ps !! k = Some p →
  (k < 20 →
     ∃ info, paramMapping (wavespeedState (allocateAll node ps)) !! p_name p = Some info ∧
             placeholder info = candidateName (S k)) ∧
  (20 ≤ k → paramMapping (wavespeedState (allocateAll node ps)) !! p_name p = None).
Proof.
  intros Hpool Hnd Hplain Hk.
  destruct (pool_of_eq _ _ _ _ Hpool) as (Hm & _ & Hn).
  destruct (allocation_order_from ps node k p) as [H1 H2];
    [by apply contiguous_of_pool|done| |done|].
  { intros q Hq. apply lookup_mapping_new; [rewrite Hm; apply lookup_empty|].
    by apply (proj1 (Forall_forall _ ps) Hplain). }
  rewrite Hn in H1, H2. simpl in H1, H2. split.
  - intros Hlt. apply H1. lia.
  - intros Hge. apply H2. lia.
Qed.

Lemma slots_never_shared_witness :
  "p3" = "p3" ∧
  "param_3" ∈ usedPlaceholders (wavespeedState (allocateAll freshNode twentyParams)).
Proof.
  apply (slots_never_shared freshNode twentyParams "p3" "p3"
           {| placeholder := "param_3"; pi_type := "string"; originalType := "STRING";
              pi_isArray := false; arrayItemType := None |}
           {| placeholder := "param_3"; pi_type := "string"; originalType := "STRING";
              pi_isArray := false; arrayItemType := None |});
    vm_compute; reflexivity.
Defined.

Lemma allocation_follows_order_witness :
  ∃ info, paramMapping (wavespeedState (allocateAll freshNode twentyParams)) !! "p7"
            = Some info ∧ placeholder info = "param_7".
Proof.
  apply (proj1 (allocation_follows_order freshNode twentyParams 6 (stringParam "p7")
                  eq_refl ltac:(apply (bool_decide_unpack _); vm_compute; exact I)
                  ltac:(apply (bool_decide_unpack _); vm_compute; exact I)
                  eq_refl)).
  lia.
Defined.

Lemma candidateName_is_placeholder (i : nat) :
  1 ≤ i ≤ 20 → is_placeholder_name (candidateName i) = true.
Proof.
  intros Hi.
  do 21 (destruct i as [|i]; [first [lia | vm_compute; reflexivity]|]). lia.
Qed.

(** X3.  A slot that [allocatePlaceholder] newly binds is one of [param_1] ...
    [param_20], a name that the visibility filter hides and that the
    rewriter takes for a direct placeholder connection. *)
Theorem allocated_slot_is_placeholder (node node' : Node) (p : Param)
    (info : PlaceholderInfo) :
  paramMapping (wavespeedState node) !! p_name p = None →
  allocatePlaceholder node p = (Some (Binding info), node') →
  (∃ i, 1 ≤ i ≤ 20 ∧ placeholder info = candidateName i) ∧
  is_placeholder_name (placeholder info) = true.
Proof.
  intros Hnew. unfold allocatePlaceholder, lookup_mapping. rewrite Hnew.
  destruct (inheritedKey (p_name p)); [done|].
  pose proof (Pos2Nat.is_pos (nextPlaceholderIndex (wavespeedState node))) as Hpos.
  destruct (scanPlaceholders _ _ _) as [i|] eqn:Hs; [|done].
  intros [= <- <-]. simpl. apply scan_some in Hs as (Hi & _ & _).
  assert (1 ≤ i ≤ 20) as Hi' by lia.
  split; [by exists i|by apply candidateName_is_placeholder].
Qed.

Lemma allocated_slot_is_placeholder_witness :
  (∃ i, 1 ≤ i ≤ 20 ∧ "param_1" = candidateName i) ∧
  is_placeholder_name "param_1" = true.
Proof.
  apply (allocated_slot_is_placeholder freshNode
           (allocatePlaceholder freshNode (stringParam "prompt")).2
           (stringParam "prompt")
           {| placeholder := "param_1"; pi_type := "string"; originalType := "STRING";
              pi_isArray := false; arrayItemType := None |});
    vm_compute; reflexivity.
Defined.

(** ** More on the collected values *)

Lemma collectWidget_values parseFloat (node : Node)
    (acc : JsObject JsValue * gmap string PlaceholderInfo) (w : Widget) :
  (collectWidget parseFloat node acc w).1 = acc.1 ∨
  ∃ name v, w_param_name w = Some name ∧ hasInputConnection node w = false ∧
            (collectWidget parseFloat node acc w).1 = obj_set acc.1 name v.
Proof.
  unfold collectWidget. destruct acc as [vals conn].
  destruct (w_param_name w) as [name|]; [|by left].
  destruct (negb (String.eqb name "") && negb (w_hidden w)); [|by left].
  destruct (hasInputConnection node w).
  { left. destruct (paramMapping (wavespeedState node) !! name) as [info|]; [|done].
    by destruct (negb (String.eqb (placeholder info) "")). }
  destruct (negb (is_nullish (w_value w))).
  - match goal with
    | |- context [if ?c && ?d then _ else _] => destruct (c && d)
    end.
    + destruct (w_required w); [|by left]. right. eauto.
    + match goal with
      | |- context [if ?c || ?d then _ else _] => destruct (c || d)
      end; [right; eauto|by left].
  - destruct (w_required w); [|by left]. right. eauto.
Qed.

Lemma collect_fold_absent parseFloat (node : Node) (ws : list Widget) (k : string)
    (acc : JsObject JsValue * gmap string PlaceholderInfo) :
  (∀ w, w ∈ ws → w_param_name w = Some k → hasInputConnection node w = true) →
  obj_get acc.1 k = None →
  obj_get (foldl (collectWidget parseFloat node) acc ws).1 k = None.
Proof.
  revert acc. induction ws as [|w ws IH]; intros acc Hw Hacc; simpl; [done|].
  apply IH.
  - intros w' Hin. apply Hw. by apply list_elem_of_further.
  - destruct (collectWidget_values parseFloat node acc w) as [->|(name & v & Hn & Hc & ->)];
      [done|].
    destruct (decide (name = k)) as [->|Hne].
    + rewrite (Hw w (list_elem_of_here _ _) Hn) in Hc. discriminate.
    + by rewrite obj_get_set_ne.
Qed.

Lemma JSON_stringify_absent (o : JsObject JsValue) (k : string) :
  obj_get o k = None → obj_get (JSON_stringify o) k = None.
Proof.
  unfold JSON_stringify. induction o as [|[k' v] o IH]; simpl; [done|].
  destruct (String.eqb_spec k' k) as [->|Hne]; [done|]. intros H.
  destruct (negb (is_undefined v)); simpl; [|by apply IH].
  destruct (String.eqb_spec k' k); [done|by apply IH].
Qed.

(** X4.  A parameter all of whose controls are wired has no entry in the
    collected values, nor in the [request_json] text recomputed from them. *)
Theorem wired_parameter_has_no_entry (parseFloat : string → option Q) (node : Node)
    (k : string) :
  (∀ w, w ∈ widgets node → w_param_name w = Some k → hasInputConnection node w = true) →
  obj_get (collectParameterValues parseFloat node).1 k = None ∧
  (hw_request_json (hiddenWidgets (wavespeedState (updateRequestJsonWidget parseFloat node)))
     ≫= λ o, obj_get o k) = None.
Proof.
  intros Hw.
  assert (obj_get (collectParameterValues parseFloat node).1 k = None) as H.
  { unfold collectParameterValues.
    pose proof (collect_fold_absent parseFloat node (widgets node) k ([], ∅) Hw eq_refl) as H.
    by destruct (foldl _ _ _). }
  split; [exact H|].
  unfold updateRequestJsonWidget.
  destruct (collectParameterValues parseFloat node) as [values node1]. simpl in *.
  by apply JSON_stringify_absent.
Qed.

(** The scenario node with a link on the visible port of [width]. *)
Definition widthWired : Node :=
  update_port 22 (in_set_link (Some 7%Z)) (selectedNode parseDigits scenarioSchema).

Lemma wired_parameter_has_no_entry_witness :
  obj_get (collectParameterValues parseDigits widthWired).1 "width" = None ∧
  (hw_request_json (hiddenWidgets (wavespeedState
      (updateRequestJsonWidget parseDigits widthWired)))
     ≫= λ o, obj_get o "width") = None.
Proof.
  apply (wired_parameter_has_no_entry parseDigits widthWired "width").
  apply (proj1 (Forall_forall
           (λ w, w_param_name w = Some "width" → hasInputConnection widthWired w = true)
           (widgets widthWired))).
  apply (bool_decide_unpack _). vm_compute. exact I.
Defined.

(** A shown control of the parameter [k] whose port is linked, [k] holding
    the binding [info] with a slot name. *)
Definition wiredControl (node : Node) (k : string) (info : PlaceholderInfo)
    (w : Widget) : Prop :=
  w_param_name w = Some k ∧ k ≠ "" ∧ w_hidden w = false ∧
  hasInputConnection node w = true ∧
  paramMapping (wavespeedState node) !! k = Some info ∧ placeholder info ≠ "".

Lemma collectWidget_connected parseFloat (node : Node)
    (acc : JsObject JsValue * gmap string PlaceholderInfo) (w : Widget) :
  (collectWidget parseFloat node acc w).2 = acc.2 ∧
    (∀ k info, ¬ wiredControl node k info w) ∨
  ∃ k info, wiredControl node k info w ∧
            (collectWidget parseFloat node acc w).2 = <[k := info]> acc.2.
Proof.
  unfold collectWidget, wiredControl. destruct acc as [vals conn]. cbn [fst snd].
  destruct (w_param_name w) as [name|] eqn:Hn;
    [|left; split; [done|intros k info (? & _); done]].
  destruct (String.eqb_spec name "") as [->|Hne]; cbn [negb andb].
  { left. split; [done|]. intros k info ([= <-] & ? & _). done. }
  destruct (w_hidden w) eqn:Hh; cbn [negb andb].
  { left. split; [done|]. intros k info (_ & _ & ? & _). done. }
  destruct (hasInputConnection node w) eqn:Hc.
  - destruct (paramMapping (wavespeedState node) !! name) as [info|] eqn:Hm.
    + destruct (String.eqb_spec (placeholder info) "") as [He|He]; cbn [negb].
      * left. split; [done|]. intros k info' ([= <-] & _ & _ & _ & Hm' & Hp).
        rewrite Hm in Hm'. injection Hm' as <-. done.
      * right. exists name, info. done.
    + left. split; [done|]. intros k info' ([= <-] & _ & _ & _ & Hm' & _).
      rewrite Hm in Hm'. done.
  - left. split.
    + destruct (negb (is_nullish (w_value w))).
      * match goal with
        | |- context [if ?c && ?d then _ else _] => destruct (c && d)
        end.
        -- by destruct (w_required w).
        -- match goal with
           | |- context [if ?c || ?d then _ else _] => destruct (c || d)
           end; done.
      * by destruct (w_required w).
    + intros k info (_ & _ & _ & ? & _). done.
Qed.

Lemma collect_fold_connected parseFloat (node : Node) (ws : list Widget)
    (acc : JsObject JsValue * gmap string PlaceholderInfo) (k : string)
    (info : PlaceholderInfo) :
  acc.2 ⊆ paramMapping (wavespeedState node) →
  (foldl (collectWidget parseFloat node) acc ws).2 !! k = Some info ↔
  acc.2 !! k = Some info ∨ ∃ w, w ∈ ws ∧ wiredControl node k info w.
Proof.
  revert acc. induction ws as [|w ws IH]; intros acc Hsub; simpl.
  { split; [by left|]. intros [H|(w & Hw & _)]; [done|]. by apply elem_of_nil in Hw. }
  destruct (collectWidget_connected parseFloat node acc w)
    as [[Heq Hno]|(k' & info' & Hw & Heq)].
  - rewrite IH by (by rewrite Heq). rewrite Heq. split.
    + intros [H|(w' & Hin & Hw')]; [by left|].
      right. exists w'. split; [by apply list_elem_of_further|done].
    + intros [H|(w' & Hin & Hw')]; [by left|].
      apply elem_of_cons in Hin as [->|Hin]; [by apply Hno in Hw'|].
      right. by exists w'.
  - assert (paramMapping (wavespeedState node) !! k' = Some info') as Hm
      by apply Hw.
    rewrite IH by (rewrite Heq; by apply insert_subseteq_l). rewrite Heq. split.
    + intros [H|(w' & Hin & Hw')].
      * destruct (decide (k' = k)) as [->|Hne].
        -- rewrite lookup_insert_eq in H. injection H as <-.
           right. exists w. split; [apply list_elem_of_here|done].
        -- rewrite lookup_insert_ne in H by done. by left.
      * right. exists w'. split; [by apply list_elem_of_further|done].
    + intros [H|(w' & Hin & Hw')].
      * left. destruct (decide (k' = k)) as [->|Hne].
        -- rewrite lookup_insert_eq. f_equal.
           pose proof (lookup_weaken _ _ _ _ H Hsub) as H'. congruence.
        -- by rewrite lookup_insert_ne.
      * apply elem_of_cons in Hin as [->|Hin].
        -- left. destruct Hw as (Hn1 & _). destruct Hw' as (Hn2 & _ & _ & _ & Hm2 & _).
           assert (k' = k) as -> by congruence.
           rewrite lookup_insert_eq. congruence.
        -- right. by exists w'.
Qed.

Lemma collected_connected_subset parseFloat (node : Node) :
  ∃ connected,
    connectedParams (wavespeedState (collectParameterValues parseFloat node).2) =
      Some connected ∧
    connected ⊆ paramMapping (wavespeedState node).
Proof.
  unfold collectParameterValues.
  pose proof (collect_fold_connected parseFloat node (widgets node) ([], ∅)) as H.
  destruct (foldl _ _ _) as [vals conn] eqn:Hf. cbn [fst snd] in *.
  exists conn. split; [done|].
  apply map_subseteq_spec. intros k info Hk.
  apply (H k info (map_empty_subseteq _)) in Hk as [Hk|(w & _ & Hw)]; [|apply Hw].
  by rewrite lookup_empty in Hk.
Qed.

(** X5.  The collection of the values records as connected exactly the
    parameters that a shown control with a linked port stands for and that
    hold a binding with a slot name, each with its binding. *)
Theorem connected_params_are_wired_bindings (parseFloat : string → option Q)
    (node : Node) :
  ∃ connected,
    connectedParams (wavespeedState (collectParameterValues parseFloat node).2) =
      Some connected ∧
    connected ⊆ paramMapping (wavespeedState node) ∧
    ∀ k info, connected !! k = Some info ↔
              ∃ w, w ∈ widgets node ∧ wiredControl node k info w.
Proof.
  unfold collectParameterValues.
  pose proof (collect_fold_connected parseFloat node (widgets node) ([], ∅)) as H.
  destruct (foldl _ _ _) as [vals conn] eqn:Hf. cbn [fst snd] in *.
  exists conn. split; [done|].
  assert (∀ k info, conn !! k = Some info ↔
            ∃ w, w ∈ widgets node ∧ wiredControl node k info w) as Hiff.
  { intros k info. rewrite H by apply map_empty_subseteq.
    rewrite lookup_empty. split; [intros [?|?]; done|by right]. }
  split; [|exact Hiff].
  apply map_subseteq_spec. intros k info Hk.
  apply Hiff in Hk as (w & _ & Hw). apply Hw.
Qed.

(** X6.  The mapping of the state collected from the live node is the stored
    mapping: merging the connected parameters into it changes nothing.  No
    state is collected without a model or without parameters. *)
Theorem collected_mapping_is_stored_mapping (parseFloat : string → option Q)
    (graphNode : Node) :
  match (collectDynamicStateFromGraphNode parseFloat graphNode).1 with
  | Some dynamicState =>
      ds_paramMapping dynamicState = paramMapping (wavespeedState graphNode) ∧
      ds_modelId dynamicState = modelId (wavespeedState graphNode) ∧
      ds_modelId dynamicState ≠ "" ∧
      ds_parameters dynamicState = parameters (wavespeedState graphNode) ∧
      ds_parameters dynamicState ≠ [] ∧
      ds_parameterValues dynamicState = (collectParameterValues parseFloat graphNode).1
  | None =>
      modelId (wavespeedState graphNode) = "" ∨ parameters (wavespeedState graphNode) = []
  end.
Proof.
  unfold collectDynamicStateFromGraphNode.
  destruct (String.eqb_spec (modelId (wavespeedState graphNode)) "") as [He|Hne];
    cbn [orb fst]; [by left|].
  destruct (parameters (wavespeedState graphNode)) as [|p ps] eqn:Hp; cbn [length Nat.eqb].
  { by right. }
  change (S (length ps) =? 0) with false. cbv iota.
  destruct (collected_connected_subset parseFloat graphNode)
    as (connected & Hc & Hsub).
  destruct (collectParameterValues parseFloat graphNode) as [vals node1].
  cbn [fst snd] in *. rewrite Hc. cbn [ds_paramMapping ds_modelId ds_parameters
    ds_parameterValues].
  repeat split; try done.
  by apply map_subseteq_union.
Qed.

(** X7.  After the handler ran for a connection event on a dynamic port that the
    host has already updated, the slot behind the port carries the link of
    the port; the controls and the state are left as they were, and so is
    every other port. *)
Theorem placeholder_follows_connection (node : Node) (isConnected : bool) (link : Z)
    (slot placeholderInput : nat) (io : InputPort) :
  ports node !! slot = Some io →
  in_dynamic io = true →
  in_placeholder_input io = Some placeholderInput →
  is_Some (ports node !! placeholderInput) →
  in_link io = (if isConnected then Some link else None) →
  let node' := onConnectionsChange true isConnected (Some link) (Some slot) node in
  (in_link <$> ports node' !! placeholderInput) = Some (in_link io) ∧
  (in_link <$> ports node' !! slot) = Some (in_link io) ∧
  (∀ id, id ≠ placeholderInput → ports node' !! id = ports node !! id) ∧
  widgets node' = widgets node ∧ wavespeedState node' = wavespeedState node ∧
  inputs node' = inputs node.
Proof.
  intros Hio Hdyn Hph [p Hp] Hlink node'. subst node'.
  unfold onConnectionsChange. rewrite Hio, Hdyn, Hph.
  unfold update_port, with_ports. cbn.
  split; [|split; [|split; [|done]]].
  - rewrite lookup_alter_eq, Hp. cbn. by rewrite Hlink.
  - destruct (decide (slot = placeholderInput)) as [->|Hne].
    + rewrite lookup_alter_eq, Hp. cbn. by rewrite Hlink.
    + rewrite lookup_alter_ne by done. by rewrite Hio.
  - intros id Hne. by rewrite lookup_alter_ne.
Qed.

Lemma placeholder_follows_connection_witness :
  let node' := onConnectionsChange true true (Some 7%Z) (Some 22) widthWired in
  (in_link <$> ports node' !! 2) = Some (Some 7%Z) ∧
  (in_link <$> ports node' !! 22) = Some (Some 7%Z) ∧
  (∀ id, id ≠ 2 → ports node' !! id = ports widthWired !! id) ∧
  widgets node' = widgets widthWired ∧ wavespeedState node' = wavespeedState widthWired ∧
  inputs node' = inputs widthWired.
Proof.
  apply (placeholder_follows_connection widthWired true 7%Z 22 2
           {| in_name := "width"; in_type := "NUMBER"; in_link := Some 7%Z;
              in_hidden := false; in_dynamic := true; in_param_name := Some "width";
              in_widget_pair := Some 7; in_placeholder := MarkSlot "param_3";
              in_placeholder_input := Some 2 |});
    [vm_compute; reflexivity | reflexivity | reflexivity
    | vm_compute; eexists; reflexivity | reflexivity].
Defined.

(** ** Serialisation *)

(** X8.  The blobs that [serialize] writes, handed to [configure] on any node,
    make [restoreModelCacheIfAvailable] install the model, the category, the
    descriptors, the values and the mapping of the serialised node.  The
    dynamic state is always there when the model cache is, so the branch that
    rebuilds a schema for the process-wide cache is not taken, and the used
    slots and the scan hint of the receiving node stay as they were. *)
Theorem serialize_then_restore (now : Z) (hostData : list (option SerializedPort))
    (node target : Node) (s : Session) :
  modelId (wavespeedState node) ≠ "" →
  let data := serialize now hostData node in
  let loaded := configure (ser_dynamic_state data) (ser_model_cache data) target in
  ∃ restored,
    restoreModelCacheIfAvailable loaded s = (true, restored, s) ∧
    modelId (wavespeedState restored) = modelId (wavespeedState node) ∧
    category (wavespeedState restored) = category (wavespeedState node) ∧
    parameters (wavespeedState restored) = parameters (wavespeedState node) ∧
    parameterValues (wavespeedState restored) = parameterValues (wavespeedState node) ∧
    paramMapping (wavespeedState restored) = paramMapping (wavespeedState node) ∧
    usedPlaceholders (wavespeedState restored) = usedPlaceholders (wavespeedState target) ∧
    nextPlaceholderIndex (wavespeedState restored) =
      nextPlaceholderIndex (wavespeedState target) ∧
    widgets restored = widgets target ∧ ports restored = ports target.
Proof.
  intros Hm data loaded. subst data loaded.
  unfold serialize, configure, restoreModelCacheIfAvailable. cbn.
  destruct (String.eqb_spec (modelId (wavespeedState node)) "") as [He|_]; [done|].
  cbn. eexists. split; [reflexivity|]. cbn. repeat split.
Qed.

(** Without a model nothing is written: both blobs are absent. *)
Lemma serialize_without_model (now : Z) (hostData : list (option SerializedPort))
    (node : Node) :
  modelId (wavespeedState node) = "" →
  ser_dynamic_state (serialize now hostData node) = None ∧
  ser_model_cache (serialize now hostData node) = None.
Proof. intros H. unfold serialize. cbn. by rewrite H. Qed.

(** [data.inputs[j]], a hole reading as no entry. *)
Definition serializedAt (l : list (option SerializedPort)) (j : nat)
  : option SerializedPort :=
  l !! j ≫= id.

(** The link that the loop captures for a tracked port. *)
Definition capturedLink (node : Node) (id : nat) : option Z :=
  match ports node !! id with
  | Some p =>
      match in_link p with
      | Some link => if (link =? 0)%Z then None else Some link
      | None => None
      end
  | None => None
  end.

Lemma storeLink_at (i : nat) (link : Z) (l : list (option SerializedPort)) :
  sp_link <$> serializedAt (storeLink i link l) i = Some (Some link).
Proof.
  unfold serializedAt. revert l. induction i as [|i IH]; intros [|[x|] l]; cbn; try done;
    apply IH.
Qed.

Lemma storeLink_other (i j : nat) (link : Z) (l : list (option SerializedPort)) :
  j ≠ i → serializedAt (storeLink i link l) j = serializedAt l j.
Proof.
  unfold serializedAt. revert j l.
  induction i as [|i IH]; intros [|j] [|x l] Hne; cbn; try done.
  all: try (by destruct x).
  all: try (destruct j; done).
  all: apply IH; lia.
Qed.

Lemma captureLinks_before (node : Node) (ids : list nat) (i j : nat)
    (l : list (option SerializedPort)) :
  j < i ∨ i + length ids ≤ j → serializedAt (captureLinks node i ids l) j = serializedAt l j.
Proof.
  revert i l. induction ids as [|id ids IH]; intros i l Hj; cbn [captureLinks]; [done|].
  cbn [length] in Hj. rewrite IH by lia.
  destruct (ports node !! id) as [[? ? [link|] ? ? ? ? ? ?]|]; try done.
  destruct (link =? 0)%Z; [done|]. apply storeLink_other. lia.
Qed.

Lemma captureLinks_at (node : Node) (ids : list nat) (i k : nat) (id : nat)
    (l : list (option SerializedPort)) :
  ids !! k = Some id →
  match capturedLink node id with
  | Some link => sp_link <$> serializedAt (captureLinks node i ids l) (i + k) = Some (Some link)
  | None => serializedAt (captureLinks node i ids l) (i + k) = serializedAt l (i + k)
  end.
Proof.
  revert i k l. induction ids as [|id' ids IH]; intros i k l Hk; [done|].
  destruct k as [|k]; cbn in Hk.
  - injection Hk as ->. cbn [captureLinks]. rewrite Nat.add_0_r.
    unfold capturedLink.
    destruct (ports node !! id) as [[? ? [link|] ? ? ? ? ? ?]|]; cbn;
      try (by rewrite captureLinks_before by lia).
    destruct (link =? 0)%Z; rewrite captureLinks_before by lia; [done|].
    apply storeLink_at.
  - cbn [captureLinks]. replace (i + S k) with (S i + k) by lia.
    specialize (IH (S i) k). 
    match goal with |- context [captureLinks node (S i) ids ?l'] => specialize (IH l' Hk) end.
    destruct (capturedLink node id); [exact IH|]. rewrite IH.
    destruct (ports node !! id') as [[? ? [link|] ? ? ? ? ? ?]|]; try done.
    destruct (link =? 0)%Z; [done|]. apply storeLink_other. lia.
Qed.

(** X9.  The link of the port that the tracking array holds at index [k] is
    written at index [k] of the serialised [inputs], whatever the host put
    there; where the tracked port has no link, and past the end of the
    tracking array, the host's entry stays. *)
Theorem serialize_captures_links (now : Z) (hostData : list (option SerializedPort))
    (node : Node) (k : nat) :
  match wavespeed_allInputs node !! k with
  | Some id =>
      match capturedLink node id with
      | Some link =>
          sp_link <$> serializedAt (ser_inputs (serialize now hostData node)) k =
            Some (Some link)
      | None =>
          serializedAt (ser_inputs (serialize now hostData node)) k =
            serializedAt hostData k
      end
  | None =>
      serializedAt (ser_inputs (serialize now hostData node)) k = serializedAt hostData k
  end.
Proof.
  unfold serialize. cbn [ser_inputs].
  destruct (wavespeed_allInputs node !! k) as [id|] eqn:Hk.
  - apply (captureLinks_at node _ 0 k id hostData Hk).
  - apply lookup_ge_None in Hk. apply captureLinks_before. lia.
Qed.

Lemma serialize_then_restore_witness :
  let node := selectedNode parseDigits scenarioSchema in
  let data := serialize 0 [] node in
  let loaded := configure (ser_dynamic_state data) (ser_model_cache data) freshNode in
  ∃ restored,
    restoreModelCacheIfAvailable loaded emptySession = (true, restored, emptySession) ∧
    modelId (wavespeedState restored) = modelId (wavespeedState node) ∧
    category (wavespeedState restored) = category (wavespeedState node) ∧
    parameters (wavespeedState restored) = parameters (wavespeedState node) ∧
    parameterValues (wavespeedState restored) = parameterValues (wavespeedState node) ∧
    paramMapping (wavespeedState restored) = paramMapping (wavespeedState node) ∧
    usedPlaceholders (wavespeedState restored) = usedPlaceholders (wavespeedState freshNode) ∧
    nextPlaceholderIndex (wavespeedState restored) =
      nextPlaceholderIndex (wavespeedState freshNode) ∧
    widgets restored = widgets freshNode ∧ ports restored = ports freshNode.
Proof.
  apply (serialize_then_restore 0 [] (selectedNode parseDigits scenarioSchema) freshNode
           emptySession).
  vm_compute. discriminate.
Defined.

(** ** More on the parser *)

Lemma parseLoop_sound (props : list (string * SchemaProp)) (requiredNames order : list string)
    (p : Param) :
  p ∈ parseLoop props requiredNames order →
  ∃ prop, p_name p ∈ order ∧ lookup_prop props (p_name p) = Some prop ∧
          prop_dropped prop = false ∧ p = makeParam requiredNames (p_name p) prop.
Proof.
  induction order as [|propName rest IH]; cbn [parseLoop]; intros Hp.
  { by apply elem_of_nil in Hp. }
  assert (p ∈ parseLoop props requiredNames rest →
          ∃ prop, p_name p ∈ propName :: rest ∧ lookup_prop props (p_name p) = Some prop ∧
                  prop_dropped prop = false ∧ p = makeParam requiredNames (p_name p) prop)
    as Hrest.
  { intros H. destruct (IH H) as (prop & Hin & ?). exists prop.
    split; [by apply list_elem_of_further|done]. }
  destruct (lookup_prop props propName) as [prop|] eqn:Hl; [|by apply Hrest].
  destruct (prop_dropped prop) eqn:Hd; [by apply Hrest|].
  apply elem_of_cons in Hp as [->|Hp]; [|by apply Hrest].
  exists prop. cbn [p_name makeParam]. split; [apply list_elem_of_here|done].
Qed.

Lemma mapJsonSchemaType_range (prop : SchemaProp) :
  mapJsonSchemaType prop ∈ ["STRING"; "FLOAT"; "INT"; "BOOLEAN"; "COMBO"; "DICT"].
Proof.
  unfold mapJsonSchemaType. destruct (prop_enum prop); [set_solver|].
  destruct (prop_type prop) as [t|]; [|set_solver].
  repeat (match goal with
          | |- context [match ?s with EmptyString => _ | String _ _ => _ end] =>
              destruct s as [|[[] [] [] [] [] [] [] []] ?]
          end; try (apply list_elem_of_here)).
  all: set_solver.
Qed.

(** X10.  Every descriptor that the parser yields is built from what
    [properties[name]] finds under a name of the ordering: a declared
    property, or, for an undeclared key of [Object.prototype], the inherited
    member, which reads as a property without fields; and what it finds is
    neither disabled nor hidden.  The descriptor is required exactly when
    the schema lists its name as required; it carries options only as a
    [COMBO], and then at least one.  For a schema whose properties have
    plain types, its type is one of six, and it is refused a port exactly
    when its type is [COMBO] or [DICT]. *)
Theorem parsed_descriptor_sound (inputSchema : InputSchema)
    (props : list (string * SchemaProp)) (p : Param) :
  properties inputSchema = Some props →
  plainTypes inputSchema →
  p ∈ parseModelParameters inputSchema →
  (∃ prop, lookup_prop props (p_name p) = Some prop ∧ prop_dropped prop = false ∧
           ((p_name p, prop) ∈ props ∨
            (¬ (p_name p ∈ props.*1) ∧ inheritedKey (p_name p) = true ∧
             prop = inheritedMember)) ∧
           plainType prop = true ∧
           p = makeParam (default [] (required inputSchema)) (p_name p) prop) ∧
  p_name p ∈ parseOrder inputSchema props ∧
  p_type p ∈ ["STRING"; "FLOAT"; "INT"; "BOOLEAN"; "COMBO"; "DICT"] ∧
  p_displayName p = p_name p ∧
  (p_required p = true ↔ p_name p ∈ default [] (required inputSchema)) ∧
  (∀ options, p_options p = Some options → options ≠ [] ∧ p_type p = "COMBO") ∧
  (shouldCreateInputPort p = false ↔ p_type p = "COMBO" ∨ p_type p = "DICT").
Proof.
  intros Hprops Hplain Hp. unfold parseModelParameters in Hp. rewrite Hprops in Hp.
  apply parseLoop_sound in Hp as (prop & Hord & Hl & Hd & Hmk).
  assert (p_type p ∈ ["STRING"; "FLOAT"; "INT"; "BOOLEAN"; "COMBO"; "DICT"]) as Hty.
  { rewrite Hmk. cbn [p_type makeParam].
    destruct (prop_enum prop) as [[|e es]|] eqn:He; try apply mapJsonSchemaType_range.
    set_solver. }
  split.
  { exists prop. split; [done|]. split; [done|].
    pose proof (lookup_prop_Some _ _ _ Hl) as Hfound. split; [exact Hfound|].
    split; [|done].
    destruct Hfound as [Hin|(_ & _ & ->)]; [|reflexivity].
    unfold plainTypes in Hplain. rewrite Hprops in Hplain.
    exact (proj1 (Forall_forall (λ kv, plainType kv.2 = true) props) Hplain _ Hin). }
  split; [done|]. split; [done|].
  split; [by rewrite Hmk|]. split.
  { rewrite Hmk at 1. cbn [p_required makeParam]. apply bool_decide_eq_true. }
  split.
  { intros options. rewrite Hmk. cbn [p_options p_type makeParam].
    destruct (prop_enum prop) as [[|e es]|]; try done. by intros [= <-]. }
  unfold shouldCreateInputPort. rewrite bool_decide_eq_false.
  clear -Hty. generalize dependent (p_type p). intros t Hty.
  repeat (apply elem_of_cons in Hty as [->|Hty]); [..|by apply elem_of_nil in Hty].
  all: split; [intros H|intros [H|H] H'].
  all: try (exfalso; apply H; set_solver).
  all: try discriminate.
  all: try (by left). all: try (by right).
  all: repeat (apply elem_of_cons in H' as [H'|H']; [discriminate|]).
  all: by apply elem_of_nil in H'.
Qed.

Lemma parsed_descriptor_sound_witness :
  let p := makeParam ["prompt"] "seed" (plainProp "integer" (JNum (-1))) in
  p_type p ∈ ["STRING"; "FLOAT"; "INT"; "BOOLEAN"; "COMBO"; "DICT"] ∧
  (shouldCreateInputPort p = false ↔ p_type p = "COMBO" ∨ p_type p = "DICT").
Proof.
  destruct (parsed_descriptor_sound scenarioSchema (default [] (properties scenarioSchema))
              (makeParam ["prompt"] "seed" (plainProp "integer" (JNum (-1)))))
    as (_ & _ & Hty & _ & _ & _ & Hport).
  - reflexivity.
  - apply (bool_decide_unpack _). vm_compute. exact I.
  - apply (list_elem_of_lookup_2 _ 1). vm_compute. reflexivity.
  - split; [exact Hty|exact Hport].
Defined.

(** X11.  Cleaning a default is idempotent, gives back the default or the empty
    text, keeps [undefined] and [null], and leaves no other default than the
    empty text to a parameter whose name speaks of a medium or of a text. *)
Theorem clean_default_idempotent (defaultValue : JsValue) (propName : string) :
  cleanDefaultValue (cleanDefaultValue defaultValue propName) propName =
    cleanDefaultValue defaultValue propName ∧
  (cleanDefaultValue defaultValue propName = defaultValue ∨
   cleanDefaultValue defaultValue propName = JStr "") ∧
  (is_nullish (cleanDefaultValue defaultValue propName) = is_nullish defaultValue) ∧
  (Exists (λ word, includes (toLowerCase propName) word = true)
     ["image"; "video"; "audio"; "url"; "prompt"; "text"; "description"] →
   is_nullish defaultValue = false →
   cleanDefaultValue defaultValue propName = JStr "").
Proof.
  unfold cleanDefaultValue.
  destruct (is_nullish defaultValue) eqn:Hn.
  { rewrite Hn. repeat split; try done. by left. }
  set (n := toLowerCase propName).
  destruct (includes n "image") eqn:H1, (includes n "video") eqn:H2,
    (includes n "audio") eqn:H3, (includes n "url") eqn:H4,
    (includes n "prompt") eqn:H5, (includes n "text") eqn:H6,
    (includes n "description") eqn:H7; cbn [orb is_nullish];
    rewrite ?Hn; cbn [orb is_nullish].
  all: repeat split; try done; try (by left); try (by right).
  intros Hex _. exfalso.
  repeat (apply Exists_cons in Hex as [Hex|Hex]; [congruence|]).
  by apply Exists_nil in Hex.
Qed.

(** ** Build order *)

(** The rank that the comparator of the sort orders by: the port priority
    first, a required parameter before an optional one of the same priority. *)
Definition buildRank (p : Param) : Z :=
  (2 * getInputPortPriority p + (if p_required p then 1 else 0))%Z.

Lemma comparePriority_rank (a b : Param) :
  (comparePriority a b ≤ 0)%Z ↔ (buildRank b ≤ buildRank a)%Z.
Proof.
  unfold comparePriority, buildRank.
  destruct (Z.eqb_spec (getInputPortPriority a) (getInputPortPriority b)) as [->|Hne];
    cbn [negb].
  - destruct (p_required a), (p_required b); cbn; lia.
  - destruct (p_required a), (p_required b); lia.
Qed.

Lemma insertSorted_perm (x : Param) (l : list Param) : insertSorted x l ≡ₚ x :: l.
Proof.
  induction l as [|y l IH]; cbn; [done|].
  destruct (comparePriority x y <=? 0)%Z; [done|].
  rewrite IH. apply Permutation_swap.
Qed.

Lemma sortByPriority_perm (l : list Param) : sortByPriority l ≡ₚ l.
Proof.
  unfold sortByPriority. induction l as [|x l IH]; cbn; [done|].
  by rewrite insertSorted_perm, IH.
Qed.

Definition rankOrdered (a b : Param) : Prop := (buildRank b ≤ buildRank a)%Z.

Lemma insertSorted_sorted (x : Param) (l : list Param) :
  StronglySorted rankOrdered l → StronglySorted rankOrdered (insertSorted x l).
Proof.
  induction l as [|y l IH]; intros Hs; cbn.
  { constructor; [constructor|constructor]. }
  apply StronglySorted_inv in Hs as [Hs Hy].
  destruct (Z.leb_spec (comparePriority x y) 0) as [Hle|Hgt].
  - apply comparePriority_rank in Hle.
    constructor; [by constructor|]. constructor; [done|].
    eapply Forall_impl; [exact Hy|]. unfold rankOrdered in *. cbn. intros z Hz. lia.
  - assert (¬ (comparePriority x y ≤ 0)%Z) as Hn by lia.
    rewrite comparePriority_rank in Hn.
    constructor; [by apply IH|].
    apply Forall_forall. intros z Hz.
    rewrite insertSorted_perm in Hz.
    apply elem_of_cons in Hz as [->|Hz].
    + unfold rankOrdered. lia.
    + rewrite Forall_forall in Hy. by apply Hy.
Qed.

Lemma sortByPriority_sorted (l : list Param) : StronglySorted rankOrdered (sortByPriority l).
Proof.
  unfold sortByPriority. induction l as [|x l IH]; cbn; [constructor|].
  by apply insertSorted_sorted.
Qed.

(** The sort is stable: parameters of one rank keep their order. *)
Lemma insertSorted_stable (r : Z) (x : Param) (l : list Param) :
  List.filter (λ p, (buildRank p =? r)%Z) (insertSorted x l) =
  List.filter (λ p, (buildRank p =? r)%Z) (x :: l).
Proof.
  induction l as [|y l IH]; [done|]. cbn [insertSorted].
  destruct (Z.leb_spec (comparePriority x y) 0) as [Hle|Hgt]; [done|].
  assert (¬ (comparePriority x y ≤ 0)%Z) as Hn by lia.
  rewrite comparePriority_rank in Hn.
  cbn [List.filter] in *. rewrite IH.
  destruct (Z.eqb_spec (buildRank y) r) as [Hy|Hy],
    (Z.eqb_spec (buildRank x) r) as [Hx|Hx]; try done. lia.
Qed.

Lemma sortByPriority_stable (r : Z) (l : list Param) :
  List.filter (λ p, (buildRank p =? r)%Z) (sortByPriority l) =
  List.filter (λ p, (buildRank p =? r)%Z) l.
Proof.
  unfold sortByPriority. induction l as [|x l IH]; [done|]. cbn [fold_right].
  rewrite insertSorted_stable. cbn [List.filter]. by rewrite IH.
Qed.

Lemma filter_partition_perm {A} (f : A → bool) (l : list A) :
  List.filter f l ++ List.filter (λ x, negb (f x)) l ≡ₚ l.
Proof.
  induction l as [|x l IH]; cbn; [done|].
  destruct (f x); cbn.
  - by rewrite IH.
  - rewrite <- Permutation_middle. by rewrite IH.
Qed.

Lemma filter_rank_required_nil (r : Z) (x : Param) (l : list Param) :
  buildRank x = r → p_required x = false →
  List.filter (λ p, (buildRank p =? r)%Z)
    (List.filter shouldCreateInputPort (List.filter p_required l)) = [].
Proof.
  intros Hx Hreq. induction l as [|y l IH]; [done|]. cbn [List.filter].
  destruct (p_required y) eqn:Hy; [|done]. cbn [List.filter].
  destruct (shouldCreateInputPort y); [|done]. cbn [List.filter].
  destruct (Z.eqb_spec (buildRank y) r) as [Hr|Hr]; [|done].
  exfalso. unfold buildRank in *. rewrite Hy in Hr. rewrite Hreq in Hx. lia.
Qed.

Lemma filter_rank_split (r : Z) (l : list Param) :
  List.filter (λ p, (buildRank p =? r)%Z)
    (List.filter shouldCreateInputPort
       (List.filter p_required l ++ List.filter (λ p, negb (p_required p)) l)) =
  List.filter (λ p, (buildRank p =? r)%Z) (List.filter shouldCreateInputPort l).
Proof.
  rewrite !List.filter_app.
  induction l as [|x l IH]; [done|]. cbn [List.filter].
  destruct (p_required x) eqn:Hreq; cbn [negb List.filter].
  - destruct (shouldCreateInputPort x); [|done]. cbn [List.filter].
    destruct (buildRank x =? r)%Z; [|done]. cbn [app]. by rewrite IH.
  - destruct (shouldCreateInputPort x); [|done]. cbn [List.filter].
    destruct (Z.eqb_spec (buildRank x) r) as [Hr|Hr]; [|done].
    rewrite <- IH. by rewrite (filter_rank_required_nil r x l Hr Hreq).
Qed.

(** X12.  The controls are built for every descriptor once.  The parameters that
    get a port come first, by decreasing rank and, within a rank, in the
    order of the descriptor list; the others follow, the required ones first
    and otherwise in the order of the descriptor list. *)
Theorem build_order_by_rank (params : list Param) :
  sortedParams params ≡ₚ params ∧
  ∃ wired others,
    sortedParams params = wired ++ others ∧
    wired ≡ₚ List.filter shouldCreateInputPort params ∧
    StronglySorted rankOrdered wired ∧
    (∀ r, List.filter (λ p, (buildRank p =? r)%Z) wired =
          List.filter (λ p, (buildRank p =? r)%Z)
            (List.filter shouldCreateInputPort params)) ∧
    others = List.filter (λ p, negb (shouldCreateInputPort p))
               (List.filter p_required params ++
                List.filter (λ p, negb (p_required p)) params).
Proof.
  unfold sortedParams.
  set (allParams := List.filter p_required params ++
                    List.filter (λ p, negb (p_required p)) params).
  assert (allParams ≡ₚ params) as Hall by apply filter_partition_perm.
  split.
  { rewrite sortByPriority_perm. rewrite filter_partition_perm. exact Hall. }
  eexists _, _. split; [reflexivity|].
  split; [|split; [apply sortByPriority_sorted|split; [|reflexivity]]].
  - rewrite sortByPriority_perm. subst allParams.
    rewrite List.filter_app.
    rewrite <- (filter_partition_perm p_required (List.filter shouldCreateInputPort params)).
    apply Permutation_app; apply Permutation_refl'.
    + clear. induction params as [|x l IH]; cbn; [done|].
      destruct (p_required x) eqn:H1, (shouldCreateInputPort x) eqn:H2; cbn;
        rewrite ?H1, ?H2; cbn; by rewrite ?IH.
    + clear. induction params as [|x l IH]; cbn; [done|].
      destruct (p_required x) eqn:H1, (shouldCreateInputPort x) eqn:H2; cbn;
        rewrite ?H1, ?H2; cbn; by rewrite ?IH.
  - intros r. rewrite sortByPriority_stable. subst allParams. apply filter_rank_split.
Qed.

(** X13.  After a model is selected whose properties have plain types, when
    the size of the built node can be computed and no parameter that gets a
    port is named like a key of [Object.prototype], the parameters that get
    a port hold the slots in build order: the k-th of them (from 0) holds
    [param_(k+1)] while k is below 20, and a later one holds no slot. *)
Theorem switch_binds_in_build_order (parseFloat : string → option Q) (node : Node)
    (modelDetail : option ModelDetail) (k : nat) (p : Param) :
  plainDetail modelDetail →
  sizeComputed parseFloat node modelDetail →
  NoDup (p_name <$> switchedParams node modelDetail) →
  Forall (λ q, inheritedKey (p_name q) = false) (switchedParams node modelDetail) →
  switchedParams node modelDetail !! k = Some p →
  let switched := updateModelParameters parseFloat node modelDetail in
  (k < 20 →
     ∃ info, paramMapping (wavespeedState switched) !! p_name p = Some info ∧
             placeholder info = candidateName (S k)) ∧
  (20 ≤ k → paramMapping (wavespeedState switched) !! p_name p = None).
Proof.
  intros _ Hsize Hnd Hplain Hk switched. subst switched.
  pose proof (pool_switched parseFloat node modelDetail Hsize) as Hpool.
  destruct (pool_of_eq _ _ _ _ Hpool) as (-> & _ & _).
  pose proof (pool_clearModelParameters parseFloat node) as Hclear.
  destruct (pool_of_eq _ _ _ _ Hclear) as (Hm & _ & Hn).
  destruct (allocation_order_from (switchedParams node modelDetail)
              (clearModelParameters parseFloat node) k p) as [H1 H2];
    [by apply contiguous_of_pool|done| |done|].
  { intros q Hq. apply lookup_mapping_new; [rewrite Hm; apply lookup_empty|].
    by apply (proj1 (Forall_forall _ _) Hplain). }
  rewrite Hn in H1, H2. cbn in H1, H2. split.
  - intros Hlt. apply H1. lia.
  - intros Hge. apply H2. lia.
Qed.

Lemma switch_binds_in_build_order_witness :
  ∃ info, paramMapping (wavespeedState (selectedNode parseDigits scenarioSchema)) !! "seed"
            = Some info ∧ placeholder info = "param_2".
Proof.
  apply (proj1 (switch_binds_in_build_order parseDigits
                  (with_state (set_modelId "m") freshNode)
                  (Some {| input_schema := Some scenarioSchema |}) 1
                  (makeParam ["prompt"] "seed" (plainProp "integer" (JNum (-1))))
                  ltac:(apply (bool_decide_unpack _); vm_compute; exact I)
                  ltac:(vm_compute; eexists; reflexivity)
                  ltac:(apply (bool_decide_unpack _); vm_compute; exact I)
                  ltac:(apply (bool_decide_unpack _); vm_compute; exact I)
                  eq_refl)).
  lia.
Defined.

(** ** More on the execution-time rewriter *)

(** Every binding of the mapping names a slot of the placeholder form. *)
Definition slotNamed (paramMap : gmap string PlaceholderInfo) : Prop :=
  map_Forall (λ _ info, is_placeholder_name (placeholder info) = true) paramMap.

(** Connections under distinct keys of the placeholder form. *)
Definition settled (cs : JsObject InputValue) : Prop :=
  Forall (λ e : string * InputValue,
            is_placeholder_name e.1 = true ∧ isConnection e.2 = true) cs ∧
  NoDup cs.*1.

(** The three entries that the rewrite starts from. *)
Definition fixedInputs (modelId_ : string) (requestJson : JsObject JsValue)
    (paramMap : gmap string PlaceholderInfo) : JsObject InputValue :=
  [("model_id", IvValue (JStr modelId_)); ("request_json", IvRequestJson requestJson);
   ("param_map", IvParamMap paramMap)].

Lemma obj_get_None_keys {V} (o : JsObject V) (k : string) :
  obj_get o k = None ↔ k ∉ o.*1.
Proof.
  induction o as [|[k' v] o IH]; cbn.
  - split; [intros _; apply not_elem_of_nil|done].
  - destruct (String.eqb_spec k' k) as [->|Hne].
    + split; [done|]. intros H. exfalso. apply H. apply list_elem_of_here.
    + rewrite IH. rewrite not_elem_of_cons. split; [by intros ?|by intros [_ ?]].
Qed.

Lemma obj_set_app_r {V} (a b : JsObject V) (k : string) (v : V) :
  obj_get a k = None → obj_set (a ++ b) k v = a ++ obj_set b k v.
Proof.
  induction a as [|[k' v'] a IH]; cbn; [done|].
  destruct (String.eqb_spec k' k) as [->|Hne]; [done|].
  intros H. by rewrite IH.
Qed.

Lemma obj_set_keys {V} (o : JsObject V) (k : string) (v : V) :
  (obj_set o k v).*1 = if bool_decide (k ∈ o.*1) then o.*1 else o.*1 ++ [k].
Proof.
  induction o as [|[k' v'] o IH]; cbn.
  - rewrite bool_decide_eq_false_2; [done|apply not_elem_of_nil].
  - destruct (String.eqb_spec k' k) as [->|Hne]; cbn.
    + rewrite bool_decide_eq_true_2; [done|apply list_elem_of_here].
    + rewrite IH. destruct (decide (k ∈ o.*1)) as [Hin|Hin].
      * rewrite !bool_decide_eq_true_2; [done|by apply list_elem_of_further|done].
      * rewrite !bool_decide_eq_false_2; [done| |done].
        rewrite not_elem_of_cons. split; [by intros ->|done].
Qed.

Lemma obj_set_elem {V} (o : JsObject V) (k : string) (v : V) (e : string * V) :
  e ∈ obj_set o k v → e ∈ o ∨ e = (k, v).
Proof.
  induction o as [|[k' v'] o IH]; cbn.
  - intros ->%list_elem_of_singleton. by right.
  - destruct (String.eqb_spec k' k) as [->|Hne].
    + intros [->|H]%elem_of_cons; [by right|]. left. by apply list_elem_of_further.
    + intros [->|H]%elem_of_cons; [left; apply list_elem_of_here|].
      destruct (IH H) as [?|?]; [left; by apply list_elem_of_further|by right].
Qed.

Lemma settled_obj_set (cs : JsObject InputValue) (k : string) (v : InputValue) :
  settled cs → is_placeholder_name k = true → isConnection v = true →
  settled (obj_set cs k v).
Proof.
  intros [Hall Hnd] Hk Hv. split.
  - apply Forall_forall. intros e He. apply obj_set_elem in He as [He| ->]; [|done].
    rewrite Forall_forall in Hall. by apply Hall.
  - rewrite obj_set_keys. case_bool_decide as Hin; [done|].
    apply NoDup_app. split; [done|]. split; [|apply NoDup_singleton].
    intros x Hx ->%list_elem_of_singleton. done.
Qed.

Lemma connectionTarget_slotNamed paramMap (name key : string) :
  slotNamed paramMap → connectionTarget paramMap name = Some key →
  is_placeholder_name key = true.
Proof.
  intros Hm. unfold connectionTarget.
  destruct (is_placeholder_name name) eqn:Hn; [by intros [= <-]|].
  destruct (paramMap !! cleanName name) as [info|] eqn:Hl; [|done].
  destruct (String.eqb (placeholder info) ""); [done|]. intros [= <-].
  by apply (Hm _ _ Hl).
Qed.

Lemma foldl_mapConnection_settled paramMap (base : JsObject InputValue)
    (l cs : JsObject InputValue) :
  slotNamed paramMap →
  (∀ k, is_placeholder_name k = true → obj_get base k = None) →
  settled cs →
  ∃ cs', foldl (mapConnection paramMap) (base ++ cs) l = base ++ cs' ∧ settled cs'.
Proof.
  intros Hm Hbase. revert cs. induction l as [|e l IH]; intros cs Hcs; cbn [foldl].
  { by exists cs. }
  rewrite mapConnection_target.
  destruct (isConnection e.2) eqn:Hc; [|by apply IH].
  destruct (connectionTarget paramMap e.1) as [key|] eqn:Ht; [|by apply IH].
  pose proof (connectionTarget_slotNamed _ _ _ Hm Ht) as Hkey.
  rewrite obj_set_app_r by (by apply Hbase).
  apply IH. by apply settled_obj_set.
Qed.

Lemma obj_get_app_None {V} (a b : JsObject V) (k : string) :
  obj_get a k = None → obj_get b k = None → obj_get (a ++ b) k = None.
Proof.
  rewrite !obj_get_None_keys, fmap_app, not_elem_of_app. done.
Qed.

Lemma foldl_mapConnection_replay paramMap (cs acc : JsObject InputValue) :
  settled cs →
  (∀ k, k ∈ cs.*1 → obj_get acc k = None) →
  foldl (mapConnection paramMap) acc cs = acc ++ cs.
Proof.
  revert acc. induction cs as [|[k v] cs IH]; intros acc [Hall Hnd] Hacc; cbn [foldl].
  { by rewrite app_nil_r. }
  apply Forall_cons in Hall as [[Hk Hv] Hall]. cbn in Hk, Hv.
  rewrite fmap_cons in Hnd. apply NoDup_cons in Hnd as [Hnot Hnd].
  unfold mapConnection at 2. cbn [fst snd]. rewrite Hv, Hk.
  rewrite <- (app_nil_r acc) at 1.
  rewrite obj_set_app_r by (apply Hacc; rewrite fmap_cons; apply list_elem_of_here).
  cbn [obj_set]. rewrite IH; [by rewrite <- app_assoc|done|].
  intros k' Hk'. apply obj_get_app_None.
  - apply Hacc. rewrite fmap_cons. by apply list_elem_of_further.
  - cbn. destruct (String.eqb_spec k k') as [->|Hne]; [done|reflexivity].
Qed.

Lemma fixedInputs_no_slot modelId_ requestJson paramMap (k : string) :
  is_placeholder_name k = true → obj_get (fixedInputs modelId_ requestJson paramMap) k = None.
Proof.
  intros Hk. unfold fixedInputs. cbn [obj_get].
  destruct (String.eqb_spec "model_id" k) as [<-|_]; [by vm_compute in Hk|].
  destruct (String.eqb_spec "request_json" k) as [<-|_]; [by vm_compute in Hk|].
  destruct (String.eqb_spec "param_map" k) as [<-|_]; [by vm_compute in Hk|].
  done.
Qed.

Lemma rewritten_inputs_shape parseFloat numberToString (nodeData : NodeData)
    (dynamicState : DynamicState) :
  slotNamed (ds_paramMapping dynamicState) →
  ∃ connections,
    nd_inputs (transformDynamicNodeForExecution parseFloat numberToString nodeData
                 dynamicState) =
      Some (fixedInputs (ds_modelId dynamicState)
              (JSON_stringify (buildRequestJson parseFloat numberToString dynamicState))
              (ds_paramMapping dynamicState) ++ connections) ∧
    settled connections.
Proof.
  intros Hm. unfold transformDynamicNodeForExecution. cbn [nd_inputs].
  destruct (foldl_mapConnection_settled (ds_paramMapping dynamicState)
              (fixedInputs (ds_modelId dynamicState)
                 (JSON_stringify (buildRequestJson parseFloat numberToString dynamicState))
                 (ds_paramMapping dynamicState))
              (default [] (nd_inputs nodeData)) [] Hm) as (cs & Heq & Hcs).
  { intros k. apply fixedInputs_no_slot. }
  { split; [constructor|constructor]. }
  rewrite app_nil_r in Heq. exists cs. split; [|done]. f_equal. exact Heq.
Qed.

(** X14.  When every binding names a slot of the placeholder form, the inputs of
    a rewritten node are [model_id], [request_json] and [param_map], in that
    order and with the model, the request object and the mapping of the
    dynamic state, followed by connections only, each under its own key of
    the form [param_N]: no value of a control is forwarded as an input. *)
Theorem rewrite_forwards_only_connections (parseFloat : string → option Q)
    (numberToString : Q → string) (nodeData : NodeData) (dynamicState : DynamicState) :
  slotNamed (ds_paramMapping dynamicState) →
  ∃ connections,
    nd_inputs (transformDynamicNodeForExecution parseFloat numberToString nodeData
                 dynamicState) =
      Some ([("model_id", IvValue (JStr (ds_modelId dynamicState)));
             ("request_json",
              IvRequestJson (JSON_stringify
                               (buildRequestJson parseFloat numberToString dynamicState)));
             ("param_map", IvParamMap (ds_paramMapping dynamicState))] ++ connections) ∧
    Forall (λ e : string * InputValue,
              is_placeholder_name e.1 = true ∧ isConnection e.2 = true) connections ∧
    NoDup connections.*1.
Proof.
  intros Hm.
  destruct (rewritten_inputs_shape parseFloat numberToString nodeData dynamicState Hm)
    as (cs & Heq & Hall & Hnd).
  by exists cs.
Qed.

(** X15.  The prompt goes through the rewrite twice on its way to the server.
    When every binding names a slot of the placeholder form, rewriting a
    rewritten node with the same dynamic state changes nothing. *)
Theorem rewrite_twice_is_rewrite_once (parseFloat : string → option Q)
    (numberToString : Q → string) (nodeData : NodeData) (dynamicState : DynamicState) :
  slotNamed (ds_paramMapping dynamicState) →
  transformDynamicNodeForExecution parseFloat numberToString
    (transformDynamicNodeForExecution parseFloat numberToString nodeData dynamicState)
    dynamicState =
  transformDynamicNodeForExecution parseFloat numberToString nodeData dynamicState.
Proof.
  intros Hm.
  destruct (rewritten_inputs_shape parseFloat numberToString nodeData dynamicState Hm)
    as (cs & Heq & Hcs).
  set (base := fixedInputs (ds_modelId dynamicState)
          (JSON_stringify (buildRequestJson parseFloat numberToString dynamicState))
          (ds_paramMapping dynamicState)) in *.
  assert (foldl (mapConnection (ds_paramMapping dynamicState)) base (base ++ cs) =
          base ++ cs) as Hreplay.
  { rewrite foldl_app.
    replace (foldl (mapConnection (ds_paramMapping dynamicState)) base base) with base
      by reflexivity.
    apply foldl_mapConnection_replay; [done|].
    intros k Hk. apply fixedInputs_no_slot.
    destruct Hcs as [Hall _]. rewrite Forall_forall in Hall.
    apply list_elem_of_fmap in Hk as (e & -> & He). by apply Hall. }
  unfold transformDynamicNodeForExecution at 1. rewrite Heq.
  unfold transformDynamicNodeForExecution in Heq |- *.
  subst base. unfold fixedInputs in *.
  cbn [nd_inputs nd_meta_title default id app] in *.
  injection Heq as Heq. rewrite Heq, Hreplay. reflexivity.
Qed.

Lemma wiredState_slotNamed : slotNamed (ds_paramMapping wiredState).
Proof.
  unfold slotNamed. apply map_Forall_lookup. intros k info Hk.
  unfold wiredState in Hk. cbn [ds_paramMapping] in Hk.
  apply lookup_singleton_Some in Hk as [_ <-]. reflexivity.
Qed.

Lemma rewrite_twice_is_rewrite_once_witness :
  transformDynamicNodeForExecution parseDigits showNumerator
    (transformDynamicNodeForExecution parseDigits showNumerator wiredEntry wiredState)
    wiredState =
  transformDynamicNodeForExecution parseDigits showNumerator wiredEntry wiredState.
Proof.
  apply (rewrite_twice_is_rewrite_once parseDigits showNumerator wiredEntry wiredState).
  exact wiredState_slotNamed.
Defined.

Lemma rewrite_forwards_only_connections_witness :
  ∃ connections,
    nd_inputs (transformDynamicNodeForExecution parseDigits showNumerator wiredEntry
                 wiredState) =
      Some ([("model_id", IvValue (JStr (ds_modelId wiredState)));
             ("request_json",
              IvRequestJson (JSON_stringify
                               (buildRequestJson parseDigits showNumerator wiredState)));
             ("param_map", IvParamMap (ds_paramMapping wiredState))] ++ connections) ∧
    Forall (λ e : string * InputValue,
              is_placeholder_name e.1 = true ∧ isConnection e.2 = true) connections ∧
    NoDup connections.*1.
Proof.
  apply (rewrite_forwards_only_connections parseDigits showNumerator wiredEntry wiredState).
  exact wiredState_slotNamed.
Defined.

Lemma findGraphNode_put (graph : JsObject Node) (id id' : string) (node : option Node) :
  id ≠ id' → findGraphNode (putGraphNode graph id node) id' = findGraphNode graph id'.
Proof.
  intros Hne. unfold findGraphNode, putGraphNode.
  destruct node as [n|]; [|done]. destruct (obj_get graph id); [|done].
  by apply obj_get_set_ne.
Qed.

(** X16.  The loop over the prompt keeps the keys and their order and rewrites
    every entry on its own: an entry becomes what the body of the loop makes
    of it and of the live node of its id as the graph held it before the
    loop, whatever the loop did to the live nodes of the entries before. *)
Theorem prompt_entries_rewritten_independently (parseFloat : string → option Q)
    (numberToString : Q → string) (graph : JsObject Node)
    (promptOutput : JsObject NodeData) (i : nat) (nodeId : string) (nodeData : NodeData) :
  NoDup promptOutput.*1 →
  promptOutput !! i = Some (nodeId, nodeData) →
  let transformedOutput :=
    (transformDynamicNodesForExecution parseFloat numberToString graph promptOutput).1 in
  transformedOutput.*1 = promptOutput.*1 ∧
  transformedOutput !! i =
    Some (nodeId,
          (transformEntry parseFloat numberToString nodeData
             (findGraphNode graph nodeId)).1).
Proof.
  intros Hnd Hi. cbv zeta.
  assert (∀ graph, (transformDynamicNodesForExecution parseFloat numberToString graph
                      promptOutput).1.*1 = promptOutput.*1) as Hkeys.
  { clear. induction promptOutput as [|[id nd] rest IH]; intros graph;
      cbn [transformDynamicNodesForExecution]; [done|].
    destruct (transformEntry _ _ nd _) as [tn gn].
    specialize (IH (putGraphNode graph id gn)).
    destruct (transformDynamicNodesForExecution _ _ _ rest) as [tr g']. cbn in *.
    by rewrite IH. }
  split; [apply Hkeys|]. clear Hkeys.
  revert graph i Hnd Hi.
  induction promptOutput as [|[id nd] rest IH]; intros graph i Hnd Hi; [done|].
  cbn [transformDynamicNodesForExecution].
  rewrite fmap_cons in Hnd. apply NoDup_cons in Hnd as [Hnot Hnd].
  destruct (transformEntry parseFloat numberToString nd (findGraphNode graph id))
    as [tn gn] eqn:Ht.
  specialize (IH (putGraphNode graph id gn)).
  destruct (transformDynamicNodesForExecution _ _ _ rest) as [tr g']. cbn [fst] in *.
  destruct i as [|i]; cbn in Hi.
  - injection Hi as -> ->. cbn. by rewrite Ht.
  - etransitivity; [exact (IH i Hnd Hi)|]. rewrite findGraphNode_put; [done|].
    intros ->. apply Hnot. apply list_elem_of_fmap. exists (nodeId, nodeData).
    split; [done|]. by eapply list_elem_of_lookup_2.
Qed.

(** A prompt of two entries: the dynamic node of the scenario, and a node
    of another class. *)
Definition scenarioPrompt : JsObject NodeData :=
  [("7", wiredEntry);
   ("8", {| nd_inputs := Some [("text", IvValue (JStr "a cat"))];
            nd_class_type := "CLIPTextEncode"; nd_meta_title := None;
            nd_dynamic_state := None |})].

Lemma prompt_entries_rewritten_independently_witness :
  let graph := [("7", selectedNode parseDigits scenarioSchema)] in
  let transformedOutput :=
    (transformDynamicNodesForExecution parseDigits showNumerator graph scenarioPrompt).1 in
  transformedOutput.*1 = scenarioPrompt.*1 ∧
  transformedOutput !! 0 =
    Some ("7", (transformEntry parseDigits showNumerator wiredEntry
                  (findGraphNode graph "7")).1).
Proof.
  apply (prompt_entries_rewritten_independently parseDigits showNumerator
           [("7", selectedNode parseDigits scenarioSchema)] scenarioPrompt 0 "7" wiredEntry).
  - apply (bool_decide_unpack _). vm_compute. exact I.
  - reflexivity.
Defined.

(** ** Port visibility and the initial clean-up *)

Lemma hide_keeps_names (ids : list nat) (h : gmap nat InputPort) (id : nat) :
  in_name <$> foldl (λ h id, alter in_hide_placeholder id h) h ids !! id =
  in_name <$> h !! id.
Proof.
  revert h. induction ids as [|x ids IH]; intros h; cbn [foldl]; [done|].
  rewrite IH. destruct (decide (x = id)) as [->|Hne].
  - rewrite lookup_alter_eq. by destruct (h !! id).
  - by rewrite lookup_alter_ne.
Qed.

Lemma hide_marks (ids : list nat) (h : gmap nat InputPort) (id : nat) (p : InputPort) :
  id ∈ ids → h !! id = Some p →
  ∃ p', foldl (λ h id, alter in_hide_placeholder id h) h ids !! id = Some p' ∧
        in_hidden p' = true ∧ in_placeholder p' = MarkTrue ∧ in_link p' = in_link p.
Proof.
  assert (∀ (ids : list nat) (h : gmap nat InputPort) (p : InputPort),
            h !! id = Some p → in_hidden p = true →
            in_placeholder p = MarkTrue →
            ∃ p', foldl (λ h id, alter in_hide_placeholder id h) h ids !! id = Some p' ∧
                  in_hidden p' = true ∧ in_placeholder p' = MarkTrue ∧
                  in_link p' = in_link p) as Hkeep.
  { clear. intros ids. induction ids as [|x ids IH]; intros h p Hp Hh Hm; cbn [foldl].
    { by exists p. }
    destruct (decide (x = id)) as [->|Hne].
    - destruct (IH (alter in_hide_placeholder id h) (in_hide_placeholder p))
        as (p' & ? & ? & ? & ?); [by rewrite lookup_alter_eq, Hp|done|done|].
      by exists p'.
    - apply IH; [by rewrite lookup_alter_ne|done|done]. }
  revert h p. induction ids as [|x ids IH]; intros h p Hin Hp.
  { by apply elem_of_nil in Hin. }
  cbn [foldl]. destruct (decide (x = id)) as [->|Hne].
  - destruct (Hkeep ids (alter in_hide_placeholder id h) (in_hide_placeholder p))
      as (p' & ? & ? & ? & ?); [by rewrite lookup_alter_eq, Hp|done|done|].
    by exists p'.
  - apply elem_of_cons in Hin as [->|Hin]; [done|].
    apply IH; [done|by rewrite lookup_alter_ne].
Qed.

Lemma port_name_updateVisibleInputs (node : Node) (id : nat) :
  port_name (updateVisibleInputs node) id = port_name node id.
Proof.
  unfold port_name, updateVisibleInputs. cbn [ports with_ports].
  pose proof (hide_keeps_names (List.filter (is_placeholder_port node) (inputs node))
                (ports node) id) as H.
  destruct (foldl _ _ _ !! id), (ports node !! id); cbn in H; congruence.
Qed.

Lemma is_placeholder_port_updateVisibleInputs (node : Node) (id : nat) :
  is_placeholder_port (updateVisibleInputs node) id = is_placeholder_port node id.
Proof. unfold is_placeholder_port. by rewrite port_name_updateVisibleInputs. Qed.

Lemma filter_filter_neg {A} (f : A → bool) (l : list A) :
  List.filter f (List.filter (λ x, negb (f x)) l) = [].
Proof.
  induction l as [|x l IH]; [done|]. cbn. destruct (f x) eqn:H; cbn; [done|].
  by rewrite H.
Qed.

Lemma filter_idemp {A} (f : A → bool) (l : list A) :
  List.filter f (List.filter f l) = List.filter f l.
Proof.
  induction l as [|x l IH]; [done|]. cbn. destruct (f x) eqn:H; cbn; [|done].
  by rewrite H, IH.
Qed.

Lemma visibility_pass_settled (node : Node) :
  (∀ id, id ∈ inputs node → is_placeholder_port node id = false) →
  inputs (updateVisibleInputs node) = inputs node ∧
  wavespeed_hiddenInputs (updateVisibleInputs node) = [] ∧
  wavespeed_allInputs (updateVisibleInputs node) = inputs node.
Proof.
  intros H. unfold updateVisibleInputs.
  cbn [inputs wavespeed_hiddenInputs wavespeed_allInputs with_ports].
  induction (inputs node) as [|x l IH]; [done|]. cbn [List.filter].
  rewrite (H x) by apply list_elem_of_here. cbn [negb].
  destruct IH as (IH1 & IH2 & _).
  { intros id Hid. apply H. by apply list_elem_of_further. }
  by rewrite IH1, IH2.
Qed.

(** X17.  A pass of the visibility filter leaves among the inputs of the node the
    ports that have no placeholder name, in their order, and records the
    others as hidden, each flagged hidden and placeholder with its link
    kept; no port changes its name.  A second pass finds no placeholder any
    more: it leaves the inputs as they are, empties the record of the hidden
    ports and drops them from the record of all ports. *)
Theorem visibility_pass_partitions_ports (node : Node) :
  let shown := updateVisibleInputs node in
  let again := updateVisibleInputs shown in
  (∀ id, id ∈ inputs shown ↔ id ∈ inputs node ∧ is_placeholder_port node id = false) ∧
  (∀ id, id ∈ wavespeed_hiddenInputs shown ↔
         id ∈ inputs node ∧ is_placeholder_port node id = true) ∧
  wavespeed_allInputs shown = inputs node ∧
  (∀ id, port_name shown id = port_name node id) ∧
  (∀ id p, id ∈ wavespeed_hiddenInputs shown → ports node !! id = Some p →
     ∃ p', ports shown !! id = Some p' ∧ in_hidden p' = true ∧
           in_placeholder p' = MarkTrue ∧ in_link p' = in_link p) ∧
  inputs again = inputs shown ∧
  wavespeed_hiddenInputs again = [] ∧
  wavespeed_allInputs again = inputs shown.
Proof.
  cbv zeta.
  split; [|split; [|split; [done|split; [apply port_name_updateVisibleInputs|split]]]].
  - intros id. unfold updateVisibleInputs. cbn [inputs with_ports].
    rewrite list_elem_of_In, filter_In, <- list_elem_of_In, negb_true_iff. done.
  - intros id. unfold updateVisibleInputs. cbn [wavespeed_hiddenInputs with_ports].
    rewrite list_elem_of_In, filter_In, <- list_elem_of_In. done.
  - intros id p Hid Hp. unfold updateVisibleInputs in *.
    cbn [wavespeed_hiddenInputs ports with_ports] in *. by apply hide_marks.
  - apply visibility_pass_settled. intros id.
    unfold updateVisibleInputs at 1. cbn [inputs with_ports].
    rewrite list_elem_of_In, filter_In, negb_true_iff.
    rewrite is_placeholder_port_updateVisibleInputs. by intros [_ ?].
Qed.

(** The test of [forceCleanInitialState] for a name that counts: set, and
    not of the placeholder form. *)
Definition countedName (name : string) : bool :=
  negb (String.eqb name "") && negb (is_placeholder_name name).

(** The counted names of the inputs of the node, with repeats. *)
Definition countedNames (node : Node) : list string :=
  List.filter countedName (List.map (port_name node) (inputs node)).

Lemma countedName_spec (name : string) :
  String.eqb name "" || is_placeholder_name name = negb (countedName name).
Proof. unfold countedName. by destruct (String.eqb name ""), (is_placeholder_name name). Qed.

Lemma keepFirstByName_names (node : Node) (ids : list nat) (seen : gset string) :
  let kept := List.filter countedName
                (List.map (port_name node) (keepFirstByName node seen ids)) in
  NoDup kept ∧
  (∀ name, name ∈ kept ↔
           name ∈ List.filter countedName (List.map (port_name node) ids) ∧ name ∉ seen) ∧
  (∀ id, id ∈ keepFirstByName node seen ids → id ∈ ids).
Proof.
  revert seen. induction ids as [|id ids IH]; intros seen; cbn [keepFirstByName].
  { cbn. split; [constructor|]. split; [|done]. intros name. split; [|by intros [? _]].
    by intros ?%elem_of_nil. }
  rewrite countedName_spec.
  destruct (countedName (port_name node id)) eqn:Hc; cbn [negb].
  - destruct (decide (port_name node id ∈ seen)) as [Hin|Hnot].
    + destruct (IH seen) as (Hnd & Hmem & Hsub). cbv zeta in *.
      split; [done|]. split.
      * intros name. rewrite Hmem. cbn [List.map List.filter]. rewrite Hc.
        rewrite elem_of_cons. split; [intros [? ?]; split; [by right|done]|].
        intros [[->|?] ?]; [done|by split].
      * intros x Hx. apply list_elem_of_further. by apply Hsub.
    + destruct (IH ({[port_name node id]} ∪ seen)) as (Hnd & Hmem & Hsub). cbv zeta in *.
      cbn [List.map List.filter]. rewrite Hc. split; [|split].
      * apply NoDup_cons. split; [|done]. rewrite Hmem. intros [_ H]. apply H.
        apply elem_of_union_l. by apply elem_of_singleton.
      * intros name. rewrite !elem_of_cons, Hmem. split.
        -- intros [->|[H1 H2]]; [split; [by left|done]|].
           split; [by right|]. intros H. apply H2. by apply elem_of_union_r.
        -- intros [[->|H1] H2]; [by left|].
           destruct (decide (name = port_name node id)) as [->|Hne]; [by left|].
           right. split; [done|]. rewrite elem_of_union, elem_of_singleton.
           by intros [?|?].
      * intros x [->|Hx]%elem_of_cons; [apply list_elem_of_here|].
        apply list_elem_of_further. by apply Hsub.
  - destruct (IH seen) as (Hnd & Hmem & Hsub). cbv zeta in *.
    cbn [List.map List.filter]. rewrite Hc. split; [done|]. split; [done|].
    intros x [->|Hx]%elem_of_cons; [apply list_elem_of_here|].
    apply list_elem_of_further. by apply Hsub.
Qed.

Lemma counted_filter_visible (node : Node) (name : nat → string) (l : list nat) :
  (∀ id, is_placeholder_port node id = true → countedName (name id) = false) →
  List.filter countedName
    (List.map name (List.filter (λ id, negb (is_placeholder_port node id)) l)) =
  List.filter countedName (List.map name l).
Proof.
  intros H. induction l as [|x l IH]; [done|]. cbn [List.filter List.map].
  destruct (is_placeholder_port node x) eqn:Hp; cbn [negb List.map List.filter].
  - by rewrite (H x Hp).
  - by rewrite IH.
Qed.

Lemma placeholder_port_not_counted (node : Node) (id : nat) :
  is_placeholder_port node id = true → countedName (port_name node id) = false.
Proof.
  unfold is_placeholder_port, countedName.
  intros (_ & ->)%andb_true_iff. by rewrite andb_false_r.
Qed.

(** X18.  After the initial clean-up no counted name (set, and not of the
    placeholder form) occurs twice among the inputs of the node, every
    counted name that occurred still occurs, and no port is new; a node
    without a repeated counted name is left as it is. *)
Theorem clean_up_leaves_unique_names (node : Node) :
  let cleaned := forceCleanInitialState node in
  NoDup (countedNames cleaned) ∧
  (∀ name, name ∈ countedNames cleaned ↔ name ∈ countedNames node) ∧
  (∀ id, id ∈ inputs cleaned → id ∈ inputs node) ∧
  (NoDup (countedNames node) → cleaned = node).
Proof.
  cbv zeta. unfold forceCleanInitialState.
  assert (List.map (port_name node)
            (List.filter (λ id, negb (String.eqb (port_name node id) "") &&
                                negb (is_placeholder_name (port_name node id)))
               (inputs node)) = countedNames node) as ->.
  { unfold countedNames. generalize (inputs node). intros l.
    induction l as [|x l IH]; [done|]. cbn [List.filter List.map].
    fold (countedName (port_name node x)).
    destruct (countedName (port_name node x)); cbn [List.map]; by rewrite IH. }
  case_bool_decide as Hnd; [done|].
  split; [|split; [|split; [|done]]].
  - unfold countedNames, set_inputs.
    set (node1 := with_ports _ _ _ _ _ node).
    assert (∀ id, port_name (updateVisibleInputs node1) id = port_name node id) as Hname.
    { intros id. by rewrite port_name_updateVisibleInputs. }
    rewrite (map_ext _ _ Hname).
    unfold updateVisibleInputs. cbn [inputs with_ports]. subst node1. cbn [inputs with_ports].
    rewrite counted_filter_visible
      by (intros id Hp; apply placeholder_port_not_counted; exact Hp).
    apply keepFirstByName_names.
  - intros name. unfold countedNames at 1, set_inputs.
    set (node1 := with_ports _ _ _ _ _ node).
    assert (∀ id, port_name (updateVisibleInputs node1) id = port_name node id) as Hname.
    { intros id. by rewrite port_name_updateVisibleInputs. }
    rewrite (map_ext _ _ Hname).
    unfold updateVisibleInputs. cbn [inputs with_ports]. subst node1. cbn [inputs with_ports].
    rewrite counted_filter_visible
      by (intros id Hp; apply placeholder_port_not_counted; exact Hp).
    destruct (keepFirstByName_names node (inputs node) ∅) as (_ & Hmem & _).
    cbv zeta in Hmem. rewrite Hmem. unfold countedNames.
    split; [by intros [? _]|]. intros H. split; [done|apply not_elem_of_empty].
  - intros id. unfold set_inputs, updateVisibleInputs. cbn [inputs with_ports].
    rewrite list_elem_of_In, filter_In, <- list_elem_of_In. intros [H _].
    by apply (keepFirstByName_names node (inputs node) ∅).
Qed.

(** ** More on the schema cache *)

(** X19.  A cached read sends at most one request, to its own endpoint; it
    returns what the cache holds for its key afterwards; and it leaves every
    other entry of the cache as it was. *)
Theorem cached_read_touches_own_entry (remote : Remote) (now later : Z)
    (r : CachedRead) (s : Session) :
  let answer := (cachedRead remote now later r s).1 in
  let s' := (cachedRead remote now later r s).2 in
  (requests s' = requests s ∨ requests s' = requests s ++ [endpoint_of r]) ∧
  match r with
  | ReadCategories =>
      (∃ l, answer = AList l ∧ categories (cache s') = Some l) ∧
      modelsByCategory (cache s') = modelsByCategory (cache s) ∧
      lastModelUpdate (cache s') = lastModelUpdate (cache s) ∧
      modelDetails (cache s') = modelDetails (cache s)
  | ReadModels c =>
      (∃ l, answer = AList l ∧ modelsByCategory (cache s') !! c = Some l) ∧
      (∀ c', c' ≠ c →
         modelsByCategory (cache s') !! c' = modelsByCategory (cache s) !! c' ∧
         lastModelUpdate (cache s') !! c' = lastModelUpdate (cache s) !! c') ∧
      categories (cache s') = categories (cache s) ∧
      lastCategoryUpdate (cache s') = lastCategoryUpdate (cache s) ∧
      modelDetails (cache s') = modelDetails (cache s)
  | ReadModelDetail m =>
      answer = ADetail (modelDetails (cache s') !! m) ∧
      (∀ m', m' ≠ m → modelDetails (cache s') !! m' = modelDetails (cache s) !! m') ∧
      categories (cache s') = categories (cache s) ∧
      lastCategoryUpdate (cache s') = lastCategoryUpdate (cache s) ∧
      modelsByCategory (cache s') = modelsByCategory (cache s) ∧
      lastModelUpdate (cache s') = lastModelUpdate (cache s)
  end.
Proof.
  cbv zeta. destruct r as [|c|m]; unfold cachedRead.
  - unfold getCachedCategories.
    destruct (categories (cache s)) as [cached|] eqn:Hc.
    + destruct (isCacheExpired now (lastCategoryUpdate (cache s))); cbn.
      * split; [by right|]. split; [by eexists|done].
      * split; [by left|]. split; [by eexists|done].
    + cbn. split; [by right|]. split; [by eexists|done].
  - unfold getCachedModelsByCategory.
    destruct (modelsByCategory (cache s) !! c) as [cached|] eqn:Hc.
    + destruct (isCacheExpired now _); cbn.
      * split; [by right|]. split; [eexists; split; [done|apply lookup_insert_eq]|].
        split; [|done]. intros c' Hne. by rewrite !lookup_insert_ne.
      * split; [by left|]. split; [by eexists|done].
    + cbn. split; [by right|]. split; [eexists; split; [done|apply lookup_insert_eq]|].
      split; [|done]. intros c' Hne. by rewrite !lookup_insert_ne.
  - unfold getCachedModelDetail.
    destruct (modelDetails (cache s) !! m) as [cached|] eqn:Hc.
    + cbn. split; [by left|]. by rewrite Hc.
    + destruct (getModelDetail remote m) as [detail|]; cbn.
      * split; [by right|]. rewrite lookup_insert_eq. split; [done|].
        split; [|done]. intros m' Hne. by rewrite lookup_insert_ne.
      * split; [by right|]. by rewrite Hc.
Qed.

(** X20.  A list read that fails is answered by the empty list, and the empty
    list is memoised like any other: until the expiry, later reads return it
    without asking, whatever the remote service would answer then.  A detail
    read that fails stores nothing: the next read asks again and returns
    what the remote service answers then. *)
Theorem failed_reads_memoised_unequally (remote remote' : Remote) (now later now' later' : Z)
    (modelId_ : string) (s : Session) :
  categories (cache s) = None →
  getModelCategories remote = [] →
  modelDetails (cache s) !! modelId_ = None →
  getModelDetail remote modelId_ = None →
  (now' - later ≤ cacheExpiry)%Z →
  let s1 := (getCachedCategories remote now later s).2 in
  let s2 := (getCachedModelDetail remote modelId_ s).2 in
  getCachedCategories remote' now' later' s1 = ([], s1) ∧
  (getCachedModelDetail remote modelId_ s).1 = None ∧
  cache s2 = cache s ∧
  (getCachedModelDetail remote' modelId_ s2).1 = getModelDetail remote' modelId_ ∧
  requests (getCachedModelDetail remote' modelId_ s2).2 =
    requests s ++ [EpModel modelId_; EpModel modelId_].
Proof.
  intros Hc Hfail Hd Hdfail Hfresh. cbv zeta.
  assert (getCachedCategories remote now later s =
          ([], {| cache := {| categories := Some [];
                              modelsByCategory := modelsByCategory (cache s);
                              modelDetails := modelDetails (cache s);
                              lastCategoryUpdate := later;
                              lastModelUpdate := lastModelUpdate (cache s) |};
                  requests := requests s ++ [EpCategories] |})) as ->.
  { unfold getCachedCategories. by rewrite Hc, Hfail. }
  assert (getCachedModelDetail remote modelId_ s =
          (None, {| cache := cache s; requests := requests s ++ [EpModel modelId_] |}))
    as ->.
  { unfold getCachedModelDetail. by rewrite Hd, Hdfail. }
  cbn [fst snd]. split.
  { unfold getCachedCategories. cbn [cache categories lastCategoryUpdate].
    unfold isCacheExpired.
    destruct (Z.gtb_spec (now' - later) cacheExpiry) as [Hgt|_]; [lia|done]. }
  split; [done|]. split; [done|].
  unfold getCachedModelDetail. cbn [cache requests]. rewrite Hd.
  destruct (getModelDetail remote' modelId_); cbn; by rewrite <- app_assoc.
Qed.

(** A remote service that answers nothing. *)
Definition silentRemote : Remote :=
  {| getModelCategories := []; getModelsByCategory := λ _, [];
     getModelDetail := λ _, None |}.

Lemma failed_reads_memoised_unequally_witness :
  let remote' := remoteWith scenarioSchema in
  let s1 := (getCachedCategories silentRemote 0 0 emptySession).2 in
  let s2 := (getCachedModelDetail silentRemote "m" emptySession).2 in
  getCachedCategories remote' 1000 1000 s1 = ([], s1) ∧
  (getCachedModelDetail silentRemote "m" emptySession).1 = None ∧
  cache s2 = cache emptySession ∧
  (getCachedModelDetail remote' "m" s2).1 = getModelDetail remote' "m" ∧
  requests (getCachedModelDetail remote' "m" s2).2 =
    requests emptySession ++ [EpModel "m"; EpModel "m"].
Proof.
  apply (failed_reads_memoised_unequally silentRemote (remoteWith scenarioSchema)
           0 0 1000 1000 "m" emptySession); try reflexivity.
  vm_compute. discriminate.
Defined.

(** ** Clearing the parameters *)


Lemma updateRequestJsonWidget_frame parseFloat (node : Node) :
  let node' := updateRequestJsonWidget parseFloat node in
  widgets node' = widgets node ∧ ports node' = ports node ∧ inputs node' = inputs node ∧
  wavespeed_allInputs node' = wavespeed_allInputs node ∧
  wavespeed_hiddenInputs node' = wavespeed_hiddenInputs node ∧
  wavespeed_originalInputs node' = wavespeed_originalInputs node ∧
  modelWidget node' = modelWidget node ∧ categoryWidget node' = categoryWidget node ∧
  modelId (wavespeedState node') = modelId (wavespeedState node) ∧
  category (wavespeedState node') = category (wavespeedState node) ∧
  categoryList (wavespeedState node') = categoryList (wavespeedState node) ∧
  parameters (wavespeedState node') = parameters (wavespeedState node) ∧
  parameterValues (wavespeedState node') = parameterValues (wavespeedState node) ∧
  paramMapping (wavespeedState node') = paramMapping (wavespeedState node) ∧
  hw_request_json (hiddenWidgets (wavespeedState node')) =
    Some (JSON_stringify (collectParameterValues parseFloat node).1).
Proof.
  cbv zeta. unfold updateRequestJsonWidget, collectParameterValues.
  destruct (foldl _ _ _) as [vals conn]. cbn. repeat split.
Qed.



(** ** The [request_json] text and the controls *)







(** ** Selecting a model and a category *)

(** The part of the state that says what is selected. *)
Definition chosen (node : Node)
  : string * string * option (list NamedValue) * option string :=
  let st := wavespeedState node in
  (modelId st, category st, categoryList st, hw_model_id (hiddenWidgets st)).

(** The part of the state that says what is to be built and restored. *)
Definition saved (node : Node) : list Param * JsObject JsValue :=
  (parameters (wavespeedState node), parameterValues (wavespeedState node)).

(** The two selector references. *)
Definition selectors (node : Node) : option nat * option nat :=
  (categoryWidget node, modelWidget node).

Lemma kept_allocatePlaceholder (node : Node) (p : Param) :
  chosen (allocatePlaceholder node p).2 = chosen node ∧
  saved (allocatePlaceholder node p).2 = saved node ∧
  selectors (allocatePlaceholder node p).2 = selectors node.
Proof.
  unfold allocatePlaceholder.
  destruct (lookup_mapping (paramMapping (wavespeedState node)) (p_name p)); [done|].
  by destruct (scanPlaceholders _ _ _).
Qed.

Lemma kept_createWidgetInputPort (node : Node) (w : Widget) (p : Param) :
  chosen (createWidgetInputPort node w p).2 = chosen node ∧
  saved (createWidgetInputPort node w p).2 = saved node ∧
  selectors (createWidgetInputPort node w p).2 = selectors node.
Proof.
  unfold createWidgetInputPort.
  pose proof (kept_allocatePlaceholder node p) as Hs.
  destruct (allocatePlaceholder node p) as [[[info|key]|] node1]; [|exact Hs|exact Hs].
  cbn [snd] in Hs.
  destruct (find_port node1 (placeholder info) (wavespeed_hiddenInputs node1)); [exact Hs|].
  destruct (find_port node1 (placeholder info) (wavespeed_allInputs node1)); [exact Hs|].
  destruct (find_port node1 (placeholder info) (wavespeed_originalInputs node1));
    [exact Hs|].
  destruct (find_port node1 (placeholder info) (inputs node1)); exact Hs.
Qed.

Lemma selectors_createControl (node : Node) (p : Param) :
  selectors (createControl node p).2 = selectors node.
Proof.
  unfold createControl.
  destruct (isSeedParam p); [reflexivity|].
  destruct (String.eqb (p_type p) "BOOLEAN"); [reflexivity|].
  destruct (String.eqb (p_type p) "STRING").
  { destruct (isMultilineParam p || p_isArray p), (p_isArray p); reflexivity. }
  destruct (String.eqb (p_type p) "COMBO" && bool_decide (is_Some (p_options p)));
    [reflexivity|].
  destruct (String.eqb (p_type p) "INT" || String.eqb (p_type p) "FLOAT"); reflexivity.
Qed.

Lemma kept_createParameterWidget (node : Node) (p : Param) (i : nat) :
  chosen (createParameterWidget node p i).2 = chosen node ∧
  saved (createParameterWidget node p i).2 = saved node ∧
  selectors (createParameterWidget node p i).2 = selectors node.
Proof.
  unfold createParameterWidget.
  pose proof (state_createControl node p) as Hst.
  pose proof (selectors_createControl node p) as Hsel.
  destruct (createControl node p) as [w n1]. cbn [snd] in Hst, Hsel.
  unfold mutate. cbn [fst snd].
  destruct (shouldCreateInputPort p).
  - pose proof (kept_createWidgetInputPort
                  (update_widget (w_id w) (w_mark_param (p_name p) i (p_required p)) n1)
                  (w_mark_param (p_name p) i (p_required p) w) p) as (H1 & H2 & H3).
    destruct (createWidgetInputPort _ _ _) as [[o w1] n2]. cbn [snd] in *.
    rewrite H1, H2, H3. unfold chosen, saved, selectors in *. cbn. by rewrite Hst.
  - unfold chosen, saved, selectors in *. cbn. by rewrite Hst.
Qed.

Lemma kept_createWidgets (ps : list Param) (node : Node) (i : nat) :
  chosen (createWidgets node ps i) = chosen node ∧
  saved (createWidgets node ps i) = saved node ∧
  selectors (createWidgets node ps i) = selectors node.
Proof.
  revert node i. induction ps as [|p ps IH]; intros node i; cbn [createWidgets]; [done|].
  destruct (IH (createParameterWidget node p i).2 (S i)) as (-> & -> & ->).
  apply kept_createParameterWidget.
Qed.


Lemma kept_updateRequestJsonWidget parseFloat (node : Node) :
  chosen (updateRequestJsonWidget parseFloat node) = chosen node ∧
  saved (updateRequestJsonWidget parseFloat node) = saved node ∧
  selectors (updateRequestJsonWidget parseFloat node) = selectors node.
Proof.
  unfold updateRequestJsonWidget, collectParameterValues.
  by destruct (foldl _ _ _).
Qed.



Lemma kept_set_parameters (ps : list Param) (n : Node) :
  chosen (with_state (set_parameters ps) n) = chosen n ∧
  selectors (with_state (set_parameters ps) n) = selectors n ∧
  saved (with_state (set_parameters ps) n) = (ps, parameterValues (wavespeedState n)) ∧
  tags (with_state (set_parameters ps) n) = tags n ∧
  widget_count (with_state (set_parameters ps) n) = widget_count n ∧
  (fresh_ids n → fresh_ids (with_state (set_parameters ps) n)).
Proof. repeat split; first [reflexivity | (intros H; exact H)]. Qed.





Lemma saved_pair (n : Node) (ps : list Param) (vs : JsObject JsValue) :
  saved n = (ps, vs) →
  parameters (wavespeedState n) = ps ∧ parameterValues (wavespeedState n) = vs.
Proof. unfold saved. intros H. by injection H. Qed.



Lemma updateModelParameters_none parseFloat (node : Node) (modelDetail : option ModelDetail) :
  modelId (wavespeedState node) = "" →
  updateModelParameters parseFloat node modelDetail = clearModelParameters parseFloat node.
Proof.
  intros He. unfold updateModelParameters.
  destruct (String.eqb_spec (modelId (wavespeedState node)) "") as [_|Hne]; [reflexivity|].
  by destruct Hne.
Qed.

Lemma kept_built parseFloat (c : Node) (params : list Param) :
  parameterValues (wavespeedState c) = [] →
  let built := updateRequestJsonWidget parseFloat
                 (createWidgets (with_state (set_parameters params) c)
                    (sortedParams params) 0) in
  chosen built = chosen c ∧ selectors built = selectors c ∧
  parameters (wavespeedState built) = params ∧
  parameterValues (wavespeedState built) = [].
Proof.
  intros Hcv. cbv zeta.
  destruct (kept_set_parameters params c) as (Hn1 & Hn2 & Hn3 & _).
  rewrite Hcv in Hn3.
  generalize dependent (with_state (set_parameters params) c). intros node2 **.
  destruct (kept_createWidgets (sortedParams params) node2 0) as (Hk1 & Hk2 & Hk3).
  generalize dependent (createWidgets node2 (sortedParams params) 0). intros node3 **.
  destruct (kept_updateRequestJsonWidget parseFloat node3) as (Hu1 & Hu2 & Hu3).
  generalize dependent (updateRequestJsonWidget parseFloat node3). intros node4 **.
  rewrite Hn3 in Hk2. rewrite Hk2 in Hu2.
  destruct (saved_pair _ _ _ Hu2) as [Hp Hv].
  split; [congruence|]. split; [congruence|]. split; [exact Hp|exact Hv].
Qed.

Lemma kept_switched parseFloat (node c : Node) (params : list Param) :
  chosen c = chosen node → selectors c = selectors node →
  parameters (wavespeedState c) = [] → parameterValues (wavespeedState c) = [] →
  let switched :=
    match params with
    | [] => c
    | _ :: _ =>
        updateRequestJsonWidget parseFloat
          (createWidgets (with_state (set_parameters params) c) (sortedParams params) 0)
    end in
  chosen switched = chosen node ∧
  selectors switched = selectors node ∧
  parameters (wavespeedState switched) = params ∧
  parameterValues (wavespeedState switched) = [].
Proof.
  intros Hc1 Hc3 Hcp Hcv.
  pose proof (kept_built parseFloat c params Hcv) as Hb. cbv zeta in Hb.
  destruct params as [|q qs]; cbv zeta.
  { repeat split; assumption. }
  destruct Hb as (Hb1 & Hb2 & Hb3 & Hb4).
  split; [congruence|]. split; [congruence|]. split; assumption.
Qed.








Lemma getCategoryValue_chosen (n1 n2 : Node) :
  chosen n1 = chosen n2 → getCategoryValue n1 = getCategoryValue n2.
Proof.
  unfold chosen, getCategoryValue. intros H.
  assert (category (wavespeedState n1) = category (wavespeedState n2)) as -> by congruence.
  assert (categoryList (wavespeedState n1) = categoryList (wavespeedState n2)) as ->
    by congruence.
  done.
Qed.








(** ** The control created for a parameter *)

Lemma in_addWidget (w : Widget) node t n v cb o :
  w ∈ widgets node → w ∈ widgets (addWidget node t n v cb o).2.
Proof. intros H. cbn. apply elem_of_app. by left. Qed.

Lemma in_update_other (w : Widget) (id : nat) (f : Widget → Widget) (node : Node) :
  w ∈ widgets node → w_id w ≠ id → w ∈ widgets (update_widget id f node).
Proof.
  intros H Hne. cbn. unfold modify_widget. apply list_elem_of_fmap.
  exists w. split; [|done]. by rewrite (proj2 (Nat.eqb_neq _ _) Hne).
Qed.

Lemma in_update_same (w : Widget) (f : Widget → Widget) (node : Node) :
  w ∈ widgets node → f w ∈ widgets (update_widget (w_id w) f node).
Proof.
  intros H. cbn. unfold modify_widget. apply list_elem_of_fmap.
  exists w. split; [|done]. by rewrite Nat.eqb_refl.
Qed.

Lemma in_mutate (f : Widget → Widget) (wn : Widget * Node) :
  wn.1 ∈ widgets wn.2 → (mutate f wn).1 ∈ widgets (mutate f wn).2.
Proof. intros H. unfold mutate. cbn [fst snd]. by apply in_update_same. Qed.

Lemma old_mutate (w : Widget) (f : Widget → Widget) (wn : Widget * Node) :
  w ∈ widgets wn.2 → w_id w ≠ w_id wn.1 → w ∈ widgets (mutate f wn).2.
Proof. intros H Hne. unfold mutate. cbn [fst snd]. by apply in_update_other. Qed.

Lemma new_addWidget node t n v cb o :
  (addWidget node t n v cb o).1 ∈ widgets (addWidget node t n v cb o).2 ∧
  w_id (addWidget node t n v cb o).1 = widget_count node ∧
  w_type (addWidget node t n v cb o).1 = t.
Proof. cbn. split; [|done]. apply elem_of_app. right. apply list_elem_of_here. Qed.

(** The control that [createControl] returns is in the list, carries the
    next identity, and is no button; the controls that were in the list
    with a smaller identity are still there. *)
Lemma createControl_returned (node : Node) (p : Param) :
  (createControl node p).1 ∈ widgets (createControl node p).2 ∧
  w_id (createControl node p).1 = widget_count node ∧
  (∀ w, w ∈ widgets node → w_id w < widget_count node →
        w ∈ widgets (createControl node p).2).
Proof.
  unfold createControl.
  destruct (isSeedParam p).
  { unfold createSeedWidget. cbn [fst snd addWidget]. split; [|split; [reflexivity|]].
    - apply in_update_other; [apply in_update_other|].
      + cbn. rewrite !elem_of_app. left. left. right. apply list_elem_of_here.
      + cbn. lia.
      + cbn. lia.
    - intros w Hw Hid. apply in_update_other; [apply in_update_other|].
      + cbn. rewrite !elem_of_app. by do 3 left.
      + cbn. lia.
      + cbn. lia. }
  destruct (String.eqb (p_type p) "BOOLEAN").
  { split; [apply new_addWidget|]. split; [reflexivity|]. intros w Hw _.
    by apply in_addWidget. }
  destruct (String.eqb (p_type p) "STRING").
  { assert (∀ wn : Widget * Node,
              wn.1 ∈ widgets wn.2 ∧ w_id wn.1 = widget_count node ∧
              (∀ w, w ∈ widgets node → w_id w < widget_count node → w ∈ widgets wn.2) →
              ∀ f, (∀ w, w_id (f w) = w_id w) →
              (mutate f wn).1 ∈ widgets (mutate f wn).2 ∧
              w_id (mutate f wn).1 = widget_count node ∧
              (∀ w, w ∈ widgets node → w_id w < widget_count node →
                    w ∈ widgets (mutate f wn).2)) as Hm.
    { intros wn (H1 & H2 & H3) f Hf. split; [by apply in_mutate|].
      split; [cbn; by rewrite Hf|].
      intros w Hw Hid. apply old_mutate; [by apply H3|]. lia. }
    assert (∀ t n v cb o,
              (addWidget node t n v cb o).1 ∈ widgets (addWidget node t n v cb o).2 ∧
              w_id (addWidget node t n v cb o).1 = widget_count node ∧
              (∀ w, w ∈ widgets node → w_id w < widget_count node →
                    w ∈ widgets (addWidget node t n v cb o).2)) as Ha.
    { intros. split; [apply new_addWidget|]. split; [reflexivity|].
      intros w Hw _. by apply in_addWidget. }
    destruct (isMultilineParam p || p_isArray p); destruct (p_isArray p);
      unfold ComfyWidgets_STRING;
      repeat (apply Hm; [|reflexivity]); apply Ha. }
  destruct (String.eqb (p_type p) "COMBO" && bool_decide (is_Some (p_options p))).
  { split; [apply new_addWidget|]. split; [reflexivity|]. intros w Hw _.
    by apply in_addWidget. }
  destruct (String.eqb (p_type p) "INT" || String.eqb (p_type p) "FLOAT").
  { split; [apply new_addWidget|]. split; [reflexivity|]. intros w Hw _.
    by apply in_addWidget. }
  split; [apply new_addWidget|]. split; [reflexivity|]. intros w Hw _.
  by apply in_addWidget.
Qed.

Lemma createWidgetInputPort_returned (node : Node) (widget : Widget) (p : Param) :
  widget ∈ widgets node →
  (createWidgetInputPort node widget p).1.2 ∈ widgets (createWidgetInputPort node widget p).2 ∧
  (∀ w, w ∈ widgets node → w_id w ≠ w_id widget →
        w ∈ widgets (createWidgetInputPort node widget p).2).
Proof.
  intros Hin. unfold createWidgetInputPort.
  destruct (widgets_allocatePlaceholder node p) as [Hw _].
  destruct (allocatePlaceholder node p) as [[[info|key]|] node1]; cbn [fst snd] in *;
    [|by rewrite Hw|by rewrite Hw].
  assert (∀ slotPort,
            let '(addedInput, node2) := addInput node1 (p_name p) (portType p) in
            let node3 := update_port addedInput
                           (in_assign_dynamic (p_name p) (w_id widget) (placeholder info)
                              slotPort) node2 in
            let '(widget1, node4) :=
              mutate (w_set_input_pair (Some addedInput)) (widget, node3) in
            widget1 ∈ widgets node4 ∧
            (∀ w, w ∈ widgets node → w_id w ≠ w_id widget → w ∈ widgets node4)) as Hcase.
  { intros slotPort. cbn [addInput]. cbv zeta. unfold mutate. cbn [fst snd]. split.
    - apply in_update_same. cbn. by rewrite Hw.
    - intros w Hwin Hne. apply in_update_other; [|done]. cbn. by rewrite Hw. }
  destruct (find_port node1 (placeholder info) (wavespeed_hiddenInputs node1)) as [s1|].
  { exact (Hcase s1). }
  destruct (find_port node1 (placeholder info) (wavespeed_allInputs node1)) as [s2|].
  { exact (Hcase s2). }
  destruct (find_port node1 (placeholder info) (wavespeed_originalInputs node1)) as [s3|].
  { exact (Hcase s3). }
  destruct (find_port node1 (placeholder info) (inputs node1)) as [s4|].
  { exact (Hcase s4). }
  cbn [fst snd]. by rewrite Hw.
Qed.

(** The control that [createParameterWidget] returns is in the list of the
    node, with the next identity; the older controls are still there. *)
Lemma createParameterWidget_returned (node : Node) (p : Param) (i : nat) :
  ∃ w, (createParameterWidget node p i).1 = Some w ∧
       w ∈ widgets (createParameterWidget node p i).2 ∧
       w_id w = widget_count node ∧
       w_param_name w = Some (p_name p) ∧
       w_type w = w_type (createControl node p).1 ∧
       (∀ w', w' ∈ widgets node → w_id w' < widget_count node →
              w' ∈ widgets (createParameterWidget node p i).2).
Proof.
  unfold createParameterWidget.
  destruct (createControl_returned node p) as (Hin & Hid & Hold).
  destruct (createControl node p) as [w0 n1]. cbn [fst snd] in *.
  pose proof (in_mutate (w_mark_param (p_name p) i (p_required p)) (w0, n1) Hin) as Hin1.
  assert (∀ w', w' ∈ widgets node → w_id w' < widget_count node →
                w' ∈ widgets (mutate (w_mark_param (p_name p) i (p_required p)) (w0, n1)).2)
    as Hold1.
  { intros w' Hw' Hlt. apply old_mutate; [by apply Hold|]. cbn. lia. }
  unfold mutate in *. cbn [fst snd] in *.
  destruct (shouldCreateInputPort p).
  - destruct (createWidgetInputPort_returned _ _ p Hin1) as [Hr Ho].
    destruct (createWidgetInputPort_widget
                (update_widget (w_id w0) (w_mark_param (p_name p) i (p_required p)) n1)
                (w_mark_param (p_name p) i (p_required p) w0) p) as [He|[port He]].
    + destruct (createWidgetInputPort _ _ p) as [[o w1] n2]. cbn [fst snd] in *.
      subst w1. eexists. split; [reflexivity|]. split; [exact Hr|].
      split; [exact Hid|]. split; [reflexivity|]. split; [reflexivity|].
      intros w' Hw' Hlt. apply Ho; [by apply Hold1|]. cbn. lia.
    + destruct (createWidgetInputPort _ _ p) as [[o w1] n2]. cbn [fst snd] in *.
      subst w1. eexists. split; [reflexivity|]. split; [exact Hr|].
      split; [exact Hid|]. split; [reflexivity|]. split; [reflexivity|].
      intros w' Hw' Hlt. apply Ho; [by apply Hold1|]. cbn. lia.
  - eexists. split; [reflexivity|]. split; [exact Hin1|].
    split; [exact Hid|]. split; [reflexivity|]. split; [reflexivity|]. exact Hold1.
Qed.

(** C10.  For a parameter whose lower-cased name contains [seed],
    [createParameterWidget] creates a number control with minimum -3,
    maximum 1125899906842624, step 1 and precision 0, whatever [min], [max]
    and [step] the descriptor carries; its value is the default of the
    descriptor, or -1 when that default is [undefined] or [null].  The
    control is the one returned, it is in the list of controls of the
    resulting node under the next identity, and it is marked with the name
    of the parameter. *)
Theorem seed_control_fixed_range (node : Node) (param : Param) (paramIndex : nat) :
  includes (toLowerCase (p_name param)) "seed" = true →
  ∃ w, (createParameterWidget node param paramIndex).1 = Some w ∧
       w ∈ widgets (createParameterWidget node param paramIndex).2 ∧
       w_id w = widget_count node ∧
       w_param_name w = Some (p_name param) ∧
       w_type w = "number" ∧
       opt_min (w_options w) = JNum (-3) ∧
       opt_max (w_options w) = JNum 1125899906842624 ∧
       opt_step (w_options w) = JNum 1 ∧
       opt_precision (w_options w) = JNum 0 ∧
       w_value w = nullish (p_default param) (JNum (-1)) ∧
       (is_nullish (p_default param) = true → w_value w = JNum (-1)).
Proof.
  intros Hseed.
  destruct (createParameterWidget_returned node param paramIndex)
    as (w & Hw & Hin & Hid & Hname & _).
  destruct (createParameterWidget_face node param paramIndex)
    as (w' & Hw' & Hface & _).
  rewrite Hw in Hw'. injection Hw' as <-.
  exists w. split; [exact Hw|]. split; [exact Hin|]. split; [exact Hid|].
  split; [exact Hname|].
  assert (face w = ("number", displayNameOf param,
                    nullish (p_default param) (JNum (-1)),
                    {| opt_values := None; opt_on := None; opt_off := None;
                       opt_precision := JNum 0; opt_step := JNum 1;
                       opt_min := JNum (-3); opt_max := JNum 1125899906842624;
                       opt_serialize := None; opt_multiline := false |})) as Hf.
  { rewrite Hface. unfold createControl, isSeedParam. rewrite Hseed, orb_true_r.
    reflexivity. }
  unfold face in Hf. injection Hf as Ht _ Hv Ho.
  rewrite Ht, Hv, Ho. simpl. repeat split; try reflexivity.
  intros Hn. by destruct (p_default param).
Qed.

Lemma seed_control_fixed_range_witness :
  ∃ w, (createParameterWidget freshNode seedParam 0).1 = Some w ∧
       w ∈ widgets (createParameterWidget freshNode seedParam 0).2 ∧
       w_id w = widget_count freshNode ∧
       w_param_name w = Some (p_name seedParam) ∧
       w_type w = "number" ∧
       opt_min (w_options w) = JNum (-3) ∧
       opt_max (w_options w) = JNum 1125899906842624 ∧
       opt_step (w_options w) = JNum 1 ∧
       opt_precision (w_options w) = JNum 0 ∧
       w_value w = nullish (p_default seedParam) (JNum (-1)) ∧
       (is_nullish (p_default seedParam) = true → w_value w = JNum (-1)).
Proof. apply seed_control_fixed_range. vm_compute. reflexivity. Defined.

(** ** Restoring saved values *)

Lemma sortedParams_perm (params : list Param) : sortedParams params ≡ₚ params.
Proof.
  unfold sortedParams. rewrite sortByPriority_perm, filter_partition_perm.
  apply filter_partition_perm.
Qed.

(** A control of the parameter [name] that is no button and holds [v]. *)
Definition holdsValue (node : Node) (name : string) (v : JsValue) : Prop :=
  ∃ w, w ∈ widgets node ∧ w_param_name w = Some name ∧ w_type w ≠ "button" ∧ w_value w = v.

Lemma restoreWidgets_keeps (ps : list Param) (node : Node) (i : nat) (w : Widget) :
  fresh_ids node → w ∈ widgets node → w ∈ widgets (restoreWidgets node ps i).
Proof.
  revert node i. induction ps as [|p ps IH]; intros node i Hfresh Hw; cbn [restoreWidgets];
    [done|].
  assert (w_id w < widget_count node) as Hlt.
  { unfold fresh_ids, tags in Hfresh. rewrite Forall_fmap, Forall_forall in Hfresh.
    apply (Hfresh w Hw). }
  destruct (tags_createParameterWidget node p i Hfresh) as [Ht Hc].
  destruct (createParameterWidget_returned node p i) as (w0 & Hret & Hin & Hid & _ & _ & Hold).
  destruct (createParameterWidget node p i) as [o n1]. cbn [fst snd] in *. subst o.
  assert (fresh_ids n1) as Hf1 by (by apply (fresh_ids_extend node n1 (controlNames p))).
  destruct (obj_get (parameterValues (wavespeedState n1)) (p_name p)) as [v|];
    [|by apply IH, Hold].
  destruct (is_undefined v); [by apply IH, Hold|].
  apply IH.
  - apply (fresh_ids_extend node _ (controlNames p)); [done| |done].
    by rewrite tags_update_keep.
  - apply in_update_other; [by apply Hold|]. lia.
Qed.

Lemma restoreWidgets_values (ps : list Param) (node : Node) (i : nat) (p : Param)
    (v : JsValue) :
  fresh_ids node → p ∈ ps →
  obj_get (parameterValues (wavespeedState node)) (p_name p) = Some v →
  is_undefined v = false →
  holdsValue (restoreWidgets node ps i) (p_name p) v.
Proof.
  revert node i. induction ps as [|q ps IH]; intros node i Hfresh Hp Hv Hdef.
  { by apply elem_of_nil in Hp. }
  cbn [restoreWidgets].
  destruct (tags_createParameterWidget node q i Hfresh) as [Ht Hc].
  destruct (kept_createParameterWidget node q i) as (_ & Hsaved & _).
  destruct (saved_pair _ _ _ Hsaved) as [_ Hvals].
  destruct (createParameterWidget_returned node q i)
    as (w0 & Hret & Hin & Hid & Hname & Hty & Hold).
  pose proof (createControl_type node q) as Htype.
  destruct (createParameterWidget node q i) as [o n1]. cbn [fst snd] in *. subst o.
  assert (fresh_ids n1) as Hf1 by (by apply (fresh_ids_extend node n1 (controlNames q))).
  set (n2 := match obj_get (parameterValues (wavespeedState n1)) (p_name q) with
             | Some v0 => if is_undefined v0 then n1
                          else update_widget (w_id w0) (w_set_value v0) n1
             | None => n1
             end).
  assert (fresh_ids n2 ∧ parameterValues (wavespeedState n2) =
                         parameterValues (wavespeedState node)) as [Hf2 Hvals2].
  { subst n2. destruct (obj_get _ (p_name q)) as [v0|]; [|by split].
    destruct (is_undefined v0); [by split|]. split; [|exact Hvals].
    apply (fresh_ids_extend node _ (controlNames q)); [done| |done].
    by rewrite tags_update_keep. }
  apply elem_of_cons in Hp as [->|Hp].
  - assert (holdsValue n2 (p_name q) v) as (w & Hw & Hn & Ht' & Hval).
    { subst n2. rewrite Hvals, Hv, Hdef.
      exists (w_set_value v w0). split; [by apply in_update_same|].
      split; [exact Hname|]. split; [|reflexivity].
      cbn [w_type w_set_value]. rewrite Hty. intros Hb. rewrite Hb in Htype.
      repeat (apply elem_of_cons in Htype as [Htype|Htype]; [discriminate|]).
      by apply elem_of_nil in Htype. }
    exists w. split; [|done]. by apply restoreWidgets_keeps.
  - apply IH; [done|done| |done]. by rewrite Hvals2.
Qed.

(** X25.  When the controls are rebuilt from saved descriptors, every descriptor
    whose name has a saved value other than [undefined] gets a control that
    holds that value: a control of that parameter that is no button. *)
Theorem restore_puts_saved_values (parseFloat : string → option Q) (node : Node)
    (p : Param) (v : JsValue) :
  fresh_ids node →
  p ∈ parameters (wavespeedState node) →
  obj_get (parameterValues (wavespeedState node)) (p_name p) = Some v →
  is_undefined v = false →
  holdsValue (restoreParametersFromCache parseFloat node) (p_name p) v.
Proof.
  intros Hfresh Hp Hv Hdef. unfold restoreParametersFromCache.
  assert (p ∈ sortedParams (parameters (wavespeedState node))) as Hp'
    by (by rewrite sortedParams_perm).
  pose proof (restoreWidgets_values _ node 0 p v Hfresh Hp' Hv Hdef) as H.
  destruct (updateRequestJsonWidget_frame parseFloat
              (restoreWidgets node (sortedParams (parameters (wavespeedState node))) 0))
    as (Hw & _).
  unfold holdsValue in *. by rewrite Hw.
Qed.

Lemma restore_puts_saved_values_witness :
  holdsValue (restoreParametersFromCache parseDigits loadedNode.1) "width" (JNum 768).
Proof.
  apply (restore_puts_saved_values parseDigits loadedNode.1
           (makeParam ["prompt"] "width" (plainProp "integer" (JNum 512))) (JNum 768)).
  - exact fresh_ids_loadedNode.
  - apply (list_elem_of_lookup_2 _ 2). vm_compute. reflexivity.
  - vm_compute. reflexivity.
  - reflexivity.
Defined.


(** ** Node size *)

(** The controls that take room: the ones the size function does not skip. *)
Definition shownControls (node : Node) : list Widget :=
  List.filter (λ widget, negb (skippedBySize widget)) (widgets node).

(** A shown multi-line control holds a text or a falsy value. *)
Definition textInMultiline (widget : Widget) : Prop :=
  w_type widget = "customtext" → is_Some (lineCount (w_value widget)).

#[local] Instance textInMultiline_dec (widget : Widget) : Decision (textInMultiline widget).
Proof. unfold textInMultiline. apply _. Defined.

Lemma lineCount_positive (v : JsValue) (count : Z) :
  lineCount v = Some count → (1 ≤ count)%Z.
Proof.
  unfold lineCount. destruct (js_or v (JStr "")) as [| | | |s|]; try done.
  intros [= <-]. destruct s as [|c s]; cbn; [lia|].
  destruct (Ascii.eqb c _); cbn; [lia|]. destruct (js_split _ s); cbn; lia.
Qed.

Lemma widgetExtent_bounds (widget : Widget) :
  textInMultiline widget →
  ∃ extent, widgetExtent widget = Some extent ∧ (36 ≤ extent)%Z ∧
            (w_type widget = "customtext" → (92 ≤ extent)%Z).
Proof.
  unfold textInMultiline, widgetExtent. intros Htext.
  destruct (String.eqb_spec (w_type widget) "customtext") as [He|Hne].
  - destruct (Htext He) as [count ->]. eexists. split; [reflexivity|].
    destruct (w_is_array widget); split; intros; lia.
  - destruct (String.eqb (w_type widget) "combo").
    { eexists. split; [reflexivity|]. destruct (w_is_array widget); split; (lia || done). }
    destruct (String.eqb (w_type widget) "number" || String.eqb (w_type widget) "text").
    { eexists. split; [reflexivity|]. destruct (w_is_array widget); split; (lia || done). }
    eexists. split; [reflexivity|]. destruct (w_is_array widget); split; (lia || done).
Qed.

Lemma layoutFrom_shown (ws : list Widget) (y : Z) :
  layoutFrom y ws = layoutFrom y (List.filter (λ widget, negb (skippedBySize widget)) ws).
Proof.
  revert y. induction ws as [|w ws IH]; intros y; [done|]. cbn [layoutFrom List.filter].
  destruct (skippedBySize w) eqn:Hs; cbn [negb]; [apply IH|].
  cbn [layoutFrom]. rewrite Hs. destruct (widgetExtent w); [apply IH|done].
Qed.

Lemma layoutFrom_bound (ws : list Widget) (y : Z) :
  Forall textInMultiline (List.filter (λ widget, negb (skippedBySize widget)) ws) →
  ∃ y', layoutFrom y ws = Some y' ∧
        (y + 36 * Z.of_nat (length (List.filter (λ widget, negb (skippedBySize widget)) ws))
         ≤ y')%Z.
Proof.
  revert y. induction ws as [|w ws IH]; intros y Hall.
  { exists y. split; [done|]. cbn. lia. }
  cbn [layoutFrom List.filter] in *.
  destruct (skippedBySize w); cbn [negb] in *; [by apply IH|].
  apply Forall_cons in Hall as [Hw Hall].
  destruct (widgetExtent_bounds w Hw) as (extent & -> & Hext & _).
  destruct (IH (y + extent)%Z Hall) as (y' & -> & Hy).
  exists y'. split; [done|]. cbn [length]. lia.
Qed.

(** X26.  When every shown multi-line control holds a text or a falsy value, the size
    function returns; the width is the host's; with no control at all the
    height is the host's too, and otherwise it is the layout of the shown
    controls alone (a hidden control and the three internal controls take no
    room), at least 45 plus 36 for each shown control. *)
Theorem size_counts_shown_controls (size : Z * Z) (node : Node) :
  Forall textInMultiline (shownControls node) →
  ∃ height,
    computeSize size node = Some (size.1, height) ∧
    (widgets node = [] → height = size.2) ∧
    (widgets node ≠ [] →
       layoutFrom 30 (shownControls node) = Some (height - 15)%Z ∧
       (45 + 36 * Z.of_nat (length (shownControls node)) ≤ height)%Z).
Proof.
  intros Hall. unfold computeSize, shownControls.
  destruct (layoutFrom_bound (widgets node) 30 Hall) as (y & Hy & Hbound).
  rewrite <- layoutFrom_shown.
  destruct (widgets node) as [|w ws] eqn:Hws.
  { exists size.2. split; [by destruct size|]. split; [done|]. by intros []. }
  rewrite Hy. exists (y + 15)%Z. split; [done|]. split; [done|]. intros _.
  split; [f_equal; lia|lia].
Qed.

Lemma size_counts_shown_controls_witness :
  let node := selectedNode parseDigits scenarioSchema in
  ∃ height,
    computeSize (200, 100)%Z node = Some (200%Z, height) ∧
    (widgets node = [] → height = 100%Z) ∧
    (widgets node ≠ [] →
       layoutFrom 30 (shownControls node) = Some (height - 15)%Z ∧
       (45 + 36 * Z.of_nat (length (shownControls node)) ≤ height)%Z).
Proof.
  apply (size_counts_shown_controls (200, 100)%Z (selectedNode parseDigits scenarioSchema)).
  apply (bool_decide_unpack _). vm_compute. exact I.
Defined.

(** ** Array values from the control to the payload *)

Lemma convertArrayValue_items parseFloat (itemType value : string) :
  ∃ items, convertArrayValue parseFloat itemType value = JArr items ∧
           Forall (λ item, (∃ q, item = JNum q ∧ itemType = "number") ∨
                           (∃ s, item = JStr s ∧ s ≠ "" ∧
                                 (itemType = "number" → parseFloat s = None))) items.
Proof.
  unfold convertArrayValue.
  set (arrayValue := List.filter _ _).
  assert (Forall (λ s, s ≠ "") arrayValue) as Hne.
  { apply Forall_forall. intros s Hs. subst arrayValue.
    apply list_elem_of_In, filter_In in Hs as [_ Hs].
    intros ->. done. }
  destruct (String.eqb_spec itemType "number") as [->|Hnum].
  - eexists. split; [reflexivity|]. induction Hne as [|s l Hs Hl IH]; cbn; [constructor|].
    constructor; [|exact IH].
    destruct (parseFloat s) as [q|] eqn:Hp; [left; by exists q|right; by exists s].
  - eexists. split; [reflexivity|]. induction Hne as [|s l Hs Hl IH]; cbn; [constructor|].
    constructor; [|exact IH]. right. by exists s.
Qed.

(** X27.  The text of an array control becomes an array without empty items:
    numbers where the item type is [number] and the item parses, texts
    otherwise.  The conversion that the execution-time rewrite applies with
    the same item type leaves such an array as it is. *)
Theorem array_conversion_is_stable (parseFloat : string → option Q)
    (numberToString : Q → string) (itemType value : string) :
  ∃ items,
    convertArrayValue parseFloat itemType value = JArr items ∧
    Forall (λ item, (∃ q, item = JNum q ∧ itemType = "number") ∨
                    (∃ s, item = JStr s ∧ s ≠ "")) items ∧
    processArrayValue parseFloat numberToString itemType items = JArr items.
Proof.
  destruct (convertArrayValue_items parseFloat itemType value) as (items & Heq & Hall).
  exists items. split; [exact Heq|]. split.
  - eapply Forall_impl; [exact Hall|]. cbn. intros item [(q & -> & Hq)|(s & -> & Hs & _)].
    + left. by exists q.
    + right. by exists s.
  - unfold processArrayValue. clear Heq.
    destruct (String.eqb_spec itemType "number") as [->|Hnum]; f_equal.
    + induction Hall as [|item l Hitem Hl IH]; [done|]. cbn [List.map]. rewrite IH.
      destruct Hitem as [(q & -> & _)|(s & -> & _ & Hp)]; [done|]. by rewrite Hp.
    + induction Hall as [|item l Hitem Hl IH]; [done|]. cbn [List.map]. rewrite IH.
      destruct Hitem as [(q & -> & ?)|(s & -> & _ & _)]; done.
Qed.


(** ** Loading a saved workflow *)

Lemma saved_addCategorySelector (remote : Remote) (now : Z) (node : Node) (s : Session) :
  saved (addCategorySelector remote now node s).1 = saved node.
Proof.
  unfold addCategorySelector.
  by destruct (getCachedCategories remote now now s) as [cats s1].
Qed.

Lemma saved_restoreModelDisplayName (remote : Remote) (now : Z) (node : Node) (s : Session) :
  saved (restoreModelDisplayName remote now node s).1 = saved node.
Proof.
  unfold restoreModelDisplayName.
  destruct (String.eqb (category (wavespeedState node)) ""); [done|].
  destruct (getCachedModelsByCategory remote now now (getCategoryValue node) s)
    as [models s1].
  destruct (List.find _ models) as [model|]; destruct (modelWidget node) as [mw|];
    try done.
  by destruct models.
Qed.

(** What [initializeWithCachedData] hands to [restoreParametersFromCache]. *)
Lemma initializeWithCachedData_prepares parseFloat (remote : Remote) (now : Z)
    (node : Node) (s : Session) :
  fresh_ids node →
  ∃ node5, fresh_ids node5 ∧ saved node5 = saved node ∧
           (initializeWithCachedData parseFloat remote now node s).1 =
             if 0 <? length (parameters (wavespeedState node))
             then restoreParametersFromCache parseFloat node5 else node5.
Proof.
  intros Hfresh. unfold initializeWithCachedData.
  pose proof (fresh_ids_clearDynamicWidgets node Hfresh) as Hf1.
  assert (saved (clearDynamicWidgets node) = saved node) as Hs1 by reflexivity.
  generalize dependent (clearDynamicWidgets node). intros node1 Hf1 Hs1.
  destruct (tags_addCategorySelector remote now node1 s Hf1) as (Ht2 & Hc2 & _ & _).
  pose proof (saved_addCategorySelector remote now node1 s) as Hs2.
  destruct (addCategorySelector remote now node1 s) as [node2 s1].
  cbn [fst snd] in Ht2, Hc2, Hs2.
  set (node3 := match categoryWidget node2 with
                | Some cw =>
                    if negb (String.eqb (category (wavespeedState node2)) "")
                    then update_widget cw
                           (w_set_value (JStr (category (wavespeedState node2)))) node2
                    else node2
                | None => node2
                end).
  assert (tags node3 = tags node2 ∧ widget_count node3 = widget_count node2 ∧
          saved node3 = saved node2) as (Ht3 & Hc3 & Hs3).
  { unfold node3. destruct (categoryWidget node2); [|done].
    destruct (negb (String.eqb (category (wavespeedState node2)) "")); [|done].
    by rewrite tags_update_keep. }
  assert (fresh_ids node3) as Hf3.
  { apply (fresh_ids_extend node1 node3 ["Category"]); [done| |].
    - rewrite Ht3, Ht2. reflexivity.
    - rewrite Hc3, Hc2. cbn [length]. lia. }
  generalize dependent node3. intros node3 Ht3 Hc3 Hs3 Hf3.
  destruct (tags_addModelSelector node3 Hf3) as (Ht4 & Hc4 & _ & _).
  assert (saved (addModelSelector node3) = saved node3) as Hs4 by reflexivity.
  assert (fresh_ids (addModelSelector node3)) as Hf4.
  { apply (fresh_ids_extend node3 _ ["Model"]); [done|done|]. rewrite Hc4. cbn [length]. lia. }
  generalize dependent (addModelSelector node3). intros node4 Ht4 Hc4 Hs4 Hf4.
  set (r5 := match modelWidget node4 with
             | Some _ =>
                 if negb (String.eqb (modelId (wavespeedState node4)) "")
                 then restoreModelDisplayName remote now node4 s1
                 else (node4, s1)
             | None => (node4, s1)
             end).
  assert (tags r5.1 = tags node4 ∧ widget_count r5.1 = widget_count node4 ∧
          saved r5.1 = saved node4) as (Ht5 & Hc5 & Hs5).
  { unfold r5. destruct (modelWidget node4); [|by repeat split].
    destruct (negb (String.eqb (modelId (wavespeedState node4)) ""));
      [|by repeat split].
    destruct (tags_restoreModelDisplayName remote now node4 s1) as (? & ? & _).
    split; [done|]. split; [done|]. apply saved_restoreModelDisplayName. }
  generalize dependent r5. intros [node5 s2] Ht5 Hc5 Hs5. cbn [fst snd] in *.
  assert (fresh_ids node5) as Hf5.
  { unfold fresh_ids in *. by rewrite Ht5, Hc5. }
  assert (saved node5 = saved node) as Hs by congruence.
  exists node5. split; [exact Hf5|]. split; [exact Hs|].
  destruct (saved_pair _ _ _ Hs) as [Hp _]. rewrite Hp.
  by destruct (0 <? length (parameters (wavespeedState node))).
Qed.

(** X28.  When a node that carries a model and saved descriptors is initialised
    (as it is after a workflow was loaded), every descriptor whose name has a
    saved value other than [undefined] ends with a control that holds it. *)
Theorem load_shows_saved_values (parseFloat : string → option Q) (remote : Remote)
    (now : Z) (node : Node) (s : Session) (p : Param) (v : JsValue) :
  fresh_ids node →
  modelId (wavespeedState node) ≠ "" →
  p ∈ parameters (wavespeedState node) →
  obj_get (parameterValues (wavespeedState node)) (p_name p) = Some v →
  is_undefined v = false →
  holdsValue (initializeDynamicInterface parseFloat remote now node s).1 (p_name p) v.
Proof.
  intros Hfresh Hm Hp Hv Hdef. unfold initializeDynamicInterface.
  destruct (String.eqb_spec (modelId (wavespeedState node)) "") as [|_]; [done|].
  destruct (parameters (wavespeedState node)) as [|q qs] eqn:Hps.
  { by apply elem_of_nil in Hp. }
  cbn [negb andb length Nat.ltb Nat.leb].
  destruct (initializeWithCachedData_prepares parseFloat remote now node s Hfresh)
    as (node5 & Hf5 & Hs5 & Heq).
  rewrite Hps in Heq. cbn [length Nat.ltb Nat.leb] in Heq.
  destruct (saved_pair _ _ _ Hs5) as [Hp5 Hv5].
  assert (holdsValue (restoreParametersFromCache parseFloat node5) (p_name p) v) as Hhold.
  { unfold restoreParametersFromCache.
    assert (p ∈ sortedParams (parameters (wavespeedState node5))) as Hp'
      by (rewrite sortedParams_perm, Hp5, Hps; exact Hp).
    pose proof (restoreWidgets_values _ node5 0 p v Hf5 Hp') as H.
    rewrite Hv5 in H. specialize (H Hv Hdef).
    destruct (updateRequestJsonWidget_frame parseFloat
                (restoreWidgets node5 (sortedParams (parameters (wavespeedState node5))) 0))
      as (Hw & _).
    unfold holdsValue in *. by rewrite Hw. }
  rewrite <- Heq in Hhold.
  destruct (initializeWithCachedData parseFloat remote now node s) as [node1 s1].
  cbn [fst snd] in *.
  generalize dependent node1. intros node1 _ Hhold.
  unfold holdsValue in *.
  by destruct (List.filter _ (inputs node1)).
Qed.

Lemma load_shows_saved_values_witness :
  holdsValue initializedOnce.1 "width" (JNum 768).
Proof.
  apply (load_shows_saved_values parseDigits (remoteWith scenarioSchema) 0
           loadedNode.1 loadedNode.2
           (makeParam ["prompt"] "width" (plainProp "integer" (JNum 512))) (JNum 768)).
  - exact fresh_ids_loadedNode.
  - vm_compute. discriminate.
  - apply (list_elem_of_lookup_2 _ 2). vm_compute. reflexivity.
  - vm_compute. reflexivity.
  - reflexivity.
Defined.
